(** * The signal-analysis workflow of the trading agent

    A shallow embedding of [src/functions/signal-analysis.ts] together with
    the two clients it drives, [src/lib/lunarcrush.ts] and
    [src/lib/gemini.ts], and the Telegram notifier.

    Modelling conventions.
    - JavaScript numbers are integers of [Z]: every number the workflow
      handles is a count, a rank, a score, a percentage or a millisecond
      timestamp.  The two places where the source divides (the progress
      percentage and the engagement ratio) are computed over [Q], exactly.
    - Strings are Rocq strings holding the UTF-8 encoding of the text.
    - Asynchronous code is run to completion: a [Promise] is a computation
      of the monad [M] below, which threads the outside world and carries
      thrown errors.  A thrown error keeps the effects that preceded it.
    - Everything the outside world decides (the answers of the data
      provider, of the model, of the database and of the messenger, and the
      clock) is read from the record [Capabilities]; the n-th call of a
      capability may answer differently from the (n+1)-th.
    - [step.run] runs its body once and hands its result on as it is: the
      steps of one run share the array [tradingSignals].  Console output is
      not modelled. *)

From Stdlib Require Import ZArith QArith Qabs Qround String Ascii List Sorted Lia.
From stdpp Require Import base option list strings gmap pretty.

Local Open Scope Z_scope.
Local Open Scope string_scope.

(** ** JavaScript primitives *)

(** [Math.round]: the nearest integer, ties towards +infinity. *)
Definition Math_round (q : Q) : Z := Qfloor (q + (1 # 2))%Q.

(** [x || 0] on a JSON field that may be missing, [null] or [NaN]. *)
Definition or_zero (x : option Z) : Z :=
  match x with
  | Some v => v
  | None => 0
  end.

Definition nl : string := String "010" "".

(** [xs.join(sep)] *)
Definition join (sep : string) (xs : list string) : string := String.concat sep xs.

(** [n.toFixed(1)]: the closest multiple of 1/10, the larger one on a tie. *)
Definition toFixed1 (q : Q) : string :=
  let n := Qfloor (Qabs q * 10 + (1 # 2))%Q in
  (if Qle_bool 0 q then "" else "-") ++ pretty (n / 10) ++ "." ++ pretty (n mod 10).

(** ** Data model *)

Inductive SignalType := BUY | SELL | HOLD.

#[global] Instance SignalType_eq_dec : EqDecision SignalType.
Proof. solve_decision. Defined.

Definition SignalType_to_string (s : SignalType) : string :=
  match s with
  | BUY => "BUY"
  | SELL => "SELL"
  | HOLD => "HOLD"
  end.

(** [TopCoin] of lunarcrush.ts *)
Record TopCoin := {
  coin_symbol : string;
  coin_name : string;
  coin_altRank : Z;
  coin_galaxyScore : Z;
  coin_price : Q;
  coin_marketCap : Q;
  coin_percentChange24h : Q
}.

(** [SocialMetrics] of types/trading, as built by [getSocialMetrics]. *)
Record SocialMetrics := {
  sm_symbol : string;
  mentions : Z;
  interactions : Z;
  creators : Z;
  altRank : Z;
  galaxyScore : Z;
  timestamp : Z
}.

(** [TradingSignal] of types/trading, as built by gemini.ts. *)
Record TradingSignal := {
  sig_id : string;
  sig_symbol : string;
  signal : SignalType;
  confidence : Z;
  reasoning : string;
  metrics : SocialMetrics;
  createdAt : string
}.

(** [event.data] of the [trading.analyze] event, as the trigger route sends
    it; a field that is absent is [None]. *)
Record EventData := {
  ev_jobId : option string;
  ev_topCoins : option (list TopCoin);
  ev_timestamp : Z;
  ev_triggerType : string
}.

(** A row of the table [analysis_jobs]. *)
Record JobRow := {
  job_id : string;
  status : string;
  current_step : string;
  step_message : string;
  progress_percentage : Z;
  event_data : EventData;
  started_at : string;
  updated_at : string;
  signals_generated : option Z;
  alerts_generated : option Z;
  duration_ms : option Z;
  completed_at : option string
}.

(** The object handed to [.update(...)] on [analysis_jobs]: the columns it
    names are overwritten, the others are kept. *)
Record JobPatch := {
  p_current_step : option string;
  p_step_message : option string;
  p_progress_percentage : option Z;
  p_status : option string;
  p_updated_at : option string;
  p_signals_generated : option Z;
  p_alerts_generated : option Z;
  p_duration_ms : option Z;
  p_completed_at : option string
}.

Definition apply_patch (p : JobPatch) (r : JobRow) : JobRow :=
  {| job_id := job_id r;
     status := default (status r) (p_status p);
     current_step := default (current_step r) (p_current_step p);
     step_message := default (step_message r) (p_step_message p);
     progress_percentage := default (progress_percentage r) (p_progress_percentage p);
     event_data := event_data r;
     started_at := started_at r;
     updated_at := default (updated_at r) (p_updated_at p);
     signals_generated := from_option Some (signals_generated r) (p_signals_generated p);
     alerts_generated := from_option Some (alerts_generated r) (p_alerts_generated p);
     duration_ms := from_option Some (duration_ms r) (p_duration_ms p);
     completed_at := from_option Some (completed_at r) (p_completed_at p) |}.

(** A write that reached [analysis_jobs]. *)
Inductive JobWrite :=
| JobInserted (row : JobRow)
| JobUpdated (id : string) (patch : JobPatch).

Definition written_progress (jw : JobWrite) : option Z :=
  match jw with
  | JobInserted row => Some (progress_percentage row)
  | JobUpdated _ patch => p_progress_percentage patch
  end.

Definition written_status (jw : JobWrite) : option string :=
  match jw with
  | JobInserted row => Some (status row)
  | JobUpdated _ patch => p_status patch
  end.

(** ** The outside world *)

Inductive DbOutcome :=
| DbOk
| DbError (message : string)     (* the client resolves to { error } *)
| DbThrows (message : string).   (* the client call rejects *)

(** The [data] object of a [/topic/:symbol/v1] response. *)
Record TopicData := {
  num_posts : option Z;
  interactions_24h : option Z;
  num_contributors : option Z
}.

(** The [Response] of a [fetch] on the topic endpoint; [response.json()]
    throws ([inl]) or yields the body, whose [data] may be missing. *)
Record HttpResponse := {
  http_status : Z;
  http_statusText : string;
  http_json : string + option TopicData
}.

(** What [fetch] does: it rejects (network error, abort after 10 s), or it
    resolves to a response. *)
Inductive FetchOutcome :=
| FetchThrows (message : string)
| FetchReturns (response : HttpResponse).

(** What the model call of [generateTradingSignal] does: one of the calls
    of the try block throws, or [response.text()] yields the text, or it
    yields a value that is not a string (on which [.match] throws). *)
Inductive GeminiOutcome :=
| GeminiThrows (message : string)
| GeminiText (analysis : string)
| GeminiNotText.

(** What the [fetch] of [sendTelegramMessage] does. *)
Inductive TelegramOutcome :=
| TelegramThrows
| TelegramReplied (ok : bool).

Record Capabilities := {
  clock : nat -> Z;                               (* Date.now() *)
  toISOString : Z -> string;                      (* new Date(t).toISOString() *)
  toLocaleString : Z -> string;                   (* n.toLocaleString() *)
  LUNARCRUSH_API_KEY : option string;
  fetch : nat -> string -> FetchOutcome;          (* fetch(url, ...) of makeRequest *)
  GOOGLE_GEMINI_API_KEY : option string;
  generateContent : nat -> string -> GeminiOutcome;
  jobs_op : nat -> DbOutcome;                     (* supabase.from('analysis_jobs') *)
  signals_insert : nat -> TradingSignal -> DbOutcome;
  telegram_configured : bool;
  telegram_fetch : nat -> string -> TelegramOutcome
}.

Record World := {
  analysis_jobs : gmap string JobRow;
  trading_signals : list TradingSignal;
  job_history : list JobWrite;     (* the writes [analysis_jobs] took, oldest first *)
  n_clock : nat;
  n_topic_requests : nat;
  n_gemini_calls : nat;
  n_jobs_ops : nat;
  n_signal_ops : nat;
  n_telegram : nat
}.

(** ** Computations *)

Inductive Result (A : Type) :=
| Ok (a : A)
| Throw (message : string).
Arguments Ok {A} a.
Arguments Throw {A} message.

Definition M (A : Type) : Type := World -> Result A * World.

#[global] Instance M_ret : MRet M := fun A a w => (Ok a, w).

#[global] Instance M_bind : MBind M := fun A B k m w =>
  match m w with
  | (Ok a, w') => k a w'
  | (Throw e, w') => (Throw e, w')
  end.

Definition throw {A} (message : string) : M A := fun w => (Throw message, w).

(** [try { body } catch (error) { handler }] *)
Definition try_catch {A} (body : M A) (handler : string -> M A) : M A := fun w =>
  match body w with
  | (Ok a, w') => (Ok a, w')
  | (Throw e, w') => handler e w'
  end.

(** ** Strings: what the regular expressions of gemini.ts need *)

Definition bytes (codes : list nat) : string :=
  string_of_list_ascii (map ascii_of_nat codes).

(** The characters [\s] and [trim] take for white space (WhiteSpace and
    LineTerminator of ECMAScript), in UTF-8. *)
Definition js_whitespace : list string :=
  [ bytes [9%nat]; bytes [10%nat]; bytes [11%nat]; bytes [12%nat]; bytes [13%nat];
    bytes [32%nat];
    bytes [194; 160]%nat;                       (* U+00A0 *)
    bytes [225; 154; 128]%nat;                  (* U+1680 *)
    bytes [226; 128; 128]%nat; bytes [226; 128; 129]%nat; bytes [226; 128; 130]%nat;
    bytes [226; 128; 131]%nat; bytes [226; 128; 132]%nat; bytes [226; 128; 133]%nat;
    bytes [226; 128; 134]%nat; bytes [226; 128; 135]%nat; bytes [226; 128; 136]%nat;
    bytes [226; 128; 137]%nat; bytes [226; 128; 138]%nat;   (* U+2000 .. U+200A *)
    bytes [226; 128; 168]%nat; bytes [226; 128; 169]%nat;   (* U+2028, U+2029 *)
    bytes [226; 128; 175]%nat;                  (* U+202F *)
    bytes [226; 129; 159]%nat;                  (* U+205F *)
    bytes [227; 128; 128]%nat;                  (* U+3000 *)
    bytes [239; 187; 191]%nat ].                (* U+FEFF *)

Definition string_rev (s : string) : string :=
  string_of_list_ascii (rev (list_ascii_of_string s)).

Definition upper (c : ascii) : ascii :=
  let n := nat_of_ascii c in
  if ((97 <=? n) && (n <=? 122))%nat then ascii_of_nat (n - 32) else c.

(** [strip_prefix_by eq p s]: what follows [p] at the head of [s]. *)
Fixpoint strip_prefix_by (eq : ascii -> ascii -> bool) (p s : string) : option string :=
  match p, s with
  | EmptyString, _ => Some s
  | String a p', String b s' => if eq a b then strip_prefix_by eq p' s' else None
  | String _ _, EmptyString => None
  end.

Definition strip_prefix : string -> string -> option string :=
  strip_prefix_by Ascii.eqb.

(** matching under the flag [i]: only ASCII letters have two cases here *)
Definition strip_prefix_ci : string -> string -> option string :=
  strip_prefix_by (fun a b => Ascii.eqb (upper a) (upper b)).

Definition first_some {A B} (f : A -> option B) (xs : list A) : option B :=
  foldr (fun x acc => match f x with Some r => Some r | None => acc end) None xs.

Definition strip_one_space (s : string) : option string :=
  first_some (fun sp => strip_prefix sp s) js_whitespace.

(** [\s*], greedy *)
Fixpoint skip_spaces_fuel (fuel : nat) (s : string) : string :=
  match fuel with
  | O => s
  | S fuel' =>
      match strip_one_space s with
      | Some s' => skip_spaces_fuel fuel' s'
      | None => s
      end
  end.

Definition skip_spaces (s : string) : string := skip_spaces_fuel (String.length s) s.

(** The last white-space character of a string made of white space only. *)
Fixpoint last_space_fuel (fuel : nat) (s : string) : option string :=
  match fuel with
  | O => None
  | S fuel' =>
      match strip_one_space s with
      | Some EmptyString => Some s
      | Some s' => last_space_fuel fuel' s'
      | None => None
      end
  end.

Definition trimStart (s : string) : string := skip_spaces s.

Fixpoint trimEnd_rev_fuel (fuel : nat) (r : string) : string :=
  match fuel with
  | O => r
  | S fuel' =>
      match first_some (fun sp => strip_prefix (string_rev sp) r) js_whitespace with
      | Some r' => trimEnd_rev_fuel fuel' r'
      | None => r
      end
  end.

Definition trimEnd (s : string) : string :=
  string_rev (trimEnd_rev_fuel (String.length s) (string_rev s)).

Definition trim (s : string) : string := trimEnd (trimStart s).

(** The leftmost position of [s] at which [at_position] matches. *)
Fixpoint search {A} (at_position : string -> option A) (s : string) : option A :=
  match at_position s with
  | Some r => Some r
  | None =>
      match s with
      | EmptyString => None
      | String _ s' => search at_position s'
      end
  end.

Definition is_digit (c : ascii) : bool :=
  let n := nat_of_ascii c in ((48 <=? n) && (n <=? 57))%nat.

(** [(\d+)], greedy: the digits at the head of [s]. *)
Fixpoint take_digits (s : string) : string :=
  match s with
  | String c s' => if is_digit c then String c (take_digits s') else EmptyString
  | EmptyString => EmptyString
  end.

(** [parseInt] on a string of decimal digits *)
Definition parseInt (digits : string) : Z :=
  fold_left (fun acc c => 10 * acc + (Z.of_nat (nat_of_ascii c) - 48))
            (list_ascii_of_string digits) 0.

Definition starts_with_ci (p s : string) : bool :=
  match strip_prefix_ci p s with
  | Some _ => true
  | None => false
  end.

(** [/SIGNAL:\s*(BUY|SELL|HOLD)/i], the group in upper case *)
Definition match_SIGNAL (aiResponse : string) : option SignalType :=
  search (fun s =>
    match strip_prefix_ci "SIGNAL:" s with
    | Some r =>
        let r := skip_spaces r in
        if starts_with_ci "BUY" r then Some BUY
        else if starts_with_ci "SELL" r then Some SELL
        else if starts_with_ci "HOLD" r then Some HOLD
        else None
    | None => None
    end) aiResponse.

(** [/CONFIDENCE:\s*(\d+)/i], the group *)
Definition match_CONFIDENCE (aiResponse : string) : option string :=
  search (fun s =>
    match strip_prefix_ci "CONFIDENCE:" s with
    | Some r =>
        match take_digits (skip_spaces r) with
        | EmptyString => None
        | digits => Some digits
        end
    | None => None
    end) aiResponse.

(** the lookahead [(?=\n\n|\n$|$)] *)
Definition reasoning_ends (rest : string) : bool :=
  match rest with
  | EmptyString => true
  | String "010" EmptyString => true
  | String "010" (String "010" _) => true
  | _ => false
  end.

(** [(.+?)] before that lookahead, under the flag [s] *)
Fixpoint lazy_capture (s : string) : string :=
  match s with
  | EmptyString => EmptyString
  | String c rest => if reasoning_ends rest then String c EmptyString else String c (lazy_capture rest)
  end.

(** [/REASONING:\s*(.+?)(?=\n\n|\n$|$)/s], the group.  When only white space
    follows the colon, [\s*] gives its last character back to the group. *)
Definition match_REASONING (aiResponse : string) : option string :=
  search (fun s =>
    match strip_prefix "REASONING:" s with
    | Some r =>
        match skip_spaces r with
        | EmptyString => last_space_fuel (String.length r) r
        | body => Some (lazy_capture body)
        end
    | None => None
    end) aiResponse.

(** ** Primitive effects *)

Definition set_n_clock (n : nat) (w : World) : World :=
  {| analysis_jobs := analysis_jobs w; trading_signals := trading_signals w;
     job_history := job_history w; n_clock := n;
     n_topic_requests := n_topic_requests w; n_gemini_calls := n_gemini_calls w;
     n_jobs_ops := n_jobs_ops w; n_signal_ops := n_signal_ops w;
     n_telegram := n_telegram w |}.

Definition set_n_topic_requests (n : nat) (w : World) : World :=
  {| analysis_jobs := analysis_jobs w; trading_signals := trading_signals w;
     job_history := job_history w; n_clock := n_clock w;
     n_topic_requests := n; n_gemini_calls := n_gemini_calls w;
     n_jobs_ops := n_jobs_ops w; n_signal_ops := n_signal_ops w;
     n_telegram := n_telegram w |}.

Definition set_n_gemini_calls (n : nat) (w : World) : World :=
  {| analysis_jobs := analysis_jobs w; trading_signals := trading_signals w;
     job_history := job_history w; n_clock := n_clock w;
     n_topic_requests := n_topic_requests w; n_gemini_calls := n;
     n_jobs_ops := n_jobs_ops w; n_signal_ops := n_signal_ops w;
     n_telegram := n_telegram w |}.

Definition set_n_jobs_ops (n : nat) (w : World) : World :=
  {| analysis_jobs := analysis_jobs w; trading_signals := trading_signals w;
     job_history := job_history w; n_clock := n_clock w;
     n_topic_requests := n_topic_requests w; n_gemini_calls := n_gemini_calls w;
     n_jobs_ops := n; n_signal_ops := n_signal_ops w;
     n_telegram := n_telegram w |}.

Definition set_n_signal_ops (n : nat) (w : World) : World :=
  {| analysis_jobs := analysis_jobs w; trading_signals := trading_signals w;
     job_history := job_history w; n_clock := n_clock w;
     n_topic_requests := n_topic_requests w; n_gemini_calls := n_gemini_calls w;
     n_jobs_ops := n_jobs_ops w; n_signal_ops := n;
     n_telegram := n_telegram w |}.

Definition set_n_telegram (n : nat) (w : World) : World :=
  {| analysis_jobs := analysis_jobs w; trading_signals := trading_signals w;
     job_history := job_history w; n_clock := n_clock w;
     n_topic_requests := n_topic_requests w; n_gemini_calls := n_gemini_calls w;
     n_jobs_ops := n_jobs_ops w; n_signal_ops := n_signal_ops w;
     n_telegram := n |}.

(** The table [analysis_jobs] takes a write: the write is recorded. *)
Definition write_job (jw : JobWrite) (jobs : gmap string JobRow) (w : World) : World :=
  {| analysis_jobs := jobs; trading_signals := trading_signals w;
     job_history := job_history w ++ [jw]; n_clock := n_clock w;
     n_topic_requests := n_topic_requests w; n_gemini_calls := n_gemini_calls w;
     n_jobs_ops := n_jobs_ops w; n_signal_ops := n_signal_ops w;
     n_telegram := n_telegram w |}.

Definition store_signal (s : TradingSignal) (w : World) : World :=
  {| analysis_jobs := analysis_jobs w; trading_signals := trading_signals w ++ [s];
     job_history := job_history w; n_clock := n_clock w;
     n_topic_requests := n_topic_requests w; n_gemini_calls := n_gemini_calls w;
     n_jobs_ops := n_jobs_ops w; n_signal_ops := n_signal_ops w;
     n_telegram := n_telegram w |}.

Section Workflow.

Context (E : Capabilities).

(** [Date.now()] *)
Definition Date_now : M Z := fun w =>
  (Ok (clock E (n_clock w)), set_n_clock (S (n_clock w)) w).

(** [new Date().toISOString()] *)
Definition new_Date_toISOString : M string :=
  t ← Date_now; mret (toISOString E t).

(** Modelled from the spec: the schema of the table [analysis_jobs] is not
    among the sources; the spec has the job record keyed by the job id, and
    the creation of a record whose id exists fails.
    [supabase.from('analysis_jobs').insert(row).select()], resolving to the
    [error] of the answer. *)
Definition analysis_jobs_insert (row : JobRow) : M (option string) := fun w =>
  let w1 := set_n_jobs_ops (S (n_jobs_ops w)) w in
  match jobs_op E (n_jobs_ops w) with
  | DbOk =>
      match analysis_jobs w !! job_id row with
      | Some _ => (Ok (Some "duplicate key value violates unique constraint"), w1)
      | None => (Ok None, write_job (JobInserted row) (<[job_id row := row]> (analysis_jobs w)) w1)
      end
  | DbError e => (Ok (Some e), w1)
  | DbThrows e => (Throw e, w1)
  end.

(** [supabase.from('analysis_jobs').update(patch).eq('id', id).select()],
    resolving to the [error] of the answer.  No row with that id: nothing
    is written, and that is no error. *)
Definition analysis_jobs_update (patch : JobPatch) (id : string) : M (option string) := fun w =>
  let w1 := set_n_jobs_ops (S (n_jobs_ops w)) w in
  match jobs_op E (n_jobs_ops w) with
  | DbOk =>
      match analysis_jobs w !! id with
      | Some row =>
          (Ok None, write_job (JobUpdated id patch) (<[id := apply_patch patch row]> (analysis_jobs w)) w1)
      | None => (Ok None, w1)
      end
  | DbError e => (Ok (Some e), w1)
  | DbThrows e => (Throw e, w1)
  end.

(** [supabase.from('trading_signals').insert({...})], resolving to the
    [error] of the answer. *)
Definition trading_signals_insert (s : TradingSignal) : M (option string) := fun w =>
  let w1 := set_n_signal_ops (S (n_signal_ops w)) w in
  match signals_insert E (n_signal_ops w) s with
  | DbOk => (Ok None, store_signal s w1)
  | DbError e => (Ok (Some e), w1)
  | DbThrows e => (Throw e, w1)
  end.

(** The number of the call of [makeRequest] that starts; the world counts
    these calls. *)
Definition count_request : M nat := fun w =>
  (Ok (n_topic_requests w), set_n_topic_requests (S (n_topic_requests w)) w).

(** ** lunarcrush.ts *)

Definition BASE_URL : string := "https://lunarcrush.com/api4/public".

Definition getApiKey : M string :=
  match LUNARCRUSH_API_KEY E with
  | None | Some EmptyString => throw "LUNARCRUSH_API_KEY environment variable is required"
  | Some apiKey => mret apiKey
  end.

(** [response.ok] *)
Definition response_ok (response : HttpResponse) : bool :=
  (200 <=? http_status response)%Z && (http_status response <=? 299)%Z.

(** [makeRequest<TopicResponse>(endpoint)], resolving to the [data] of the
    body. *)
Definition makeRequest (endpoint : string) : M (option TopicData) :=
  let url := BASE_URL ++ endpoint in
  n ← count_request;
  try_catch
    (apiKey ← getApiKey;
     match fetch E n url with
     | FetchThrows e => throw e
     | FetchReturns response =>
         if negb (response_ok response) then
           if (http_status response =? 401)%Z then
             throw "Invalid API key - check your LunarCrush credentials"
           else if (http_status response =? 429)%Z then
             throw "Rate limit exceeded - upgrade your plan or try again later"
           else if (500 <=? http_status response)%Z then
             throw "LunarCrush API is temporarily unavailable"
           else
             throw ("LunarCrush API Error: " ++ pretty (http_status response) ++ " "
                    ++ http_statusText response)
         else
           match http_json response with
           | inl e => throw e
           | inr data => mret data
           end
     end)
    (fun error => throw error).

Definition fetchTopicData (symbol : string) : M TopicData :=
  try_catch
    (response ← makeRequest ("/topic/" ++ symbol ++ "/v1");
     match response with
     | None => throw ("No topic data returned for " ++ symbol)
     | Some data =>
         mret {| num_posts := Some (or_zero (num_posts data));
                 interactions_24h := Some (or_zero (interactions_24h data));
                 num_contributors := Some (or_zero (num_contributors data)) |}
     end)
    (fun _ =>
       mret {| num_posts := Some 0; interactions_24h := Some 0; num_contributors := Some 0 |}).

Definition getSocialMetrics (coin : TopCoin) : M SocialMetrics :=
  try_catch
    (topicData ← fetchTopicData (coin_symbol coin);
     now ← Date_now;
     mret {| sm_symbol := coin_symbol coin;
             mentions := or_zero (num_posts topicData);
             interactions := or_zero (interactions_24h topicData);
             creators := or_zero (num_contributors topicData);
             altRank := coin_altRank coin;
             galaxyScore := coin_galaxyScore coin;
             timestamp := now |})
    (fun error => throw error).

(** ** gemini.ts *)

Definition getGeminiClient : M unit :=
  match GOOGLE_GEMINI_API_KEY E with
  | None | Some EmptyString => throw "GOOGLE_GEMINI_API_KEY environment variable is required"
  | Some _ => mret tt
  end.

(** [model.generateContent(prompt)], [result.response], [response.text()];
    [None] is an answer that is not a string. *)
Definition model_generateContent (prompt : string) : M (option string) := fun w =>
  let w1 := set_n_gemini_calls (S (n_gemini_calls w)) w in
  match generateContent E (n_gemini_calls w) prompt with
  | GeminiThrows e => (Throw e, w1)
  | GeminiText analysis => (Ok (Some analysis), w1)
  | GeminiNotText => (Ok None, w1)
  end.

Definition createAnalysisPrompt (symbol : string) (current : SocialMetrics)
    (historical : option (list SocialMetrics)) : string :=
  let historicalContext :=
    match historical with
    | Some ((_ :: _) as historical) =>
        nl ++ nl ++ "Historical Context (last " ++ pretty (length historical) ++ " data points):" ++ nl
        ++ join "" (imap (fun i h =>
             nl ++ pretty (i + 1)%nat ++ ". mentions: " ++ toLocaleString E (mentions h)
             ++ ", interactions: " ++ toLocaleString E (interactions h)
             ++ ", creators: " ++ toLocaleString E (creators h)
             ++ ", altRank: " ++ pretty (altRank h)) historical)
    | _ => ""
    end in
  "Analyze " ++ symbol ++ " social metrics and generate a trading signal." ++ nl
  ++ nl
  ++ "Metrics:" ++ nl
  ++ "- Mentions: " ++ toLocaleString E (mentions current)
  ++ " | Interactions: " ++ toLocaleString E (interactions current)
  ++ " | Creators: " ++ toLocaleString E (creators current) ++ nl
  ++ "- AltRank: " ++ pretty (altRank current) ++ " (lower=better) | Galaxy Score: "
  ++ pretty (galaxyScore current) ++ "/100" ++ historicalContext ++ nl
  ++ nl
  ++ "Respond in EXACT format:" ++ nl
  ++ "SIGNAL: [BUY/SELL/HOLD]" ++ nl
  ++ "CONFIDENCE: [0-100]" ++ nl
  ++ "REASONING: [1-2 sentences on key factors]".

Definition engagementRatio (metrics : SocialMetrics) : Q :=
  (inject_Z (interactions metrics) / inject_Z (Z.max (mentions metrics) 1))%Q.

(** [[isHighEngagement, isGoodRank, isHealthy, hasGoodCreators].filter(Boolean).length] *)
Definition positiveSignals (metrics : SocialMetrics) : Z :=
  let isHighEngagement := negb (Qle_bool (engagementRatio metrics) 100) in
  let isGoodRank := (altRank metrics <? 100)%Z in
  let isHealthy := (70 <? galaxyScore metrics)%Z in
  let hasGoodCreators := (1000 <? creators metrics)%Z in
  Z.of_nat (length (filter (fun b : bool => b = true)
                           [isHighEngagement; isGoodRank; isHealthy; hasGoodCreators])).

Definition createFallbackSignal (symbol : string) (metrics : SocialMetrics) : M TradingSignal :=
  let n := positiveSignals metrics in
  let '(signal, confidence, reasoning) :=
    if (3 <=? n)%Z then
      (BUY, 60 + n * 10,
       "Strong social signals: " ++ pretty n ++ "/4 indicators positive. High engagement ratio ("
       ++ toFixed1 (engagementRatio metrics) ++ "), AltRank " ++ pretty (altRank metrics) ++ ", "
       ++ toLocaleString E (creators metrics) ++ " creators.")
    else if (n <=? 1)%Z then
      (SELL, 60,
       "Weak social signals: only " ++ pretty n
       ++ "/4 indicators positive. Low engagement or poor rankings.")
    else
      (HOLD, 50, "Fallback analysis based on social metrics") in
  now ← Date_now;
  created ← new_Date_toISOString;
  mret {| sig_id := symbol ++ "-" ++ pretty now;
          sig_symbol := symbol;
          signal := signal;
          confidence := confidence;
          reasoning := reasoning;
          metrics := metrics;
          createdAt := created |}.

Definition parseSignalResponse (aiResponse : option string) (symbol : string)
    (metrics : SocialMetrics) : M TradingSignal :=
  try_catch
    (match aiResponse with
     | None => throw "TypeError: aiResponse.match is not a function"
     | Some aiResponse =>
         let signalMatch := match_SIGNAL aiResponse in
         let confidenceMatch := match_CONFIDENCE aiResponse in
         let reasoningMatch := match_REASONING aiResponse in
         let signal := default HOLD signalMatch in
         let confidence := parseInt (default "50" confidenceMatch) in
         let reasoning :=
           match trim <$> reasoningMatch with
           | None | Some EmptyString => "Analysis based on social metrics"
           | Some text => text
           end in
         now ← Date_now;
         created ← new_Date_toISOString;
         mret {| sig_id := symbol ++ "-" ++ pretty now;
                 sig_symbol := symbol;
                 signal := signal;
                 confidence := Z.max 0 (Z.min 100 confidence);
                 reasoning := reasoning;
                 metrics := metrics;
                 createdAt := created |}
     end)
    (fun _ => createFallbackSignal symbol metrics).

Definition generateTradingSignal (symbol : string) (currentMetrics : SocialMetrics)
    (historicalMetrics : option (list SocialMetrics)) : M TradingSignal :=
  try_catch
    (getGeminiClient;;
     let prompt := createAnalysisPrompt symbol currentMetrics historicalMetrics in
     analysis ← model_generateContent prompt;
     parseSignalResponse analysis symbol currentMetrics)
    (fun _ => createFallbackSignal symbol currentMetrics).

(** ** telegram.ts *)

Definition sendTelegramMessage (text : string) : M bool := fun w =>
  if telegram_configured E then
    let w1 := set_n_telegram (S (n_telegram w)) w in
    match telegram_fetch E (n_telegram w) text with
    | TelegramThrows => (Ok false, w1)
    | TelegramReplied ok => (Ok ok, w1)
    end
  else (Ok false, w).

Definition sendSignalAlert (s : TradingSignal) : M bool :=
  let emoji :=
    match signal s with
    | BUY => bytes [240; 159; 159; 162]%nat
    | SELL => bytes [240; 159; 148; 180]%nat
    | HOLD => bytes [226; 154; 170]%nat
    end in
  let bullet := bytes [226; 128; 162]%nat in
  let message :=
    nl ++ emoji ++ " <b>" ++ SignalType_to_string (signal s) ++ " SIGNAL: " ++ sig_symbol s ++ "</b>" ++ nl
    ++ nl
    ++ "<b>Confidence:</b> " ++ pretty (confidence s) ++ "%" ++ nl
    ++ "<b>Reasoning:</b> " ++ reasoning s ++ nl
    ++ nl
    ++ "<b>Metrics:</b>" ++ nl
    ++ bullet ++ " AltRank: " ++ pretty (altRank (metrics s)) ++ nl
    ++ bullet ++ " Galaxy Score: " ++ pretty (galaxyScore (metrics s)) ++ nl
    ++ bullet ++ " Mentions: " ++ pretty (mentions (metrics s)) ++ nl
    ++ nl
    ++ "#" ++ sig_symbol s ++ " #Crypto #TradingSignal" ++ nl in
  sendTelegramMessage message.

(** ** signal-analysis.ts *)

(** An element of [socialMetrics], the output of the selection step. *)
Record Selected := {
  sel_symbol : string;
  sel_metrics : SocialMetrics;
  sel_success : bool
}.

(** An element of [saveResults]. *)
Record SaveResult := {
  save_symbol : string;
  save_success : bool
}.

Record TopSignal := {
  top_symbol : string;
  top_signal : SignalType;
  top_confidence : Z;
  top_altRank : Z
}.

Record Summary := {
  totalAnalyzed : Z;
  highConfidence : Z;
  distribution_BUY : Z;
  distribution_SELL : Z;
  distribution_HOLD : Z;
  topSignals : list TopSignal
}.

(** What the workflow function returns. *)
Record WorkflowResult := {
  res_success : bool;
  res_jobId : string;
  res_duration : Z;
  res_symbolsAnalyzed : Z;
  res_summary : Summary
}.

(** [Promise.all]: the promises were all started, in the order of the list,
    and every one of them runs to its end; the answer is the list of their
    values, or the first rejection. *)
Fixpoint Promise_all {A} (promises : list (M A)) : M (list A) := fun w =>
  match promises with
  | [] => (Ok [], w)
  | p :: ps =>
      let '(r, w1) := p w in
      let '(rs, w2) := Promise_all ps w1 in
      (match r, rs with
       | Ok a, Ok vs => Ok (a :: vs)
       | Throw e, _ => Throw e
       | Ok _, Throw e => Throw e
       end, w2)
  end.

(** [xs.sort(compare)]: the sort of an array is stable, and [compare] is
    consistent here, so the outcome is the one of a stable insertion sort. *)
Fixpoint sort_insert {A} (compare : A -> A -> Z) (x : A) (sorted : list A) : list A :=
  match sorted with
  | [] => [x]
  | y :: ys => if (0 <? compare x y)%Z then y :: sort_insert compare x ys else x :: y :: ys
  end.

Definition Array_sort {A} (compare : A -> A -> Z) (xs : list A) : list A :=
  foldr (sort_insert compare) [] xs.

Definition updateProgress (jobId : string) (stepNumber : Z) (stepName stepMessage : string)
    (status : string) : M unit :=
  let progressPercentage := Math_round ((inject_Z stepNumber / 7) * 100)%Q in
  updated ← new_Date_toISOString;
  let updateData :=
    {| p_current_step := Some stepName;
       p_step_message := Some stepMessage;
       p_progress_percentage := Some progressPercentage;
       p_status := Some status;
       p_updated_at := Some updated;
       p_signals_generated := None;
       p_alerts_generated := None;
       p_duration_ms := None;
       p_completed_at := None |} in
  try_catch
    (error ← analysis_jobs_update updateData jobId;
     mret tt)
    (fun _ => mret tt).

(** Step 1, [initialize-job] *)
Definition initialize_job (ev : EventData) (jobId : string) : M string :=
  started ← new_Date_toISOString;
  updated ← new_Date_toISOString;
  let jobData :=
    {| job_id := jobId;
       status := "started";
       current_step := "Initializing Analysis";
       step_message := "Setting up trading analysis pipeline...";
       progress_percentage := 14;
       event_data := ev;
       started_at := started;
       updated_at := updated;
       signals_generated := None;
       alerts_generated := None;
       duration_ms := None;
       completed_at := None |} in
  error ← analysis_jobs_insert jobData;
  match error with
  | Some e => throw e
  | None => mret jobId
  end.

(** the completeness test of the selection loop *)
Definition has_real_data (metrics : SocialMetrics) : bool :=
  (0 <? mentions metrics)%Z || (0 <? interactions metrics)%Z || (0 <? creators metrics)%Z.

(** The loop [for (const coin of candidateCoins)] of the selection step;
    [results] is the array as the iteration finds it. *)
Fixpoint select_loop (jobId : string) (candidateCoins : list TopCoin)
    (results : list Selected) : M (list Selected) :=
  match candidateCoins with
  | [] => mret results
  | coin :: rest =>
      if (3 <=? length results)%nat then mret results
      else
        results ← try_catch
          (updateProgress jobId 2 "Testing Coin Data"
             ("Checking " ++ coin_symbol coin ++ " (" ++ pretty (length results + 1)%nat ++ "/3 found)...")
             "started";;
           metrics ← getSocialMetrics coin;
           if has_real_data metrics
           then mret (results ++ [{| sel_symbol := coin_symbol coin; sel_metrics := metrics; sel_success := true |}])%list
           else mret results)
          (fun _ => mret results);
        select_loop jobId rest results
  end.

(** Steps 2 and 3, [select-and-fetch-data] *)
Definition select_and_fetch_data (ev : EventData) (jobId : string) : M (list Selected) :=
  updateProgress jobId 2 "Selecting Best Coins"
    "Testing top 10 candidates for complete social data..." "started";;
  let candidateCoins := default [] (ev_topCoins ev) in
  if (length candidateCoins =? 0)%nat then throw "No candidate coins provided"
  else
    results ← select_loop jobId candidateCoins [];
    if (length results =? 0)%nat then throw "No coins with complete social data found in top 10"
    else
      let selectedSymbols := join ", " (map sel_symbol results) in
      updateProgress jobId 3 "Selection Complete"
        ("Selected " ++ pretty (length results) ++ " coins with complete metrics: " ++ selectedSymbols)
        "started";;
      mret results.

(** The fan-out of step 4 over a scoring capability:
    [items.map(r => scoreOne(r).catch(() => null))], [Promise.all], and the
    filter that drops the [null]s. *)
Definition fan_out (scoreOne : Selected -> M TradingSignal) (items : list Selected)
    : M (list TradingSignal) :=
  let signalPromises :=
    map (fun result => try_catch (s ← scoreOne result; mret (Some s)) (fun _ => mret None)) items in
  settled ← Promise_all signalPromises;
  mret (omap (fun s : option TradingSignal => s) settled).

(** Step 4, [generate-ai-signals] *)
Definition generate_ai_signals (jobId : string) (socialMetrics : list Selected)
    : M (list TradingSignal) :=
  updateProgress jobId 4 "AI Signal Generation"
    "Google Gemini analyzing all coins in parallel..." "started";;
  let successfulMetrics := filter (fun result => sel_success result = true) socialMetrics in
  signals ← fan_out (fun result => generateTradingSignal (sel_symbol result) (sel_metrics result) None)
                    successfulMetrics;
  updateProgress jobId 4 "AI Analysis Complete"
    ("Generated " ++ pretty (length signals) ++ " trading signals with confidence scores") "started";;
  mret signals.

(** The loop of step 5; [i] counts from 0.  The source pushes the successful
    entry before it awaits the progress update, inside the same [try]: a
    throw after the push would find the array already extended. *)
Fixpoint save_loop (jobId : string) (total : nat) (i : nat) (signals : list TradingSignal)
    (saveResults : list SaveResult) : M (list SaveResult) :=
  match signals with
  | [] => mret saveResults
  | s :: rest =>
      saveResults ← try_catch
        (error ← trading_signals_insert s;
         match error with
         | Some e => throw e
         | None =>
             let pushed := (saveResults ++ [{| save_symbol := sig_symbol s; save_success := true |}])%list in
             try_catch
               (updateProgress jobId 5 "Saving Results"
                  ("Saved " ++ pretty (i + 1)%nat ++ "/" ++ pretty total ++ " signals to database...")
                  "started";;
                mret pushed)
               (fun _ => mret (pushed ++ [{| save_symbol := sig_symbol s; save_success := false |}])%list)
         end)
        (fun _ => mret (saveResults ++ [{| save_symbol := sig_symbol s; save_success := false |}])%list);
      save_loop jobId total (S i) rest saveResults
  end.

(** Step 5, [save-to-database] *)
Definition save_to_database (jobId : string) (tradingSignals : list TradingSignal)
    : M (list SaveResult) :=
  updateProgress jobId 5 "Saving Results"
    ("Storing " ++ pretty (length tradingSignals) ++ " trading signals in database...") "started";;
  save_loop jobId (length tradingSignals) 0 tradingSignals [].

(** The summary object of step 6 (lines 249-272), with the array
    [tradingSignals] as the step leaves it: [sort] works in place. *)
Definition summarize (tradingSignals : list TradingSignal) : Summary * list TradingSignal :=
  let highConfidenceSignals := filter (fun s => (70 <= confidence s)%Z) tradingSignals in
  let buySignals := filter (fun s => signal s = BUY) tradingSignals in
  let sellSignals := filter (fun s => signal s = SELL) tradingSignals in
  let holdSignals := filter (fun s => signal s = HOLD) tradingSignals in
  let sorted := Array_sort (fun a b => (confidence b - confidence a)%Z) tradingSignals in
  ({| totalAnalyzed := Z.of_nat (length tradingSignals);
      highConfidence := Z.of_nat (length highConfidenceSignals);
      distribution_BUY := Z.of_nat (length buySignals);
      distribution_SELL := Z.of_nat (length sellSignals);
      distribution_HOLD := Z.of_nat (length holdSignals);
      topSignals :=
        map (fun s => {| top_symbol := sig_symbol s;
                         top_signal := signal s;
                         top_confidence := confidence s;
                         top_altRank := altRank (metrics s) |})
            (take 3 sorted) |},
   sorted).

(** Step 6, [generate-summary]: the summary, and [tradingSignals] after it. *)
Definition generate_summary (jobId : string) (tradingSignals : list TradingSignal)
    : M (Summary * list TradingSignal) :=
  updateProgress jobId 6 "Generating Summary"
    "Creating analysis summary and preparing notifications..." "started";;
  mret (summarize tradingSignals).

(** Step 6.5, [send-notifications] *)
Definition send_notifications (jobId : string) (tradingSignals : list TradingSignal) : M unit :=
  let highConfidenceSignals := filter (fun s => (70 <= confidence s)%Z) tradingSignals in
  if (0 <? length highConfidenceSignals)%nat then
    updateProgress jobId 6 "Sending Notifications"
      ("Sending " ++ pretty (length highConfidenceSignals) ++ " high-confidence alerts to Telegram...")
      "started";;
    results ← Promise_all
      (map (fun s => try_catch (sent ← sendSignalAlert s; mret (Some sent)) (fun _ => mret None))
           highConfidenceSignals);
    let sentCount := length (filter (fun r => r = Some true) results) in
    mret tt
  else mret tt.

(** Step 7, [complete-job] *)
Definition complete_job (jobId : string) (startTime : Z) (tradingSignals : list TradingSignal)
    (summary : Summary) : M unit :=
  now ← Date_now;
  let duration := (now - startTime)%Z in
  updateProgress jobId 7 "Analysis Complete"
    ("Generated " ++ pretty (length tradingSignals) ++ " trading signals.") "completed";;
  try_catch
    (completed ← new_Date_toISOString;
     error ← analysis_jobs_update
       {| p_current_step := None;
          p_step_message := None;
          p_progress_percentage := None;
          p_status := None;
          p_updated_at := None;
          p_signals_generated := Some (Z.of_nat (length tradingSignals));
          p_alerts_generated := Some (highConfidence summary);
          p_duration_ms := Some duration;
          p_completed_at := Some completed |} jobId;
     mret tt)
    (fun _ => mret tt).

(** Steps 5 to 7 on the signals of step 4: the save results, the summary,
    and [tradingSignals] as these steps leave it. *)
Definition persist_and_complete (jobId : string) (startTime : Z)
    (tradingSignals : list TradingSignal)
    : M (list SaveResult * Summary * list TradingSignal) :=
  savedSignals ← save_to_database jobId tradingSignals;
  '(summary, tradingSignals) ← generate_summary jobId tradingSignals;
  send_notifications jobId tradingSignals;;
  complete_job jobId startTime tradingSignals summary;;
  mret (savedSignals, summary, tradingSignals).

Definition signalAnalysisWorkflow (ev : EventData) : M WorkflowResult :=
  startTime ← Date_now;
  match ev_jobId ev with
  | None | Some EmptyString => throw "No job ID provided in event data"
  | Some jobId =>
      initialize_job ev jobId;;
      socialMetrics ← select_and_fetch_data ev jobId;
      tradingSignals ← generate_ai_signals jobId socialMetrics;
      '(savedSignals, summary, tradingSignals) ← persist_and_complete jobId startTime tradingSignals;
      now ← Date_now;
      mret {| res_success := true;
              res_jobId := jobId;
              res_duration := (now - startTime)%Z;
              res_symbolsAnalyzed := Z.of_nat (length tradingSignals);
              res_summary := summary |}
  end.

End Workflow.

(** ** Sample data, for the runs the theorems are checked on *)

Module Demo.

Definition coin (symbol : string) : TopCoin :=
  {| coin_symbol := symbol; coin_name := symbol; coin_altRank := 5; coin_galaxyScore := 80;
     coin_price := 1; coin_marketCap := 1; coin_percentChange24h := 0 |}.

Definition busy : TopicData :=
  {| num_posts := Some 10; interactions_24h := Some 5000; num_contributors := None |}.

Definition reply : string :=
  "SIGNAL: BUY" ++ nl ++ "CONFIDENCE: 90" ++ nl ++ "REASONING: good".

(** Every service answers, except that [DOGE] has no topic data and that
    the second insert into [trading_signals] is refused. *)
Definition env : Capabilities :=
  {| clock := fun n => 1000 + Z.of_nat n;
     toISOString := fun t => "T" ++ pretty t;
     toLocaleString := fun n => pretty n;
     LUNARCRUSH_API_KEY := Some "key";
     fetch := fun _ url =>
       FetchReturns
         {| http_status := 200; http_statusText := "OK";
            http_json := if String.eqb url "https://lunarcrush.com/api4/public/topic/DOGE/v1"
                         then inr None else inr (Some busy) |};
     GOOGLE_GEMINI_API_KEY := Some "key";
     generateContent := fun _ _ => GeminiText reply;
     jobs_op := fun _ => DbOk;
     signals_insert := fun n _ => match n with 1%nat => DbError "refused" | _ => DbOk end;
     telegram_configured := true;
     telegram_fetch := fun _ _ => TelegramReplied true |}.

(** The data provider is down, the model too. *)
Definition env_offline : Capabilities :=
  {| clock := fun n => 1000 + Z.of_nat n;
     toISOString := fun t => "T" ++ pretty t;
     toLocaleString := fun n => pretty n;
     LUNARCRUSH_API_KEY := Some "key";
     fetch := fun _ _ =>
       FetchReturns {| http_status := 503; http_statusText := "Service Unavailable";
                       http_json := inl "Unexpected end of JSON input" |};
     GOOGLE_GEMINI_API_KEY := Some "key";
     generateContent := fun _ _ => GeminiThrows "fetch failed";
     jobs_op := fun _ => DbOk;
     signals_insert := fun _ _ => DbOk;
     telegram_configured := false;
     telegram_fetch := fun _ _ => TelegramThrows |}.

Definition empty_world : World :=
  {| analysis_jobs := ∅; trading_signals := []; job_history := []; n_clock := 0;
     n_topic_requests := 0; n_gemini_calls := 0; n_jobs_ops := 0; n_signal_ops := 0;
     n_telegram := 0 |}.

Definition event (coins : list TopCoin) : EventData :=
  {| ev_jobId := Some "job_1"; ev_topCoins := Some coins; ev_timestamp := 0;
     ev_triggerType := "manual" |}.

Definition some_metrics : SocialMetrics :=
  {| sm_symbol := "BTC"; mentions := 10; interactions := 5000; creators := 0;
     altRank := 5; galaxyScore := 80; timestamp := 0 |}.

Definition scored (symbol : string) (c : Z) : TradingSignal :=
  {| sig_id := symbol ++ "-0"; sig_symbol := symbol; signal := BUY; confidence := c;
     reasoning := "good"; metrics := some_metrics; createdAt := "T0" |}.

(** A job row as step 6 leaves it. *)
Definition running_job : JobRow :=
  {| job_id := "job_1"; status := "started"; current_step := "Generating Summary";
     step_message := "Creating analysis summary and preparing notifications...";
     progress_percentage := 86; event_data := event []; started_at := "T0"; updated_at := "T1";
     signals_generated := None; alerts_generated := None; duration_ms := None;
     completed_at := None |}.

(** The same job, completed. *)
Definition completed_job : JobRow :=
  {| job_id := "job_1"; status := "completed"; current_step := "Analysis Complete";
     step_message := "Generated 3 trading signals."; progress_percentage := 100;
     event_data := event []; started_at := "T0"; updated_at := "T1";
     signals_generated := Some 3; alerts_generated := Some 3; duration_ms := Some 26;
     completed_at := Some "T2" |}.

Definition world_with (row : JobRow) : World :=
  {| analysis_jobs := {[ job_id row := row ]}; trading_signals := []; job_history := [];
     n_clock := 0; n_topic_requests := 0; n_gemini_calls := 0; n_jobs_ops := 0;
     n_signal_ops := 0; n_telegram := 0 |}.

End Demo.

(** ** Vocabulary of the properties *)

(** [steps R m]: every run of [m] takes the world along [R]. *)
Definition steps {A} (R : World -> World -> Prop) (m : M A) : Prop :=
  forall w r w', m w = (r, w') -> R w w'.

(** [returns m]: [m] never throws. *)
Definition returns {A} (m : M A) : Prop :=
  forall w, exists a w', m w = (Ok a, w').

(** Nothing but the table [analysis_jobs] and the clock is touched. *)
Definition jobs_only (w w' : World) : Prop :=
  trading_signals w' = trading_signals w /\ n_topic_requests w' = n_topic_requests w /\
  n_gemini_calls w' = n_gemini_calls w /\ n_signal_ops w' = n_signal_ops w /\
  n_telegram w' = n_telegram w.

(** The table [analysis_jobs] is not touched. *)
Definition quiet (w w' : World) : Prop :=
  analysis_jobs w' = analysis_jobs w /\ job_history w' = job_history w.

(** The writes [analysis_jobs] took between two worlds satisfy [P]. *)
Definition writes (P : list JobWrite -> Prop) (w w' : World) : Prop :=
  exists ws, job_history w' = (job_history w ++ ws)%list /\ P ws.

(** The percentage [updateProgress] computes for a step number. *)
Definition step_percentage (stepNumber : Z) : Z :=
  Math_round ((inject_Z stepNumber / 7) * 100)%Q.

(** A write of one of the steps that run before the job completes: it
    carries the percentage of a step number and the status [started]. *)
Definition phase_write (lo hi : Z) (jw : JobWrite) : Prop :=
  exists p k, written_progress jw = Some p /\ (lo <= p <= hi)%Z /\ (1 <= k <= 7)%Z /\
              p = step_percentage k /\ written_status jw = Some "started".

Definition in_phase (lo hi : Z) (ws : list JobWrite) : Prop :=
  Sorted Z.le (omap written_progress ws) /\ Forall (phase_write lo hi) ws.

Definition phase (lo hi : Z) : World -> World -> Prop := writes (in_phase lo hi).

(** What [updateProgress] leaves in the table: nothing, or one update. *)
Definition progress_update (stepNumber : Z) (st : string) (ws : list JobWrite) : Prop :=
  ws = [] \/
  exists id patch, ws = [JobUpdated id patch] /\
    p_progress_percentage patch = Some (step_percentage stepNumber) /\
    p_status patch = Some st.

(** What the final statistics leave in the table: nothing, or one update
    that names neither the status nor the percentage. *)
Definition statistics_update (ws : list JobWrite) : Prop :=
  ws = [] \/
  exists id patch, ws = [JobUpdated id patch] /\
    p_progress_percentage patch = None /\ p_status patch = None.

(** The writes of step 7. *)
Definition completion (ws : list JobWrite) : Prop :=
  exists a b, ws = (a ++ b)%list /\ progress_update 7 "completed" a /\ statistics_update b.

(** The writes of a run from a step on: steps that report progress, then
    possibly the completion. *)
Definition run_shape (lo : Z) (ws : list JobWrite) : Prop :=
  exists pre fin, ws = (pre ++ fin)%list /\ in_phase lo 86 pre /\ completion fin.

(** The model call of [generateTradingSignal] in the world [w] yields no
    text: the key is missing, or the call throws, or its answer is not a
    string. *)
Definition ai_fails (E : Capabilities) (symbol : string) (metrics : SocialMetrics)
    (historical : option (list SocialMetrics)) (w : World) : Prop :=
  GOOGLE_GEMINI_API_KEY E = None \/ GOOGLE_GEMINI_API_KEY E = Some "" \/
  forall text,
    generateContent E (n_gemini_calls w) (createAnalysisPrompt E symbol metrics historical)
    <> GeminiText text.

(** The rule of the fallback signal, on the number [n] of positive
    indicators among the four. *)
Definition fallback_rule (metrics : SocialMetrics) (s : TradingSignal) : Prop :=
  let n := positiveSignals metrics in
  (0 <= n <= 4)%Z /\
  ((3 <= n)%Z -> signal s = BUY /\ confidence s = (60 + 10 * n)%Z) /\
  ((n <= 1)%Z -> signal s = SELL /\ confidence s = 60%Z) /\
  (n = 2%Z -> signal s = HOLD /\ confidence s = 50%Z).

(** The three counters of a metrics record. *)
Definition counters (m : SocialMetrics) : Z * Z * Z :=
  (mentions m, interactions m, creators m).

(** The completeness predicate on the counters: one of them is positive. *)
Definition complete (c : Z * Z * Z) : bool :=
  let '(posts, interacts, contributors) := c in
  (0 <? posts)%Z || (0 <? interacts)%Z || (0 <? contributors)%Z.

(** The data object that the call number [n] of [makeRequest] gets for the
    topic of [symbol], when it gets one: the key is set, [fetch] resolves,
    the status is ok, the body is JSON and it has a [data]. *)
Definition topic_data (E : Capabilities) (n : nat) (symbol : string) : option TopicData :=
  match LUNARCRUSH_API_KEY E with
  | None | Some EmptyString => None
  | Some _ =>
      match fetch E n (BASE_URL ++ "/topic/" ++ symbol ++ "/v1") with
      | FetchReturns response =>
          if response_ok response then
            match http_json response with
            | inr (Some data) => Some data
            | _ => None
            end
          else None
      | FetchThrows _ => None
      end
  end.

(** The topic request fails: a network error, a timeout, a refusal, or an
    answer with no data object. *)
Definition topic_fails (E : Capabilities) (n : nat) (symbol : string) : Prop :=
  topic_data E n symbol = None.

(** The counters the call number [n] stands for. *)
Definition topic_counters (E : Capabilities) (n : nat) (symbol : string) : Z * Z * Z :=
  match topic_data E n symbol with
  | Some data =>
      (or_zero (num_posts data), or_zero (interactions_24h data), or_zero (num_contributors data))
  | None => (0, 0, 0)%Z
  end.

(** What the requests number [n], [n+1], ... report for the candidates,
    taken in order: the symbol and the counters. *)
Fixpoint observations (E : Capabilities) (n : nat) (coins : list TopCoin)
    : list (string * (Z * Z * Z)) :=
  match coins with
  | [] => []
  | coin :: rest =>
      (coin_symbol coin, topic_counters E n (coin_symbol coin))
      :: observations E (S n) rest
  end.

Definition is_complete (o : string * (Z * Z * Z)) : Prop := complete (snd o) = true.

#[global] Instance is_complete_dec o : Decision (is_complete o).
Proof. unfold is_complete. apply _. Defined.

(** The symbol and the counters of a selected item. *)
Definition observed (r : Selected) : string * (Z * Z * Z) :=
  (sel_symbol r, counters (sel_metrics r)).

(** The outcomes of a scoring capability over the items, in the order of
    the list, each invocation started in the world the previous one left. *)
Fixpoint settled (scoreOne : Selected -> M TradingSignal) (items : list Selected) (w : World)
    : list (Result TradingSignal) :=
  match items with
  | [] => []
  | item :: rest => let '(r, w1) := scoreOne item w in r :: settled scoreOne rest w1
  end.

Definition value_of {A} (r : Result A) : option A :=
  match r with
  | Ok a => Some a
  | Throw _ => None
  end.

Definition has_failed {A} (r : Result A) : Prop := value_of r = None.

#[global] Instance has_failed_dec {A} (r : Result A) : Decision (has_failed r).
Proof. unfold has_failed. destruct r; simpl; [right; discriminate | left; reflexivity]. Defined.

(** The number of failed invocations. *)
Definition failures {A} (rs : list (Result A)) : nat :=
  length (filter has_failed rs).

(** The comparator of the summary step, [(a, b) => b.confidence - a.confidence]. *)
Definition by_confidence (a b : TradingSignal) : Z := (confidence b - confidence a)%Z.

(** [b] may follow [a] in an array sorted by confidence, descending. *)
Definition confidence_ge (a b : TradingSignal) : Prop := (confidence b <= confidence a)%Z.

Definition top_of (s : TradingSignal) : TopSignal :=
  {| top_symbol := sig_symbol s; top_signal := signal s; top_confidence := confidence s;
     top_altRank := altRank (metrics s) |}.

(** The insert number [n] into [trading_signals] stores the signal. *)
Definition insert_succeeds (E : Capabilities) (n : nat) (s : TradingSignal) : bool :=
  match signals_insert E n s with
  | DbOk => true
  | _ => false
  end.

(** The flags the save loop reports when its first insert is number [n]. *)
Fixpoint save_flags (E : Capabilities) (n : nat) (signals : list TradingSignal) : list SaveResult :=
  match signals with
  | [] => []
  | s :: rest =>
      {| save_symbol := sig_symbol s; save_success := insert_succeeds E n s |}
      :: save_flags E (S n) rest
  end.

(** The job has its row, and keeps it. *)
Definition has_job (jobId : string) (w : World) : Prop := is_Some (analysis_jobs w !! jobId).

Definition job_kept (jobId : string) (w w' : World) : Prop := has_job jobId w -> has_job jobId w'.

(** The signals the save loop stores when its first insert is number [n]. *)
Fixpoint stored_signals (E : Capabilities) (n : nat) (signals : list TradingSignal)
    : list TradingSignal :=
  match signals with
  | [] => []
  | s :: rest =>
      ((if insert_succeeds E n s then [s] else []) ++ stored_signals E (S n) rest)%list
  end.

(** A selected item as the selection loop builds it from a candidate of
    [coins]: flagged as a success, with metrics that pass the completeness
    test, under the candidate's symbol, rank and score. *)
Definition selected_from (coins : list TopCoin) (r : Selected) : Prop :=
  sel_success r = true /\
  has_real_data (sel_metrics r) = true /\
  sm_symbol (sel_metrics r) = sel_symbol r /\
  exists coin, coin ∈ coins /\ sel_symbol r = coin_symbol coin /\
               altRank (sel_metrics r) = coin_altRank coin /\
               galaxyScore (sel_metrics r) = coin_galaxyScore coin.

(** Nothing was scored, stored or notified between two worlds. *)
Definition nothing_scored (w w' : World) : Prop :=
  trading_signals w' = trading_signals w /\ n_gemini_calls w' = n_gemini_calls w /\
  n_signal_ops w' = n_signal_ops w /\ n_telegram w' = n_telegram w.

(** The row of the job [id], or its absence, is the same in two worlds. *)
Definition row_untouched (id : string) (w w' : World) : Prop :=
  analysis_jobs w' !! id = analysis_jobs w !! id.

(** [trading_signals] only grew, at its end. *)
Definition signals_appended (w w' : World) : Prop :=
  trading_signals w `prefix_of` trading_signals w'.

(** Two worlds that differ at most in the table [analysis_jobs] and in the
    record of its writes. *)
Definition outside_jobs (w1 w2 : World) : Prop :=
  trading_signals w1 = trading_signals w2 /\ n_clock w1 = n_clock w2 /\
  n_topic_requests w1 = n_topic_requests w2 /\ n_gemini_calls w1 = n_gemini_calls w2 /\
  n_jobs_ops w1 = n_jobs_ops w2 /\ n_signal_ops w1 = n_signal_ops w2 /\
  n_telegram w1 = n_telegram w2.

(** Two computations that, from such worlds, give the same result and lead
    to such worlds again. *)
Definition alike {A} (m1 m2 : M A) : Prop :=
  forall w1 w2, outside_jobs w1 w2 ->
    fst (m1 w1) = fst (m2 w2) /\ outside_jobs (snd (m1 w1)) (snd (m2 w2)).

(** The same services, with other answers of the job table. *)
Definition with_jobs_op (answers : nat -> DbOutcome) (E : Capabilities) : Capabilities :=
  {| clock := clock E;
     toISOString := toISOString E;
     toLocaleString := toLocaleString E;
     LUNARCRUSH_API_KEY := LUNARCRUSH_API_KEY E;
     fetch := fetch E;
     GOOGLE_GEMINI_API_KEY := GOOGLE_GEMINI_API_KEY E;
     generateContent := generateContent E;
     jobs_op := answers;
     signals_insert := signals_insert E;
     telegram_configured := telegram_configured E;
     telegram_fetch := telegram_fetch E |}.

(** The workflow from its second step on, once the job record exists. *)
Definition after_initialization (E : Capabilities) (ev : EventData) (jobId : string)
    (startTime : Z) : M WorkflowResult :=
  socialMetrics ← select_and_fetch_data E ev jobId;
  tradingSignals ← generate_ai_signals E jobId socialMetrics;
  '(savedSignals, summary, tradingSignals) ← persist_and_complete E jobId startTime tradingSignals;
  now ← Date_now E;
  mret {| res_success := true;
          res_jobId := jobId;
          res_duration := (now - startTime)%Z;
          res_symbolsAnalyzed := Z.of_nat (length tradingSignals);
          res_summary := summary |}.

(** ** The rest of the libraries, and the routes *)

(** A row of [data] in a [/coins/list/v1] response ([CoinsListResponse]). *)
Record CoinRow := {
  row_symbol : string;
  row_name : string;
  row_alt_rank : Z;
  row_galaxy_score : Z;
  row_price : Q;
  row_market_cap : Q;
  row_percent_change_24h : Q
}.

(** What a read of the table [trading_signals] does: the call rejects, or
    it resolves to [{ error }], or to [{ data }], where [data] may be
    [null]. *)
Inductive SelectOutcome (A : Type) :=
| SelectThrows (message : string)
| SelectError (message : string)
| SelectData (data : option (list A)).
Arguments SelectThrows {A} message.
Arguments SelectError {A} message.
Arguments SelectData {A} data.

(** The services the workflow does not call. *)
Record Services := {
  (* response.json() of a coins list request: it throws, or yields the
     body, whose [data] may be missing *)
  coins_json : nat -> string -> string + option (list CoinRow);
  toUpperCase : string -> string;                 (* s.toUpperCase() *)
  (* .select('metrics').eq('symbol', s).order(...).limit(n) *)
  select_metrics : nat -> string -> Z -> SelectOutcome SocialMetrics;
  (* .select('*').order(...).limit(n) *)
  select_latest : nat -> Z -> SelectOutcome TradingSignal;
  signals_delete : nat -> DbOutcome;              (* .delete().neq('id', '') *)
  request_json : option string;                   (* request.json() throws, or not *)
  Math_random : string;                           (* Math.random().toString(36).substr(2, 9) *)
  inngest_send : EventData -> string + string     (* inngest.send throws, or yields the event id *)
}.

(** [s.includes(searchString)] *)
Definition includes (searchString s : string) : bool :=
  match search (strip_prefix searchString) s with
  | Some _ => true
  | None => false
  end.

Definition double_quote : string := String (ascii_of_nat 34) EmptyString.

(** [makeRequest<T>(endpoint)] at a body type [T]; [json] is what
    [response.json()] does. *)
Definition makeRequest_as {T} (E : Capabilities)
    (json : nat -> string -> HttpResponse -> string + T) (endpoint : string) : M T :=
  let url := BASE_URL ++ endpoint in
  n ← count_request;
  try_catch
    (apiKey ← getApiKey E;
     match fetch E n url with
     | FetchThrows e => throw e
     | FetchReturns response =>
         if negb (response_ok response) then
           if (http_status response =? 401)%Z then
             throw "Invalid API key - check your LunarCrush credentials"
           else if (http_status response =? 429)%Z then
             throw "Rate limit exceeded - upgrade your plan or try again later"
           else if (500 <=? http_status response)%Z then
             throw "LunarCrush API is temporarily unavailable"
           else
             throw ("LunarCrush API Error: " ++ pretty (http_status response) ++ " "
                    ++ http_statusText response)
         else
           match json n url response with
           | inl e => throw e
           | inr body => mret body
           end
     end)
    (fun error => throw error).

Section Libraries.

Context (E : Capabilities) (S : Services).

(** *** lunarcrush.ts *)

Definition getTopCoinsByAltRank (limit : Z) : M (list TopCoin) :=
  response ← makeRequest_as E (fun n url _ => coins_json S n url)
               ("/coins/list/v1?limit=" ++ pretty limit ++ "&sort=alt_rank");
  match response with
  | None => throw "TypeError: Cannot read properties of undefined (reading 'map')"
  | Some data =>
      mret (map (fun coin =>
                   {| coin_symbol := toUpperCase S (row_symbol coin);
                      coin_name := row_name coin;
                      coin_altRank := row_alt_rank coin;
                      coin_galaxyScore := row_galaxy_score coin;
                      coin_price := row_price coin;
                      coin_marketCap := row_market_cap coin;
                      coin_percentChange24h := row_percent_change_24h coin |}) data)
  end.

Definition testLunarCrushIntegration : M bool :=
  try_catch
    (topCoins ← getTopCoinsByAltRank 5;
     match topCoins with
     | [] => mret false
     | testCoin :: _ =>
         metrics ← getSocialMetrics E testCoin;
         let hasCoinsData := (0 <? altRank metrics)%Z && (0 <? galaxyScore metrics)%Z in
         let hasTopicData := (0 <? mentions metrics)%Z && (0 <? interactions metrics)%Z in
         if hasCoinsData && hasTopicData then mret true else mret false
     end)
    (fun _ => mret false).

(** *** gemini.ts *)

Definition testGeminiConnection : M bool :=
  try_catch
    (getGeminiClient E;;
     text ← model_generateContent E
              ("Hello, this is a test. Please respond with " ++ double_quote
               ++ "Connection successful!" ++ double_quote);
     match text with
     | None => throw "TypeError: text.includes is not a function"
     | Some text =>
         mret (includes "successful" text || includes "working" text
               || (0 <? String.length text)%nat)
     end)
    (fun _ => mret false).

(** *** signal-generator.ts *)

(** A read of [trading_signals], resolving to [{ data, error }]. *)
Definition trading_signals_select {A} (answer : nat -> SelectOutcome A) :
    M (option (list A) * option string) := fun w =>
  let w1 := set_n_signal_ops (Datatypes.S (n_signal_ops w)) w in
  match answer (n_signal_ops w) with
  | SelectThrows e => (Throw e, w1)
  | SelectError e => (Ok (None, Some e), w1)
  | SelectData data => (Ok (data, None), w1)
  end.

Definition getHistoricalMetrics (symbol : string) (limit : Z) : M (list SocialMetrics) :=
  try_catch
    ('(data, error) ← trading_signals_select
                        (fun n => select_metrics S n (toUpperCase S symbol) limit);
     match error with
     | Some _ => mret []
     | None => mret (default [] data)
     end)
    (fun _ => mret []).

Definition saveSignalToDatabase (s : TradingSignal) : M unit :=
  try_catch
    (error ← trading_signals_insert E s;
     match error with
     | Some e => throw e
     | None => mret tt
     end)
    (fun _ => mret tt).

Definition generateSignalForSymbol (symbol : string) : M TradingSignal :=
  try_catch
    (topCoins ← getTopCoinsByAltRank 100;
     match List.find (fun c => String.eqb (coin_symbol c) (toUpperCase S symbol)) topCoins with
     | None =>
         throw ("Symbol " ++ symbol
                ++ " is not in the top 100 coins by AltRank. Only top-ranked coins are supported.")
     | Some coin =>
         currentMetrics ← getSocialMetrics E coin;
         historicalMetrics ← getHistoricalMetrics symbol 5;
         signal ← generateTradingSignal E symbol currentMetrics (Some historicalMetrics);
         saveSignalToDatabase signal;;
         mret signal
     end)
    (fun error => throw error).

Definition getLatestSignals (limit : Z) : M (list TradingSignal) :=
  try_catch
    ('(data, error) ← trading_signals_select (fun n => select_latest S n limit);
     match error with
     | Some e => throw e
     | None => mret (default [] data)
     end)
    (fun _ => mret []).

Definition testDataAggregation : M bool :=
  try_catch
    (topCoins ← getTopCoinsByAltRank 5;
     match topCoins with
     | [] => throw "Failed to fetch top coins"
     | testCoin :: _ =>
         signal ← generateSignalForSymbol (coin_symbol testCoin);
         latestSignals ← getLatestSignals 5;
         mret true
     end)
    (fun _ => mret false).

(** *** signal-analysis.ts: the second function *)

(** [analyzeSingleSymbol], on the [symbol] of [event.data]. *)
Definition analyzeSingleSymbol (symbol : string) : M TradingSignal :=
  generateSignalForSymbol symbol.

End Libraries.

(** *** app/api/trigger/route.ts *)

Module TriggerRoute.

Inductive Body :=
| Queued (jobId eventId : string) (symbols : list string) (message : string)
| Failed (error : string) (details : option string).

(** [NextResponse.json(body, { status })] *)
Record NextResponse := {
  res_status : Z;
  res_body : Body
}.

Definition success (r : NextResponse) : bool :=
  match res_body r with
  | Queued _ _ _ _ => true
  | Failed _ _ => false
  end.

(** [POST(request)]: its response, and the event [inngest.send] took. *)
Definition POST (E : Capabilities) (S : Services) : M (NextResponse * option EventData) :=
  startTime ← Date_now E;
  try_catch
    (match request_json S with
     | Some e => throw e
     | None => mret tt
     end;;
     now ← Date_now E;
     let jobId := "job_" ++ pretty now ++ "_" ++ Math_random S in
     topCoins ← getTopCoinsByAltRank E S 10;
     timestamp ← Date_now E;
     let eventData :=
       {| ev_jobId := Some jobId;
          ev_topCoins := Some topCoins;
          ev_timestamp := timestamp;
          ev_triggerType := "manual" |} in
     match inngest_send S eventData with
     | inl e => throw e
     | inr eventId =>
         Date_now E;;
         mret ({| res_status := 200;
                  res_body := Queued jobId eventId (map coin_symbol topCoins)
                                ("Analysis job queued for top " ++ pretty (length topCoins)
                                 ++ " coins by AltRank") |},
               Some eventData)
     end)
    (fun error =>
       Date_now E;;
       mret ({| res_status := 500;
                res_body := Failed "Failed to queue processing job" (Some error) |},
             None)).

End TriggerRoute.

(** What the scoring of [symbol] on the metrics [m] gives: a signal under
    that symbol and on those metrics, with a confidence from 0 to 100 and
    the id [symbol-<time>]. *)
Definition scored_for (symbol : string) (m : SocialMetrics) (s : TradingSignal) : Prop :=
  sig_symbol s = symbol /\ metrics s = m /\ (0 <= confidence s <= 100)%Z /\
  exists t : Z, sig_id s = symbol ++ "-" ++ pretty t.

(** A signal scored for one of the candidates [coins], on metrics that
    passed the completeness test. *)
Definition scored_candidate (coins : list TopCoin) (s : TradingSignal) : Prop :=
  exists r, selected_from coins r /\ scored_for (sel_symbol r) (sel_metrics r) s.

(** The table [trading_signals] is not touched. *)
Definition rows_kept (w w' : World) : Prop := trading_signals w' = trading_signals w.

(** Sample services: the provider lists two coins, every call answers. *)
Module DemoServices.

Definition row (symbol : string) (rank : Z) : CoinRow :=
  {| row_symbol := symbol; row_name := symbol; row_alt_rank := rank; row_galaxy_score := 80;
     row_price := 1; row_market_cap := 1; row_percent_change_24h := 0 |}.

Definition services : Services :=
  {| coins_json := fun _ _ => inr (Some [row "btc" 1; row "DOGE" 2]);
     toUpperCase := fun s => string_of_list_ascii (map upper (list_ascii_of_string s));
     select_metrics := fun _ _ _ => SelectData (Some [Demo.some_metrics]);
     select_latest := fun _ _ => SelectError "timeout";
     signals_delete := fun _ => DbOk;
     request_json := None;
     Math_random := "k3x9q0z1a";
     inngest_send := fun _ => inr "evt_1" |}.

End DemoServices.

(** The prompt of [testGeminiConnection]. *)
Definition test_prompt : string :=
  "Hello, this is a test. Please respond with " ++ double_quote
  ++ "Connection successful!" ++ double_quote.

(** The string does not go on with a digit. *)
Definition no_digit_ahead (rest : string) : Prop :=
  match rest with
  | String c _ => is_digit c = false
  | EmptyString => True
  end.

(** The first two lines of a reply in the format the prompt asks for,
    followed by [rest]. *)
Definition formatted_reply (s : SignalType) (c : Z) (rest : string) : string :=
  "SIGNAL: " ++ SignalType_to_string s ++ nl ++ "CONFIDENCE: " ++ pretty c ++ rest.
(** The value of a decimal digit. *)
Definition digit_value (c : ascii) : Z := Z.of_nat (nat_of_ascii c) - 48.

(** *** The route that clears the database *)

Definition set_trading_signals (rows : list TradingSignal) (w : World) : World :=
  {| analysis_jobs := analysis_jobs w; trading_signals := rows;
     job_history := job_history w; n_clock := n_clock w;
     n_topic_requests := n_topic_requests w; n_gemini_calls := n_gemini_calls w;
     n_jobs_ops := n_jobs_ops w; n_signal_ops := n_signal_ops w;
     n_telegram := n_telegram w |}.

(** The rows of [analysis_jobs] are replaced; [job_history] lists the
    inserts and the updates, a delete adds nothing to it. *)
Definition set_analysis_jobs (jobs : gmap string JobRow) (w : World) : World :=
  {| analysis_jobs := jobs; trading_signals := trading_signals w;
     job_history := job_history w; n_clock := n_clock w;
     n_topic_requests := n_topic_requests w; n_gemini_calls := n_gemini_calls w;
     n_jobs_ops := n_jobs_ops w; n_signal_ops := n_signal_ops w;
     n_telegram := n_telegram w |}.

Module ClearDatabaseRoute.

(** [NextResponse.json({ success, message | error }, { status })] *)
Record NextResponse := {
  res_status : Z;
  res_success : bool;
  res_message : option string;
  res_error : option string
}.

(** [supabase.from('trading_signals').delete().neq('id', '')], resolving
    to the [error] of the answer: the rows whose id is not the empty string
    go. *)
Definition trading_signals_delete (S : Services) : M (option string) := fun w =>
  let w1 := set_n_signal_ops (Datatypes.S (n_signal_ops w)) w in
  match signals_delete S (n_signal_ops w) with
  | DbOk =>
      (Ok None, set_trading_signals (filter (fun s => sig_id s = "") (trading_signals w)) w1)
  | DbError e => (Ok (Some e), w1)
  | DbThrows e => (Throw e, w1)
  end.

(** [supabase.from('analysis_jobs').delete().neq('id', '')] *)
Definition analysis_jobs_delete (E : Capabilities) : M (option string) := fun w =>
  let w1 := set_n_jobs_ops (Datatypes.S (n_jobs_ops w)) w in
  match jobs_op E (n_jobs_ops w) with
  | DbOk =>
      (Ok None,
       set_analysis_jobs (filter (fun row : string * JobRow => fst row = "") (analysis_jobs w)) w1)
  | DbError e => (Ok (Some e), w1)
  | DbThrows e => (Throw e, w1)
  end.

Definition POST (E : Capabilities) (S : Services) : M NextResponse :=
  try_catch
    (signalsError ← trading_signals_delete S;
     match signalsError with
     | Some e => throw e
     | None => mret tt
     end;;
     jobsError ← analysis_jobs_delete E;
     match jobsError with
     | Some e => throw e
     | None => mret tt
     end;;
     mret {| res_status := 200; res_success := true;
             res_message := Some "Database cleared successfully"; res_error := None |})
    (fun _ =>
       mret {| res_status := 500; res_success := false;
               res_message := None; res_error := Some "Failed to clear database" |}).

End ClearDatabaseRoute.

(** No stored signal and no job has the empty string for its id. *)
Definition ids_not_empty (w : World) : Prop :=
  Forall (fun s => sig_id s <> "") (trading_signals w) /\ analysis_jobs w !! "" = None.

(** * Properties *)

Local Open Scope list_scope.

(** ** The model at work *)

Definition sample_reply : string :=
  ("Here. signal:  sell" ++ nl ++ "CONFIDENCE: 085" ++ nl ++ "REASONING:  ok then " ++ nl ++ nl
   ++ "more")%string.

Example match_SIGNAL_sample : match_SIGNAL sample_reply = Some SELL.
Proof. vm_compute. reflexivity. Qed.

Example match_CONFIDENCE_sample : parseInt <$> match_CONFIDENCE sample_reply = Some 85%Z.
Proof. vm_compute. reflexivity. Qed.

Example match_REASONING_sample : trim <$> match_REASONING sample_reply = Some "ok then".
Proof. vm_compute. reflexivity. Qed.

Example match_REASONING_blank :
  match_REASONING ("REASONING: " ++ nl)%string = Some nl /\ match_REASONING "REASONING:" = None.
Proof. vm_compute. split; reflexivity. Qed.

(** A reply without the expected fields is no failure: it is read with the
    defaults of [parseSignalResponse], not with the fallback rule. *)
Example unparsable_reply_defaults :
  let run := parseSignalResponse Demo.env (Some "I cannot tell.") "BTC" Demo.some_metrics
               Demo.empty_world in
  (fun s => (signal s, confidence s, reasoning s)) <$> value_of (fst run)
  = Some (HOLD, 50%Z, "Analysis based on social metrics").
Proof. vm_compute. reflexivity. Qed.

Example toFixed1_sample :
  (toFixed1 (1234 # 100), toFixed1 (-4 # 100), toFixed1 (5 # 100)) = ("12.3", "-0.0", "0.1").
Proof. vm_compute. reflexivity. Qed.

(** A run over five candidates, the second of which has no topic data:
    three coins are selected and scored, the second insert is refused. *)
Example workflow_sample :
  let run :=
    signalAnalysisWorkflow Demo.env
      (Demo.event [Demo.coin "BTC"; Demo.coin "DOGE"; Demo.coin "ETH"; Demo.coin "SOL"; Demo.coin "ADA"])
      Demo.empty_world in
  res_symbolsAnalyzed <$> value_of (fst run) = Some 3%Z /\
  omap written_progress (job_history (snd run))
  = [14; 29; 29; 29; 29; 29; 43; 57; 57; 71; 71; 71; 86; 86; 100]%Z /\
  map sig_symbol (trading_signals (snd run)) = ["BTC"; "SOL"] /\
  n_topic_requests (snd run) = 4%nat.
Proof. vm_compute. repeat split. Qed.


(** ** Reasoning about computations *)

Ltac unfold_M := unfold mbind, M_bind, mret, M_ret, try_catch, throw in *.

Lemma steps_mret {A} (R : World -> World -> Prop) (a : A) :
  (forall w, R w w) -> steps R (mret a).
Proof. intros HR w r w' H. unfold_M. inversion H; subst. apply HR. Qed.

Lemma steps_throw {A} (R : World -> World -> Prop) (e : string) :
  (forall w, R w w) -> steps R (@throw A e).
Proof. intros HR w r w' H. unfold_M. inversion H; subst. apply HR. Qed.

Lemma steps_bind {A B} (R1 R2 R3 : World -> World -> Prop) (m : M A) (k : A -> M B) :
  steps R1 m -> (forall a, steps R2 (k a)) ->
  (forall w w', R1 w w' -> R3 w w') ->
  (forall w w' w'', R1 w w' -> R2 w' w'' -> R3 w w'') ->
  steps R3 (m ≫= k).
Proof.
  intros Hm Hk H1 H12 w r w' H. unfold_M.
  destruct (m w) as [[a|e] w1] eqn:Em.
  - eapply H12; [eapply Hm, Em | eapply Hk, H].
  - inversion H; subst. eapply H1, Hm, Em.
Qed.

Lemma steps_try_catch {A} (R1 R2 R3 : World -> World -> Prop) (body : M A) (handler : string -> M A) :
  steps R1 body -> (forall e, steps R2 (handler e)) ->
  (forall w w', R1 w w' -> R3 w w') ->
  (forall w w' w'', R1 w w' -> R2 w' w'' -> R3 w w'') ->
  steps R3 (try_catch body handler).
Proof.
  intros Hm Hk H1 H12 w r w' H. unfold_M.
  destruct (body w) as [[a|e] w1] eqn:Em.
  - inversion H; subst. eapply H1, Hm, Em.
  - eapply H12; [eapply Hm, Em | eapply Hk, H].
Qed.

Lemma steps_mono {A} (R R' : World -> World -> Prop) (m : M A) :
  steps R m -> (forall w w', R w w' -> R' w w') -> steps R' m.
Proof. intros Hm HR w r w' H. eapply HR, Hm, H. Qed.

(** With a preorder the rules need no side condition. *)
Section Preorder.

Context (R : World -> World -> Prop) `{!PreOrder R}.

Lemma pre_mret {A} (a : A) : steps R (mret a).
Proof. apply steps_mret. intros; reflexivity. Qed.

Lemma pre_throw {A} (e : string) : steps R (@throw A e).
Proof. apply steps_throw. intros; reflexivity. Qed.

Lemma pre_bind {A B} (m : M A) (k : A -> M B) :
  steps R m -> (forall a, steps R (k a)) -> steps R (m ≫= k).
Proof.
  intros Hm Hk. eapply steps_bind; eauto.
  intros w w' w'' H1 H2. etransitivity; eauto.
Qed.

Lemma pre_try_catch {A} (body : M A) (handler : string -> M A) :
  steps R body -> (forall e, steps R (handler e)) -> steps R (try_catch body handler).
Proof.
  intros Hm Hk. eapply steps_try_catch; eauto.
  intros w w' w'' H1 H2. etransitivity; eauto.
Qed.

Lemma pre_Promise_all {A} (promises : list (M A)) :
  Forall (steps R) promises -> steps R (Promise_all promises).
Proof.
  induction 1 as [|p ps Hp _ IH]; intros w r w' H; simpl in H.
  - inversion H; subst. reflexivity.
  - destruct (p w) as [rp w1] eqn:Ep.
    destruct (Promise_all ps w1) as [rs w2] eqn:Eps.
    inversion H; subst. etransitivity; [eapply Hp, Ep | eapply IH, Eps].
Qed.

End Preorder.

#[global] Instance jobs_only_preorder : PreOrder jobs_only.
Proof.
  split.
  - intros w. unfold jobs_only. auto.
  - intros a b c (?&?&?&?&?) (?&?&?&?&?). unfold jobs_only. repeat split; congruence.
Qed.

#[global] Instance quiet_preorder : PreOrder quiet.
Proof.
  split.
  - intros w. unfold quiet. auto.
  - intros a b c (?&?) (?&?). unfold quiet. split; congruence.
Qed.

Lemma returns_mret {A} (a : A) : returns (mret a).
Proof. intros w. exists a, w. reflexivity. Qed.

Lemma returns_bind {A B} (m : M A) (k : A -> M B) :
  returns m -> (forall a, returns (k a)) -> returns (m ≫= k).
Proof.
  intros Hm Hk w. destruct (Hm w) as (a & w1 & Em). destruct (Hk a w1) as (b & w2 & Ek).
  exists b, w2. unfold_M. rewrite Em. exact Ek.
Qed.

Lemma returns_try_catch {A} (body : M A) (handler : string -> M A) :
  (forall e, returns (handler e)) -> returns (try_catch body handler).
Proof.
  intros Hh w. unfold_M. destruct (body w) as [[a|e] w1].
  - exists a, w1. reflexivity.
  - apply Hh.
Qed.

Lemma returns_Promise_all {A} (promises : list (M A)) :
  Forall returns promises -> returns (Promise_all promises).
Proof.
  induction 1 as [|p ps Hp _ IH]; intros w; simpl.
  - exists [], w. reflexivity.
  - destruct (Hp w) as (a & w1 & Ep). rewrite Ep.
    destruct (IH w1) as (vs & w2 & Eps). rewrite Eps.
    exists (a :: vs), w2. reflexivity.
Qed.

Section Effects.

Context (E : Capabilities).

(** *** The primitive effects *)

Lemma Date_now_returns : returns (Date_now E).
Proof. intros w. eexists _, _. reflexivity. Qed.

Lemma Date_now_quiet : steps quiet (Date_now E).
Proof. intros w r w' H. inversion H; subst. split; reflexivity. Qed.

Lemma Date_now_jobs_only : steps jobs_only (Date_now E).
Proof. intros w r w' H. inversion H; subst. repeat split. Qed.

Lemma new_Date_toISOString_returns : returns (new_Date_toISOString E).
Proof. apply returns_bind; [apply Date_now_returns | intros; apply returns_mret]. Qed.

Lemma new_Date_toISOString_quiet : steps quiet (new_Date_toISOString E).
Proof. apply pre_bind; [tc_solve | apply Date_now_quiet | intros; apply pre_mret; tc_solve]. Qed.

Lemma new_Date_toISOString_jobs_only : steps jobs_only (new_Date_toISOString E).
Proof. apply pre_bind; [tc_solve | apply Date_now_jobs_only | intros; apply pre_mret; tc_solve]. Qed.

Lemma trading_signals_insert_quiet s : steps quiet (trading_signals_insert E s).
Proof.
  intros w r w' H. unfold trading_signals_insert in H.
  destruct (signals_insert E (n_signal_ops w) s); inversion H; subst; split; reflexivity.
Qed.

Lemma count_request_quiet : steps quiet count_request.
Proof. intros w r w' H. inversion H; subst. split; reflexivity. Qed.

Lemma model_generateContent_quiet prompt : steps quiet (model_generateContent E prompt).
Proof.
  intros w r w' H. unfold model_generateContent in H.
  destruct (generateContent E (n_gemini_calls w) prompt); inversion H; subst; split; reflexivity.
Qed.

Lemma sendTelegramMessage_quiet text : steps quiet (sendTelegramMessage E text).
Proof.
  intros w r w' H. unfold sendTelegramMessage in H.
  destruct (telegram_configured E); [destruct (telegram_fetch E (n_telegram w) text)|];
    inversion H; subst; split; reflexivity.
Qed.

Lemma analysis_jobs_update_jobs_only patch id : steps jobs_only (analysis_jobs_update E patch id).
Proof.
  intros w r w' H. unfold analysis_jobs_update in H.
  destruct (jobs_op E (n_jobs_ops w)); [destruct (analysis_jobs w !! id)| |];
    inversion H; subst; repeat split.
Qed.

End Effects.

Create HintDb effects.

#[global] Hint Resolve Date_now_returns Date_now_quiet Date_now_jobs_only
  new_Date_toISOString_returns new_Date_toISOString_quiet new_Date_toISOString_jobs_only
  trading_signals_insert_quiet count_request_quiet model_generateContent_quiet
  sendTelegramMessage_quiet analysis_jobs_update_jobs_only : effects.

(** Walks down a computation whose effect is bounded by a preorder. *)
Ltac walk :=
  repeat first
    [ solve [eauto with effects]
    | apply pre_mret; tc_solve
    | apply pre_throw; tc_solve
    | apply pre_bind; [tc_solve | | intros]
    | apply pre_try_catch; [tc_solve | | intros]
    | match goal with
      | |- steps _ (match ?x with _ => _ end) => destruct x
      | |- steps _ (let '(_, _) := ?x in _) => destruct x
      end ].

(** Walks down a computation that never throws. *)
Ltac walk_returns :=
  repeat first
    [ solve [eauto with effects]
    | apply returns_mret
    | apply returns_try_catch; intros
    | apply returns_bind; [| intros]
    | match goal with
      | |- returns (match ?x with _ => _ end) => destruct x
      | |- returns (let '(_, _) := ?x in _) => destruct x
      end ].

Section Clients.

Context (E : Capabilities).

Lemma makeRequest_quiet endpoint : steps quiet (makeRequest E endpoint).
Proof.
  unfold makeRequest, getApiKey. apply pre_bind; [tc_solve | walk | intros n].
  apply pre_try_catch; [tc_solve | | intros; walk].
  apply pre_bind; [tc_solve | walk | intros apiKey].
  destruct (fetch E n _) as [e|response]; [walk|].
  destruct (negb (response_ok response)); walk.
Qed.

Lemma fetchTopicData_quiet symbol : steps quiet (fetchTopicData E symbol).
Proof. pose proof makeRequest_quiet. unfold fetchTopicData. walk. Qed.

Lemma fetchTopicData_returns symbol : returns (fetchTopicData E symbol).
Proof. unfold fetchTopicData. walk_returns. Qed.

Lemma getSocialMetrics_quiet coin : steps quiet (getSocialMetrics E coin).
Proof. pose proof fetchTopicData_quiet. unfold getSocialMetrics. walk. Qed.

Lemma getSocialMetrics_returns coin : returns (getSocialMetrics E coin).
Proof.
  intros w. unfold getSocialMetrics. unfold_M.
  destruct (fetchTopicData_returns (coin_symbol coin) w) as (d & w1 & Ed). rewrite Ed.
  eexists _, _. reflexivity.
Qed.

Lemma createFallbackSignal_quiet symbol metrics : steps quiet (createFallbackSignal E symbol metrics).
Proof.
  unfold createFallbackSignal.
  destruct (3 <=? positiveSignals metrics)%Z; [|destruct (positiveSignals metrics <=? 1)%Z]; walk.
Qed.

Lemma createFallbackSignal_returns symbol metrics : returns (createFallbackSignal E symbol metrics).
Proof.
  unfold createFallbackSignal.
  destruct (3 <=? positiveSignals metrics)%Z; [|destruct (positiveSignals metrics <=? 1)%Z];
    walk_returns.
Qed.

Lemma parseSignalResponse_quiet aiResponse symbol metrics :
  steps quiet (parseSignalResponse E aiResponse symbol metrics).
Proof. pose proof createFallbackSignal_quiet. unfold parseSignalResponse. walk. Qed.

Lemma parseSignalResponse_returns aiResponse symbol metrics :
  returns (parseSignalResponse E aiResponse symbol metrics).
Proof.
  unfold parseSignalResponse. apply returns_try_catch. intros. apply createFallbackSignal_returns.
Qed.

Lemma generateTradingSignal_quiet symbol metrics historical :
  steps quiet (generateTradingSignal E symbol metrics historical).
Proof.
  pose proof createFallbackSignal_quiet. pose proof parseSignalResponse_quiet.
  unfold generateTradingSignal, getGeminiClient. walk.
Qed.

Lemma generateTradingSignal_returns symbol metrics historical :
  returns (generateTradingSignal E symbol metrics historical).
Proof.
  unfold generateTradingSignal. apply returns_try_catch. intros. apply createFallbackSignal_returns.
Qed.

Lemma sendSignalAlert_quiet s : steps quiet (sendSignalAlert E s).
Proof. unfold sendSignalAlert. walk. Qed.

End Clients.

#[global] Hint Resolve fetchTopicData_quiet getSocialMetrics_quiet createFallbackSignal_quiet
  parseSignalResponse_quiet generateTradingSignal_quiet sendSignalAlert_quiet
  getSocialMetrics_returns generateTradingSignal_returns createFallbackSignal_returns : effects.

(** ** Progress reporting *)

Lemma step_percentage_round k : step_percentage k = ((200 * k + 7) / 14)%Z.
Proof.
  unfold step_percentage, Math_round.
  assert (H : (inject_Z k / 7 * 100 + (1 # 2) == (200 * k + 7) # 14)%Q).
  { unfold Qeq, Qdiv, Qmult, Qplus, Qinv, inject_Z. simpl. lia. }
  rewrite H. reflexivity.
Qed.

Lemma step_percentage_values :
  map step_percentage [1; 2; 3; 4; 5; 6; 7]%Z = [14; 29; 43; 57; 71; 86; 100]%Z.
Proof. reflexivity. Qed.

Lemma Sorted_le_app (xs ys : list Z) (b : Z) :
  Sorted Z.le xs -> Sorted Z.le ys ->
  Forall (fun x => (x <= b)%Z) xs -> Forall (fun y => (b <= y)%Z) ys ->
  Sorted Z.le (xs ++ ys).
Proof.
  intros Hxs Hys Hx Hy. induction xs as [|x xs IH]; simpl; [exact Hys|].
  inversion Hxs as [|? ? Hs Hd]; subst. inversion Hx as [|? ? Hxb Hxs']; subst.
  constructor; [apply IH; assumption|].
  destruct xs as [|x' xs]; simpl.
  - destruct ys as [|y ys]; constructor. inversion Hy; subst. lia.
  - inversion Hd; subst. constructor. assumption.
Qed.

Lemma phase_write_progress lo hi ws :
  Forall (phase_write lo hi) ws ->
  Forall (fun p => (lo <= p <= hi)%Z /\ exists k, (1 <= k <= 7)%Z /\ p = step_percentage k)
         (omap written_progress ws).
Proof.
  induction 1 as [|jw ws (p & k & Hp & Hb & Hk & Hpk & _) _ IH]; simpl; [constructor|].
  rewrite Hp. constructor; eauto.
Qed.

Lemma in_phase_nil lo hi : in_phase lo hi [].
Proof. split; constructor. Qed.

Lemma in_phase_weaken lo hi lo' hi' ws :
  (lo' <= lo)%Z -> (hi <= hi')%Z -> in_phase lo hi ws -> in_phase lo' hi' ws.
Proof.
  intros Hlo Hhi [Hs Hf]. split; [exact Hs|].
  eapply Forall_impl; [exact Hf|]. intros jw (p & k & ? & ? & ? & ? & ?).
  exists p, k. repeat split; try assumption; lia.
Qed.

Lemma in_phase_app a b c xs ys :
  (a <= b)%Z -> (b <= c)%Z -> in_phase a b xs -> in_phase b c ys -> in_phase a c (xs ++ ys).
Proof.
  intros Hab Hbc [Hsx Hfx] [Hsy Hfy]. split.
  - rewrite omap_app. apply Sorted_le_app with (b := b); try assumption.
    + eapply Forall_impl; [apply (phase_write_progress _ _ _ Hfx)|]. simpl. intros ? [? _]. lia.
    + eapply Forall_impl; [apply (phase_write_progress _ _ _ Hfy)|]. simpl. intros ? [? _]. lia.
  - apply Forall_app. split.
    + eapply in_phase_weaken with (lo := a) (hi := b); [lia | exact Hbc | split; eassumption].
    + eapply in_phase_weaken with (lo := b) (hi := c); [exact Hab | lia | split; eassumption].
Qed.

#[global] Instance writes_preorder (P : list JobWrite -> Prop) :
  P [] -> (forall xs ys, P xs -> P ys -> P (xs ++ ys)) -> PreOrder (writes P).
Proof.
  intros Hnil Happ. split.
  - intros w. exists []. rewrite app_nil_r. auto.
  - intros w1 w2 w3 (xs & E1 & H1) (ys & E2 & H2). exists (xs ++ ys). split; [|auto].
    rewrite E2, E1, app_assoc. reflexivity.
Qed.

#[global] Instance phase_preorder a : PreOrder (phase a a).
Proof.
  apply writes_preorder; [apply in_phase_nil|].
  intros xs ys. apply in_phase_app; lia.
Qed.

Lemma quiet_writes (P : list JobWrite -> Prop) {A} (m : M A) :
  P [] -> steps quiet m -> steps (writes P) m.
Proof.
  intros Hnil Hm w r w' H. destruct (Hm w r w' H) as [_ Hh].
  exists []. rewrite app_nil_r. auto.
Qed.

Lemma quiet_phase a b {A} (m : M A) : steps quiet m -> steps (phase a b) m.
Proof. apply quiet_writes, in_phase_nil. Qed.

Lemma phase_weaken a b a' b' {A} (m : M A) :
  (a' <= a)%Z -> (b <= b')%Z -> steps (phase a b) m -> steps (phase a' b') m.
Proof.
  intros Ha Hb Hm. eapply steps_mono; [exact Hm|].
  intros w w' (ws & Hw & Hp). exists ws. split; [exact Hw|].
  eapply in_phase_weaken; eauto.
Qed.

Lemma phase_bind b a c {A B} (m : M A) (k : A -> M B) :
  (a <= b)%Z -> (b <= c)%Z ->
  steps (phase a b) m -> (forall x, steps (phase b c) (k x)) -> steps (phase a c) (m ≫= k).
Proof.
  intros Hab Hbc Hm Hk. eapply steps_bind; [exact Hm | exact Hk | |].
  - intros w w' (ws & Hw & Hp). exists ws. split; [exact Hw|].
    eapply in_phase_weaken with (lo := a) (hi := b); [lia | lia | exact Hp].
  - intros w w' w'' (xs & E1 & H1) (ys & E2 & H2). exists (xs ++ ys). split.
    + rewrite E2, E1, app_assoc. reflexivity.
    + eapply in_phase_app; eauto.
Qed.

Section Progress.

Context (E : Capabilities).

Lemma updateProgress_returns jobId k name message st :
  returns (updateProgress E jobId k name message st).
Proof. unfold updateProgress. walk_returns. Qed.

Lemma updateProgress_jobs_only jobId k name message st :
  steps jobs_only (updateProgress E jobId k name message st).
Proof. unfold updateProgress. walk. Qed.

Lemma updateProgress_writes jobId k name message st :
  steps (writes (progress_update k st)) (updateProgress E jobId k name message st).
Proof.
  intros w r w' H. unfold updateProgress, new_Date_toISOString, Date_now, analysis_jobs_update in H.
  unfold_M. simpl in H.
  destruct (jobs_op E (n_jobs_ops w)); [destruct (analysis_jobs w !! jobId)| |];
    inversion H; subst; simpl.
  - eexists. split; [reflexivity|]. right. eexists _, _. split; [reflexivity|]. split; reflexivity.
  - exists []. rewrite app_nil_r. split; [reflexivity | left; reflexivity].
  - exists []. rewrite app_nil_r. split; [reflexivity | left; reflexivity].
  - exists []. rewrite app_nil_r. split; [reflexivity | left; reflexivity].
Qed.

Lemma progress_update_in_phase k ws :
  (1 <= k <= 7)%Z -> progress_update k "started" ws ->
  in_phase (step_percentage k) (step_percentage k) ws.
Proof.
  intros Hk [->|(id & patch & -> & Hp & Hs)]; [apply in_phase_nil|].
  split; simpl.
  - rewrite Hp. repeat constructor.
  - repeat constructor. exists (step_percentage k), k. simpl. repeat split; auto; lia.
Qed.

Lemma updateProgress_phase k jobId name message :
  (1 <= k <= 7)%Z ->
  steps (phase (step_percentage k) (step_percentage k))
        (updateProgress E jobId k name message "started").
Proof.
  intros Hk. eapply steps_mono; [apply updateProgress_writes|].
  intros w w' (ws & Hw & Hp). exists ws. split; [exact Hw|].
  apply progress_update_in_phase; assumption.
Qed.

Lemma updateProgress_2 jobId name message :
  steps (phase 29 29) (updateProgress E jobId 2 name message "started").
Proof. apply (updateProgress_phase 2). lia. Qed.

Lemma updateProgress_3 jobId name message :
  steps (phase 43 43) (updateProgress E jobId 3 name message "started").
Proof. apply (updateProgress_phase 3). lia. Qed.

Lemma updateProgress_4 jobId name message :
  steps (phase 57 57) (updateProgress E jobId 4 name message "started").
Proof. apply (updateProgress_phase 4). lia. Qed.

Lemma updateProgress_5 jobId name message :
  steps (phase 71 71) (updateProgress E jobId 5 name message "started").
Proof. apply (updateProgress_phase 5). lia. Qed.

Lemma updateProgress_6 jobId name message :
  steps (phase 86 86) (updateProgress E jobId 6 name message "started").
Proof. apply (updateProgress_phase 6). lia. Qed.

End Progress.

#[global] Hint Resolve updateProgress_returns updateProgress_jobs_only
  updateProgress_2 updateProgress_3 updateProgress_4 updateProgress_5 updateProgress_6 : effects.

#[global] Hint Extern 5 (steps (phase _ _) _) => apply quiet_phase : effects.

Section Steps.

Context (E : Capabilities).

Lemma initialize_job_phase ev jobId : steps (phase 14 14) (initialize_job E ev jobId).
Proof.
  intros w r w' H. unfold initialize_job, new_Date_toISOString, Date_now, analysis_jobs_insert in H.
  unfold_M. simpl in H.
  destruct (jobs_op E (n_jobs_ops w)); [destruct (analysis_jobs w !! jobId)| |];
    inversion H; subst; simpl; try (exists []; rewrite app_nil_r; split; [reflexivity | apply in_phase_nil]).
  eexists. split; [reflexivity|]. split; simpl; repeat constructor.
  exists 14%Z, 1%Z. simpl. repeat split; lia.
Qed.

Lemma select_loop_phase jobId coins results :
  steps (phase 29 29) (select_loop E jobId coins results).
Proof.
  revert results. induction coins as [|coin rest IH]; intros results; simpl.
  - walk.
  - destruct (3 <=? length results)%nat; walk.
Qed.

Lemma select_and_fetch_data_phase ev jobId :
  steps (phase 29 43) (select_and_fetch_data E ev jobId).
Proof.
  unfold select_and_fetch_data.
  apply (phase_bind 29); [lia | lia | walk | intros _].
  destruct (length (default [] (ev_topCoins ev)) =? 0)%nat.
  - apply (phase_weaken 29 29); [lia | lia | walk].
  - apply (phase_bind 29); [lia | lia | apply select_loop_phase | intros results].
    destruct (length results =? 0)%nat.
    + apply (phase_weaken 29 29); [lia | lia | walk].
    + apply (phase_weaken 43 43); [lia | lia | walk].
Qed.

Lemma fan_out_quiet scoreOne items :
  (forall item, steps quiet (scoreOne item)) -> steps quiet (fan_out scoreOne items).
Proof.
  intros Hs. unfold fan_out. apply pre_bind; [tc_solve | | intros; walk].
  apply pre_Promise_all; [tc_solve|]. apply Forall_map, Forall_forall. intros item _. simpl. walk.
Qed.

Lemma generate_ai_signals_phase jobId socialMetrics :
  steps (phase 57 57) (generate_ai_signals E jobId socialMetrics).
Proof.
  unfold generate_ai_signals. apply pre_bind; [tc_solve | walk | intros _].
  apply pre_bind; [tc_solve | | intros; walk].
  apply quiet_phase, fan_out_quiet. intros item. walk.
Qed.

Lemma save_loop_phase jobId total i signals saveResults :
  steps (phase 71 71) (save_loop E jobId total i signals saveResults).
Proof.
  revert i saveResults. induction signals as [|s rest IH]; intros i saveResults; simpl; walk.
Qed.

Lemma save_to_database_phase jobId tradingSignals :
  steps (phase 71 71) (save_to_database E jobId tradingSignals).
Proof. pose proof save_loop_phase. unfold save_to_database. walk. Qed.

Lemma generate_summary_phase jobId tradingSignals :
  steps (phase 86 86) (generate_summary E jobId tradingSignals).
Proof. unfold generate_summary. walk. Qed.

Lemma send_notifications_phase jobId tradingSignals :
  steps (phase 86 86) (send_notifications E jobId tradingSignals).
Proof.
  unfold send_notifications.
  destruct (0 <? length (filter (fun s => (70 <= confidence s)%Z) tradingSignals))%nat; [|walk].
  apply pre_bind; [tc_solve | walk | intros _].
  apply pre_bind; [tc_solve | | intros; walk].
  apply quiet_phase, pre_Promise_all; [tc_solve|].
  apply Forall_map, Forall_forall. intros s _. simpl. walk.
Qed.

End Steps.

(** ** The shape of a run *)

Lemma completion_nil : completion [].
Proof. exists [], []. split; [reflexivity|]. split; left; reflexivity. Qed.

Lemma run_shape_of_phase lo hi ws : (hi <= 86)%Z -> in_phase lo hi ws -> run_shape lo ws.
Proof.
  intros Hhi Hp. exists ws, []. rewrite app_nil_r. split; [reflexivity|]. split.
  - eapply in_phase_weaken with (lo := lo) (hi := hi); [lia | exact Hhi | exact Hp].
  - apply completion_nil.
Qed.

Lemma run_shape_of_completion lo ws : completion ws -> run_shape lo ws.
Proof. intros Hc. exists [], ws. split; [reflexivity|]. split; [apply in_phase_nil | exact Hc]. Qed.

Lemma run_shape_weaken lo lo' ws : (lo' <= lo)%Z -> run_shape lo ws -> run_shape lo' ws.
Proof.
  intros Hlo (pre & fin & -> & Hp & Hc). exists pre, fin. split; [reflexivity|]. split; [|exact Hc].
  eapply in_phase_weaken with (lo := lo) (hi := 86%Z); [exact Hlo | lia | exact Hp].
Qed.

Lemma phase_then_run a b c {A B} (m : M A) (k : A -> M B) :
  (a <= b)%Z -> (b <= c)%Z -> (c <= 86)%Z ->
  steps (phase a b) m -> (forall x, steps (writes (run_shape c)) (k x)) ->
  steps (writes (run_shape a)) (m ≫= k).
Proof.
  intros Hab Hbc Hc Hm Hk. eapply steps_bind; [exact Hm | exact Hk | |].
  - intros w w' (ws & Hw & Hp). exists ws. split; [exact Hw|].
    apply run_shape_of_phase with (hi := b); [lia | exact Hp].
  - intros w w' w'' (xs & E1 & H1) (ys & E2 & pre & fin & -> & Hp & Hf).
    exists (xs ++ pre ++ fin). split; [rewrite E2, E1, <- app_assoc; reflexivity|].
    exists (xs ++ pre), fin. split; [rewrite app_assoc; reflexivity|]. split; [|exact Hf].
    apply in_phase_app with (b := c); [lia | lia | | exact Hp].
    eapply in_phase_weaken with (lo := a) (hi := b); [lia | lia | exact H1].
Qed.

Lemma quiet_then_writes (P : list JobWrite -> Prop) {A B} (m : M A) (k : A -> M B) :
  P [] -> steps quiet m -> (forall x, steps (writes P) (k x)) -> steps (writes P) (m ≫= k).
Proof.
  intros Hnil Hm Hk. eapply steps_bind; [exact Hm | exact Hk | |].
  - intros w w' [_ E1]. exists []. rewrite app_nil_r. auto.
  - intros w w' w'' [_ E1] (xs & E2 & H2). exists xs. split; [congruence | exact H2].
Qed.

Lemma writes_then_quiet (P : list JobWrite -> Prop) {A B} (m : M A) (k : A -> M B) :
  steps (writes P) m -> (forall x, steps quiet (k x)) -> steps (writes P) (m ≫= k).
Proof.
  intros Hm Hk. eapply steps_bind; [exact Hm | exact Hk | auto |].
  intros w w' w'' (xs & E1 & H1) [_ E2]. exists xs. split; [congruence | exact H1].
Qed.

Lemma writes_try_quiet (P : list JobWrite -> Prop) {A} (body : M A) (handler : string -> M A) :
  steps (writes P) body -> (forall e, steps quiet (handler e)) ->
  steps (writes P) (try_catch body handler).
Proof.
  intros Hm Hk. eapply steps_try_catch; [exact Hm | exact Hk | auto |].
  intros w w' w'' (xs & E1 & H1) [_ E2]. exists xs. split; [congruence | exact H1].
Qed.

Section Run.

Context (E : Capabilities).

Lemma analysis_jobs_update_writes patch id :
  steps (writes (fun ws => ws = [] \/ ws = [JobUpdated id patch])) (analysis_jobs_update E patch id).
Proof.
  intros w r w' H. unfold analysis_jobs_update in H.
  destruct (jobs_op E (n_jobs_ops w)); [destruct (analysis_jobs w !! id)| |];
    inversion H; subst; simpl.
  - eexists. split; [reflexivity | right; reflexivity].
  - exists []. rewrite app_nil_r. split; [reflexivity | left; reflexivity].
  - exists []. rewrite app_nil_r. split; [reflexivity | left; reflexivity].
  - exists []. rewrite app_nil_r. split; [reflexivity | left; reflexivity].
Qed.

Lemma final_statistics_writes jobId (patch_at : string -> JobPatch) :
  (forall completed, p_progress_percentage (patch_at completed) = None) ->
  (forall completed, p_status (patch_at completed) = None) ->
  steps (writes statistics_update)
        (try_catch
           (completed ← new_Date_toISOString E;
            error ← analysis_jobs_update E (patch_at completed) jobId;
            mret tt)
           (fun _ => mret tt)).
Proof.
  intros Hp Hs. apply writes_try_quiet; [|intros; walk].
  apply quiet_then_writes; [left; reflexivity | walk | intros completed].
  apply writes_then_quiet; [|intros; walk].
  eapply steps_mono; [apply analysis_jobs_update_writes|].
  intros w w' (xs & E1 & Hx). exists xs. split; [exact E1|].
  destruct Hx as [->| ->]; [left; reflexivity | right; eauto].
Qed.

Lemma complete_job_writes jobId startTime tradingSignals summary :
  steps (writes completion) (complete_job E jobId startTime tradingSignals summary).
Proof.
  unfold complete_job.
  apply quiet_then_writes; [apply completion_nil | walk | intros now].
  eapply steps_bind with (R1 := writes (progress_update 7 "completed"))
                         (R2 := writes statistics_update).
  - apply updateProgress_writes.
  - intros _.
    apply (final_statistics_writes jobId (fun completed =>
      {| p_current_step := None; p_step_message := None; p_progress_percentage := None;
         p_status := None; p_updated_at := None;
         p_signals_generated := Some (Z.of_nat (length tradingSignals));
         p_alerts_generated := Some (highConfidence summary);
         p_duration_ms := Some (now - startTime)%Z;
         p_completed_at := Some completed |})); reflexivity.
  - intros w w' (a & E1 & Ha). exists a. split; [exact E1|].
    exists a, []. rewrite app_nil_r. split; [reflexivity|]. split; [exact Ha | left; reflexivity].
  - intros w w' w'' (a & E1 & Ha) (b & E2 & Hb). exists (a ++ b).
    split; [rewrite E2, E1, app_assoc; reflexivity|]. exists a, b. auto.
Qed.

Lemma persist_and_complete_shape jobId startTime tradingSignals :
  steps (writes (run_shape 71)) (persist_and_complete E jobId startTime tradingSignals).
Proof.
  unfold persist_and_complete.
  apply (phase_then_run 71 71 86); [lia | lia | lia | apply save_to_database_phase | intros saved].
  apply (phase_then_run 86 86 86); [lia | lia | lia | apply generate_summary_phase | intros [summary sorted]].
  apply (phase_then_run 86 86 86); [lia | lia | lia | apply send_notifications_phase | intros _].
  apply writes_then_quiet; [|intros; walk].
  eapply steps_mono; [apply complete_job_writes|].
  intros w w' (ws & Hw & Hc). exists ws. split; [exact Hw | apply run_shape_of_completion, Hc].
Qed.

Lemma signalAnalysisWorkflow_shape ev :
  steps (writes (run_shape 14)) (signalAnalysisWorkflow E ev).
Proof.
  unfold signalAnalysisWorkflow.
  apply (phase_then_run 14 14 14); [lia | lia | lia | walk | intros startTime].
  assert (Hnone : steps (writes (run_shape 14)) (@throw WorkflowResult "No job ID provided in event data")).
  { apply quiet_writes; [apply run_shape_of_completion, completion_nil | walk]. }
  destruct (ev_jobId ev) as [[|c jobId]|]; try exact Hnone.
  apply (phase_then_run 14 14 29); [lia | lia | lia | apply initialize_job_phase | intros _].
  apply (phase_then_run 29 43 57); [lia | lia | lia | apply select_and_fetch_data_phase | intros selected].
  apply (phase_then_run 57 57 71); [lia | lia | lia | apply generate_ai_signals_phase | intros signals].
  apply writes_then_quiet; [apply persist_and_complete_shape | intros [[saved summary] sorted]; walk].
Qed.

End Run.

Lemma run_shape_progress lo ws :
  run_shape lo ws ->
  Sorted Z.le (omap written_progress ws) /\
  Forall (fun p => exists k, (1 <= k <= 7)%Z /\ p = step_percentage k) (omap written_progress ws).
Proof.
  intros (pre & fin & -> & [Hs Hf] & a & b & -> & Ha & Hb).
  assert (Hb' : omap written_progress b = []).
  { destruct Hb as [->|(id & patch & -> & Hp & _)]; simpl; [reflexivity | rewrite Hp; reflexivity]. }
  assert (Ha' : omap written_progress a = [] \/ omap written_progress a = [100%Z]).
  { destruct Ha as [->|(id & patch & -> & Hp & _)]; simpl; [left; reflexivity | rewrite Hp; right; reflexivity]. }
  rewrite !omap_app, Hb', app_nil_r.
  pose proof (phase_write_progress _ _ _ Hf) as Hpre.
  split.
  - apply Sorted_le_app with (b := 86%Z); [exact Hs | | |].
    + destruct Ha' as [-> | ->]; repeat constructor.
    + eapply Forall_impl; [exact Hpre|]. simpl. intros p [? _]. lia.
    + destruct Ha' as [-> | ->]; repeat constructor. lia.
  - apply Forall_app. split.
    + eapply Forall_impl; [exact Hpre|]. simpl. intros p [_ ?]. assumption.
    + destruct Ha' as [-> | ->]; repeat constructor. exists 7%Z. split; [lia | reflexivity].
Qed.

Lemma run_shape_status lo ws :
  run_shape lo ws ->
  exists n, omap written_status ws = replicate n "started" \/
            omap written_status ws = replicate n "started" ++ ["completed"].
Proof.
  intros (pre & fin & -> & [_ Hf] & a & b & -> & Ha & Hb).
  assert (Hb' : omap written_status b = []).
  { destruct Hb as [->|(id & patch & -> & _ & Hp)]; simpl; [reflexivity | rewrite Hp; reflexivity]. }
  assert (Hpre : omap written_status pre = replicate (length pre) "started").
  { clear -Hf. induction Hf as [|jw ws (p & k & _ & _ & _ & _ & Hst) _ IH]; csimpl; [reflexivity|].
    rewrite Hst, IH. reflexivity. }
  exists (length pre). rewrite !omap_app, Hb', app_nil_r, Hpre.
  destruct Ha as [->|(id & patch & -> & _ & Hp)]; simpl.
  - left. rewrite app_nil_r. reflexivity.
  - right. rewrite Hp. reflexivity.
Qed.

(** ** The claims *)





(** ** The scoring capability *)

Lemma positiveSignals_range metrics : (0 <= positiveSignals metrics <= 4)%Z.
Proof.
  unfold positiveSignals.
  destruct (negb _), (altRank metrics <? 100)%Z, (70 <? galaxyScore metrics)%Z,
    (1000 <? creators metrics)%Z; vm_compute; split; discriminate.
Qed.

Lemma createFallbackSignal_spec E symbol m w :
  exists s w',
    createFallbackSignal E symbol m w = (Ok s, w') /\
    sig_symbol s = symbol /\ metrics s = m /\ fallback_rule m s.
Proof.
  pose proof (positiveSignals_range m) as Hn.
  unfold createFallbackSignal, fallback_rule.
  destruct (3 <=? positiveSignals m)%Z eqn:H3;
    [|destruct (positiveSignals m <=? 1)%Z eqn:H1];
    unfold new_Date_toISOString, Date_now; unfold_M; simpl;
    eexists _, _; (split; [reflexivity|]); simpl; repeat split; try lia; intros; lia.
Qed.



(** ** Candidate selection *)

Section Selection.

Context (E : Capabilities).

Lemma getSocialMetrics_spec coin w :
  exists m w',
    getSocialMetrics E coin w = (Ok m, w') /\
    sm_symbol m = coin_symbol coin /\
    counters m = topic_counters E (n_topic_requests w) (coin_symbol coin) /\
    n_topic_requests w' = S (n_topic_requests w).
Proof.
  unfold getSocialMetrics, fetchTopicData, makeRequest, getApiKey, count_request, Date_now,
    topic_counters, topic_data.
  unfold_M. simpl.
  destruct (LUNARCRUSH_API_KEY E) as [[|c key]|]; simpl;
    try (eexists _, _; (split; [reflexivity|]); simpl; repeat split; fail).
  change (BASE_URL +:+ "/topic/" +:+ coin_symbol coin +:+ "/v1")
    with (BASE_URL ++ "/topic/" ++ coin_symbol coin ++ "/v1")%string.
  destruct (fetch E (n_topic_requests w) _) as [e|response]; simpl;
    [eexists _, _; (split; [reflexivity|]); simpl; repeat split|].
  destruct (response_ok response); simpl.
  - destruct (http_json response) as [e|[data|]]; simpl;
      eexists _, _; (split; [reflexivity|]); simpl; repeat split.
  - destruct (http_status response =? 401)%Z; [|destruct (http_status response =? 429)%Z;
      [|destruct (500 <=? http_status response)%Z]]; simpl;
      eexists _, _; (split; [reflexivity|]); simpl; repeat split.
Qed.

Lemma has_real_data_complete m : has_real_data m = complete (counters m).
Proof. reflexivity. Qed.

(** One iteration of the selection loop. *)
Lemma select_iteration jobId coin (results : list Selected) (k : list Selected -> M (list Selected)) w :
  let o := (coin_symbol coin, topic_counters E (n_topic_requests w) (coin_symbol coin)) in
  exists results1 w1,
    (try_catch
       (updateProgress E jobId 2 "Testing Coin Data"
          ("Checking " ++ coin_symbol coin ++ " (" ++ pretty (length results + 1)%nat ++ "/3 found)...")%string
          "started";;
        metrics ← getSocialMetrics E coin;
        if has_real_data metrics
        then mret (results ++ [{| sel_symbol := coin_symbol coin; sel_metrics := metrics; sel_success := true |}])
        else mret results)
       (fun _ => mret results) ≫= k) w = k results1 w1 /\
    n_topic_requests w1 = S (n_topic_requests w) /\
    map observed results1 = map observed results ++ filter is_complete [o].
Proof.
  intros o. unfold_M.
  destruct (updateProgress_returns E jobId 2 "Testing Coin Data"
              ("Checking " ++ coin_symbol coin ++ " (" ++ pretty (length results + 1)%nat ++ "/3 found)...")%string
              "started" w) as ([] & w0 & Hup).
  pose proof (updateProgress_jobs_only E _ _ _ _ _ _ _ _ Hup) as (_ & Hn & _).
  rewrite Hup.
  destruct (getSocialMetrics_spec coin w0) as (m & w1 & Hget & Hsym & Hcnt & Hn1).
  rewrite Hget, has_real_data_complete, Hcnt, Hn.
  assert (Hfilter : filter is_complete [o] = if complete (snd o) then [o] else []).
  { rewrite filter_cons, filter_nil. unfold is_complete.
    destruct (decide (complete (snd o) = true)) as [Hc|Hc].
    - rewrite Hc. reflexivity.
    - apply not_true_is_false in Hc. rewrite Hc. reflexivity. }
  rewrite Hfilter. subst o. simpl.
  destruct (complete _) eqn:Hc.
  - eexists _, w1. split; [reflexivity|]. split; [congruence|].
    rewrite map_app. simpl. f_equal. unfold observed. simpl. rewrite Hcnt, Hn. reflexivity.
  - eexists _, w1. split; [reflexivity|]. split; [congruence|]. rewrite app_nil_r. reflexivity.
Qed.

Lemma select_loop_spec jobId coins : forall results w,
  let obs := observations E (n_topic_requests w) coins in
  exists results' w' k,
    select_loop E jobId coins results w = (Ok results', w') /\
    n_topic_requests w' = (n_topic_requests w + k)%nat /\
    (k <= length coins)%nat /\
    map observed results' = map observed results ++ filter is_complete (take k obs) /\
    map observed results' = map observed results ++ take (3 - length results) (filter is_complete obs) /\
    ((length results' < 3)%nat -> k = length coins) /\
    (forall j, (j < k)%nat -> (length results + length (filter is_complete (take j obs)) < 3)%nat).
Proof.
  induction coins as [|coin rest IH]; intros results w; cbn [select_loop observations].
  - exists results, w, 0%nat. cbn zeta. rewrite filter_nil, !take_nil, filter_nil, !app_nil_r, Nat.add_0_r.
    split; [reflexivity|]. split; [reflexivity|]. split; [lia|].
    split; [reflexivity|]. split; [reflexivity|]. split; [reflexivity|]. intros; lia.
  - destruct (3 <=? length results)%nat eqn:Hfull.
    + apply Nat.leb_le in Hfull. exists results, w, 0%nat.
      replace (3 - length results)%nat with 0%nat by lia.
      rewrite Nat.add_0_r, !take_0, filter_nil, !app_nil_r.
      split; [reflexivity|]. split; [reflexivity|]. split; [lia|].
      split; [reflexivity|]. split; [reflexivity|]. split; intros; lia.
    + apply Nat.leb_gt in Hfull.
      destruct (select_iteration jobId coin results (fun r => select_loop E jobId rest r) w)
        as (results1 & w1 & Hstep & Hn1 & Hobs1).
      cbv beta in Hstep. rewrite Hstep.
      destruct (IH results1 w1) as (results' & w' & k & Hrun & Hn & Hk & Hobs & Htake & Hexh & Hearly).
      rewrite Hn1 in *.
      set (o := (coin_symbol coin, topic_counters E (n_topic_requests w) (coin_symbol coin))) in *.
      set (obs := observations E (S (n_topic_requests w)) rest) in *.
      assert (Hlen1 : length results1 = (length results + length (filter is_complete [o]))%nat).
      { rewrite <- (length_map observed results1), Hobs1, length_app, length_map. reflexivity. }
      exists results', w', (S k). split; [exact Hrun|]. split; [lia|]. split; [cbn [length]; lia|].
      assert (Hcons : forall l, filter is_complete (o :: l) = filter is_complete [o] ++ filter is_complete l).
      { intros l. change (o :: l) with ([o] ++ l). apply filter_app. }
      split; [|split; [|split]].
      * rewrite Hobs, Hobs1. simpl take. rewrite (Hcons (take k obs)), app_assoc. reflexivity.
      * rewrite Htake, Hobs1, (Hcons obs), Hlen1, <- app_assoc. f_equal.
        destruct (filter is_complete [o]) as [|o' [|]] eqn:Hf.
        -- simpl. rewrite Nat.add_0_r. reflexivity.
        -- simpl. replace (3 - length results)%nat with (S (3 - (length results + 1)))%nat by lia.
           reflexivity.
        -- exfalso. apply (f_equal length) in Hf. pose proof (length_filter is_complete [o]) as Hle.
           rewrite Hf in Hle. simpl in Hle. lia.
      * intros Hlt. rewrite (Hexh Hlt). reflexivity.
      * intros [|j] Hj; [simpl; lia|]. simpl take. rewrite (Hcons (take j obs)), length_app.
        specialize (Hearly j ltac:(lia)). lia.
Qed.

End Selection.

Section SelectionStep.

Context (E : Capabilities).

(** The selection step on a non-empty list of candidates: it throws when
    the loop found nothing; else it returns what the loop found. *)
Lemma select_and_fetch_data_spec ev jobId coins w :
  ev_topCoins ev = Some coins -> coins <> [] ->
  let obs := observations E (n_topic_requests w) coins in
  exists results r w' k,
    select_and_fetch_data E ev jobId w = (r, w') /\
    r = (if (length results =? 0)%nat
         then Throw "No coins with complete social data found in top 10"
         else Ok results) /\
    n_topic_requests w' = (n_topic_requests w + k)%nat /\
    (k <= length coins)%nat /\
    map observed results = filter is_complete (take k obs) /\
    map observed results = take 3 (filter is_complete obs) /\
    ((length results < 3)%nat -> k = length coins) /\
    (forall j, (j < k)%nat -> (length (filter is_complete (take j obs)) < 3)%nat).
Proof.
  intros Hcoins Hne obs. unfold select_and_fetch_data. rewrite Hcoins. simpl default.
  destruct (updateProgress_returns E jobId 2 "Selecting Best Coins"
              "Testing top 10 candidates for complete social data..." "started" w)
    as ([] & w0 & Hup).
  pose proof (updateProgress_jobs_only E _ _ _ _ _ _ _ _ Hup) as (_ & Hn0 & _).
  unfold mbind at 1. unfold M_bind at 1. rewrite Hup.
  destruct coins as [|coin rest]; [contradiction|].
  change (length (coin :: rest) =? 0)%nat with false. cbv iota.
  destruct (select_loop_spec E jobId (coin :: rest) [] w0)
    as (results & w1 & k & Hloop & Hn & Hk & Hobs & Htake & Hexh & Hearly).
  rewrite Hn0 in *. fold obs in Hobs, Htake, Hearly. simpl in Hobs, Htake, Hearly.
  unfold mbind at 1. unfold M_bind at 1. rewrite Hloop.
  destruct (length results =? 0)%nat eqn:Hlen.
  - exists results, (Throw "No coins with complete social data found in top 10"), w1, k.
    rewrite Hlen. repeat split; auto.
  - destruct (updateProgress_returns E jobId 3 "Selection Complete"
                ("Selected " ++ pretty (length results) ++ " coins with complete metrics: "
                 ++ join ", " (map sel_symbol results))%string "started" w1)
      as ([] & w2 & Hup3).
    pose proof (updateProgress_jobs_only E _ _ _ _ _ _ _ _ Hup3) as (_ & Hn2 & _).
    exists results, (Ok results), w2, k. rewrite Hlen.
    split; [unfold_M; rewrite Hup3; reflexivity|].
    split; [reflexivity|]. split; [congruence|]. repeat split; auto.
Qed.

End SelectionStep.

(** C2.  The candidates are tested in the order of the list, the i-th one
    against the i-th answer of the data provider.  When the list holds a
    candidate whose answer has a positive counter, the selection step
    returns: between 1 and 3 items, namely the first three complete
    candidates in the order of the list (all of them when there are fewer),
    each with the counters that were fetched for it.  It fetches [k]
    candidates and no more: the whole list when fewer than 3 are complete,
    and otherwise it stops at the fetch that completes the third item
    (before each of its fetches fewer than 3 had been found). *)
Theorem select_returns_first_complete (E : Capabilities) (ev : EventData) (jobId : string)
    (coins : list TopCoin) (w : World) :
  let obs := observations E (n_topic_requests w) coins in
  ev_topCoins ev = Some coins ->
  (exists o, o ∈ obs /\ is_complete o) ->
  exists results w' k,
    select_and_fetch_data E ev jobId w = (Ok results, w') /\
    (1 <= length results <= 3)%nat /\
    map observed results = take 3 (filter is_complete obs) /\
    n_topic_requests w' = (n_topic_requests w + k)%nat /\
    (k <= length coins)%nat /\
    map observed results = filter is_complete (take k obs) /\
    ((length results < 3)%nat -> k = length coins) /\
    (forall j, (j < k)%nat -> (length (filter is_complete (take j obs)) < 3)%nat).
Proof.
  intros obs Hcoins (o & Hin & Hc).
  assert (Hne : coins <> []).
  { intros ->. simpl in obs. subst obs. inversion Hin. }
  destruct (select_and_fetch_data_spec E ev jobId coins w Hcoins Hne)
    as (results & r & w' & k & Hrun & Hr & Hn & Hk & Hobs & Htake & Hexh & Hearly).
  fold obs in Hobs, Htake, Hearly.
  assert (Hfound : filter is_complete obs <> []).
  { intros Hnil. assert (Hin' : o ∈ filter is_complete obs) by (apply list_elem_of_filter; auto).
    rewrite Hnil in Hin'. inversion Hin'. }
  assert (Hlen : (1 <= length results <= 3)%nat).
  { rewrite <- (length_map observed results), Htake, length_take.
    destruct (filter is_complete obs); [contradiction | cbn [length]; lia]. }
  exists results, w', k. split.
  - rewrite Hrun, Hr. destruct (length results =? 0)%nat eqn:H0; [|reflexivity].
    apply Nat.eqb_eq in H0. lia.
  - repeat split; auto; lia.
Qed.

Lemma select_returns_first_complete_witness :
  exists results w',
    select_and_fetch_data Demo.env
      (Demo.event [Demo.coin "BTC"; Demo.coin "DOGE"; Demo.coin "ETH"; Demo.coin "SOL"; Demo.coin "ADA"])
      "job_1" Demo.empty_world = (Ok results, w') /\
    map sel_symbol results = ["BTC"; "ETH"; "SOL"] /\
    n_topic_requests w' = 4%nat.
Proof.
  destruct (select_returns_first_complete Demo.env
              (Demo.event [Demo.coin "BTC"; Demo.coin "DOGE"; Demo.coin "ETH"; Demo.coin "SOL"; Demo.coin "ADA"])
              "job_1" _ Demo.empty_world eq_refl)
    as (results & w' & k & Hrun & _ & Htake & Hn & _ & _ & _ & _).
  - exists ("BTC", (10, 5000, 0)%Z). split; [left | reflexivity].
  - exists results, w'. split; [exact Hrun|].
    vm_compute in Hrun. inversion Hrun; subst. split; reflexivity.
Defined.

Lemma select_and_fetch_data_insufficient (E : Capabilities) ev jobId coins w :
  ev_topCoins ev = Some coins -> coins <> [] ->
  Forall (fun o => complete (snd o) = false) (observations E (n_topic_requests w) coins) ->
  exists w',
    select_and_fetch_data E ev jobId w
    = (Throw "No coins with complete social data found in top 10", w') /\
    n_topic_requests w' = (n_topic_requests w + length coins)%nat.
Proof.
  intros Hcoins Hne Hall.
  destruct (select_and_fetch_data_spec E ev jobId coins w Hcoins Hne)
    as (results & r & w' & k & Hrun & Hr & Hn & Hk & Hobs & Htake & Hexh & Hearly).
  assert (Hnone : filter is_complete (observations E (n_topic_requests w) coins) = []).
  { clear -Hall. induction Hall as [|o obs Ho _ IH]; [reflexivity|].
    rewrite filter_cons, IH. unfold is_complete.
    destruct (decide (complete (snd o) = true)); [congruence | reflexivity]. }
  rewrite Hnone in Htake. simpl in Htake. apply map_eq_nil in Htake. subst results.
  simpl in Hr. subst r. exists w'. split; [exact Hrun|].
  rewrite Hn, Hexh; [reflexivity | simpl; lia].
Qed.




Lemma observations_all_fail (E : Capabilities) coins n :
  (forall n symbol, topic_fails E n symbol) ->
  Forall (fun o => complete (snd o) = false) (observations E n coins).
Proof.
  intros Hfail. revert n. induction coins as [|coin rest IH]; intros n; simpl; constructor; [|apply IH].
  simpl. unfold topic_counters. rewrite (Hfail n (coin_symbol coin)). reflexivity.
Qed.

(** C10.  When the topic request for a candidate throws, or answers
    without a data object, [getSocialMetrics] does not throw: it returns
    metrics whose mentions, interactions and creators are 0, which the
    completeness test of the selection loop rejects; the [catch] of the loop
    is not reached.  A run whose job record was created and in which every
    topic request fails ends, on a non-empty list of candidates, with the
    insufficient-data error. *)
Theorem failed_fetch_reads_as_no_data (E : Capabilities) :
  (forall coin w,
     topic_fails E (n_topic_requests w) (coin_symbol coin) ->
     exists m w',
       getSocialMetrics E coin w = (Ok m, w') /\
       mentions m = 0%Z /\ interactions m = 0%Z /\ creators m = 0%Z /\
       has_real_data m = false) /\
  (forall ev c jobId coins w,
     ev_jobId ev = Some (String c jobId) ->
     ev_topCoins ev = Some coins -> coins <> [] ->
     analysis_jobs w !! String c jobId = None ->
     jobs_op E (n_jobs_ops w) = DbOk ->
     (forall n symbol, topic_fails E n symbol) ->
     exists w',
       signalAnalysisWorkflow E ev w
       = (Throw "No coins with complete social data found in top 10", w')).
Proof.
  split.
  - intros coin w Hfail.
    destruct (getSocialMetrics_spec E coin w) as (m & w' & Hrun & _ & Hcnt & _).
    exists m, w'. split; [exact Hrun|].
    assert (Hz : counters m = (0, 0, 0)%Z).
    { rewrite Hcnt. unfold topic_counters. rewrite Hfail. reflexivity. }
    rewrite has_real_data_complete, Hz. unfold counters in Hz. injection Hz as Hm Hi Hc.
    repeat split; assumption.
  - intros ev c jobId coins w Hid Hcoins Hne Hfree Hdb Hfail.
    unfold signalAnalysisWorkflow. rewrite Hid.
    unfold initialize_job, new_Date_toISOString, Date_now, analysis_jobs_insert.
    unfold_M. simpl. rewrite Hdb, Hfree.
    match goal with
    | |- context [select_and_fetch_data E ev ?j ?w0] =>
        destruct (select_and_fetch_data_insufficient E ev j coins w0 Hcoins Hne) as (w' & Hrun & _);
          [apply observations_all_fail, Hfail | rewrite Hrun]
    end.
    exists w'. reflexivity.
Qed.

Lemma failed_fetch_reads_as_no_data_witness :
  exists w',
    signalAnalysisWorkflow Demo.env_offline (Demo.event [Demo.coin "BTC"; Demo.coin "ETH"])
      Demo.empty_world
    = (Throw "No coins with complete social data found in top 10", w').
Proof.
  destruct (failed_fetch_reads_as_no_data Demo.env_offline) as [_ H].
  apply (H (Demo.event [Demo.coin "BTC"; Demo.coin "ETH"]) "j"%char "ob_1"
           [Demo.coin "BTC"; Demo.coin "ETH"] Demo.empty_world).
  - reflexivity.
  - reflexivity.
  - discriminate.
  - reflexivity.
  - reflexivity.
  - intros n symbol. reflexivity.
Defined.

(** ** The fan-out of the scoring step *)

Lemma omap_value_length {A} (rs : list (Result A)) :
  (length (omap value_of rs) + failures rs)%nat = length rs.
Proof.
  unfold failures. induction rs as [|r rs IH]; [reflexivity|].
  rewrite filter_cons. destruct r as [a|e]; csimpl.
  - destruct (decide (has_failed (Ok a))) as [H|_]; [discriminate H|]. simpl. lia.
  - destruct (decide (has_failed (@Throw A e))) as [_|H]; [|exfalso; apply H; reflexivity].
    simpl. lia.
Qed.

Lemma Promise_all_caught (scoreOne : Selected -> M TradingSignal) items w :
  exists w',
    Promise_all
      (map (fun result => try_catch (s ← scoreOne result; mret (Some s)) (fun _ => mret None)) items) w
    = (Ok (map value_of (settled scoreOne items w)), w').
Proof.
  revert w. induction items as [|item rest IH]; intros w; simpl.
  - exists w. reflexivity.
  - unfold_M. destruct (scoreOne item w) as [[s|e] w1]; simpl;
      destruct (IH w1) as (w' & Hrest); rewrite Hrest; exists w'; reflexivity.
Qed.

Lemma fan_out_spec (scoreOne : Selected -> M TradingSignal) items w :
  exists w', fan_out scoreOne items w = (Ok (omap value_of (settled scoreOne items w)), w').
Proof.
  unfold fan_out. destruct (Promise_all_caught scoreOne items w) as (w' & Hall).
  exists w'. unfold_M. rewrite Hall. f_equal. f_equal.
  generalize (settled scoreOne items w). intros rs.
  induction rs as [|[a|e] rs IH]; csimpl; [reflexivity | rewrite IH; reflexivity | exact IH].
Qed.

Lemma settled_pure (scoreOne : Selected -> M TradingSignal) (score : Selected -> Result TradingSignal)
    items w :
  (forall item w0, fst (scoreOne item w0) = score item) ->
  settled scoreOne items w = map score items.
Proof.
  intros Hpure. revert w. induction items as [|item rest IH]; intros w; simpl; [reflexivity|].
  specialize (Hpure item w). destruct (scoreOne item w) as [r w1]. simpl in Hpure.
  rewrite Hpure, IH. reflexivity.
Qed.

Lemma settled_returns (scoreOne : Selected -> M TradingSignal) items w :
  (forall item, returns (scoreOne item)) -> failures (settled scoreOne items w) = 0%nat.
Proof.
  intros Hret. revert w. induction items as [|item rest IH]; intros w; simpl; [reflexivity|].
  destruct (Hret item w) as (s & w1 & Hs). rewrite Hs. unfold failures in *.
  rewrite filter_cons. destruct (decide (has_failed (Ok s))) as [H|_]; [discriminate H|]. apply IH.
Qed.

(** C4.  Over any scoring capability, the fan-out never throws, and it
    returns the values of the invocations that did not fail, in the order of
    the items: with N items of which K fail, N - K results.  When the answer
    of the capability depends on the item alone, the result is the list of
    the items' own answers with the failed ones dropped, so that no item's
    result depends on what the capability does on another item.  The scoring
    step of the workflow, which fans out over [generateTradingSignal], never
    throws either; as that capability never fails, it returns one signal
    for each selected item. *)
Theorem fan_out_drops_failures (E : Capabilities) :
  (forall (scoreOne : Selected -> M TradingSignal) items w,
     exists signals w',
       fan_out scoreOne items w = (Ok signals, w') /\
       signals = omap value_of (settled scoreOne items w) /\
       length signals = (length items - failures (settled scoreOne items w))%nat /\
       (failures (settled scoreOne items w) <= length items)%nat) /\
  (forall (scoreOne : Selected -> M TradingSignal) (score : Selected -> Result TradingSignal) items w,
     (forall item w0, fst (scoreOne item w0) = score item) ->
     fst (fan_out scoreOne items w) = Ok (omap (fun item => value_of (score item)) items)) /\
  (forall jobId socialMetrics w,
     exists signals w',
       generate_ai_signals E jobId socialMetrics w = (Ok signals, w') /\
       length signals = length (filter (fun result => sel_success result = true) socialMetrics)).
Proof.
  split; [|split].
  - intros scoreOne items w. destruct (fan_out_spec scoreOne items w) as (w' & Hrun).
    eexists _, w'. split; [exact Hrun|]. split; [reflexivity|].
    pose proof (omap_value_length (settled scoreOne items w)) as Hlen.
    assert (Hn : length (settled scoreOne items w) = length items).
    { clear. revert w. induction items as [|item rest IH]; intros w; simpl; [reflexivity|].
      destruct (scoreOne item w) as [r w1]. simpl. rewrite IH. reflexivity. }
    lia.
  - intros scoreOne score items w Hpure. destruct (fan_out_spec scoreOne items w) as (w' & Hrun).
    rewrite Hrun. simpl. rewrite (settled_pure scoreOne score items w Hpure).
    f_equal. clear. induction items as [|item rest IH]; csimpl; [reflexivity|].
    rewrite IH. reflexivity.
  - intros jobId socialMetrics w. unfold generate_ai_signals. unfold_M.
    destruct (updateProgress_returns E jobId 4 "AI Signal Generation"
                "Google Gemini analyzing all coins in parallel..." "started" w) as ([] & w1 & Hup).
    rewrite Hup.
    match goal with
    | |- context [fan_out ?f ?items w1] =>
        destruct (fan_out_spec f items w1) as (w2 & Hfan); rewrite Hfan
    end.
    match goal with
    | |- context [updateProgress E jobId 4 ?name ?msg "started" w2] =>
        destruct (updateProgress_returns E jobId 4 name msg "started" w2) as ([] & w3 & Hup2);
          rewrite Hup2
    end.
    eexists _, _. split; [reflexivity|].
    match goal with
    | |- length (omap value_of (settled ?f ?items w1)) = _ =>
        pose proof (omap_value_length (settled f items w1)) as Hlen;
          rewrite (settled_returns f items w1) in Hlen;
          [|intros item; apply generateTradingSignal_returns];
          assert (Hn : length (settled f items w1) = length items)
    end.
    { generalize w1. clear.
      induction (filter (fun result => sel_success result = true) socialMetrics) as [|item rest IH];
        intros w; simpl; [reflexivity|].
      destruct (generateTradingSignal E (sel_symbol item) (sel_metrics item) None w) as [r w2].
      simpl. rewrite IH. reflexivity. }
    lia.
Qed.

Lemma fan_out_drops_failures_witness :
  let score item := if String.eqb (sel_symbol item) "ETH"
                    then Throw "quota exceeded"
                    else Ok (Demo.scored (sel_symbol item) 80) in
  let item symbol := {| sel_symbol := symbol; sel_metrics := Demo.some_metrics; sel_success := true |} in
  fst (fan_out (fun item w => (score item, w)) [item "BTC"; item "ETH"; item "SOL"] Demo.empty_world)
  = Ok [Demo.scored "BTC" 80; Demo.scored "SOL" 80].
Proof.
  intros score item.
  destruct (fan_out_drops_failures Demo.env) as (_ & H & _).
  rewrite (H (fun item w => (score item, w)) score); [reflexivity|].
  intros i w0. reflexivity.
Defined.

(** ** The summary *)

Lemma sort_insert_perm (x : TradingSignal) l :
  sort_insert by_confidence x l ≡ₚ x :: l.
Proof.
  induction l as [|y ys IH]; simpl; [reflexivity|].
  destruct (0 <? by_confidence x y)%Z; [|reflexivity].
  rewrite IH. apply Permutation_swap.
Qed.

Lemma sort_insert_sorted (x : TradingSignal) l :
  Sorted confidence_ge l -> Sorted confidence_ge (sort_insert by_confidence x l).
Proof.
  induction 1 as [|y ys Hs IH Hd]; simpl; [repeat constructor|].
  destruct (0 <? by_confidence x y)%Z eqn:Hlt.
  - apply Z.ltb_lt in Hlt. unfold by_confidence in Hlt. constructor; [exact IH|].
    destruct ys as [|z zs]; simpl.
    + constructor. unfold confidence_ge. lia.
    + destruct (0 <? by_confidence x z)%Z.
      * inversion Hd; subst. constructor. assumption.
      * constructor. unfold confidence_ge. lia.
  - apply Z.ltb_ge in Hlt. unfold by_confidence in Hlt.
    constructor; [constructor; assumption|]. constructor. unfold confidence_ge. lia.
Qed.

Lemma sort_insert_stable (c : Z) (x : TradingSignal) l :
  filter (fun s => confidence s = c) (sort_insert by_confidence x l)
  = filter (fun s => confidence s = c) (x :: l).
Proof.
  induction l as [|y ys IH]; simpl; [reflexivity|].
  destruct (0 <? by_confidence x y)%Z eqn:Hlt; [|reflexivity].
  apply Z.ltb_lt in Hlt. unfold by_confidence in Hlt.
  rewrite (filter_cons _ y), IH, !filter_cons.
  destruct (decide (confidence y = c)), (decide (confidence x = c)); try reflexivity. lia.
Qed.

Lemma sort_insert_lt (x y : TradingSignal) ys :
  (confidence x < confidence y)%Z ->
  sort_insert by_confidence x (y :: ys) = y :: sort_insert by_confidence x ys.
Proof.
  intros Hlt. simpl. replace (0 <? by_confidence x y)%Z with true; [reflexivity|].
  symmetry. apply Z.ltb_lt. unfold by_confidence. lia.
Qed.

Lemma sort_insert_ge (x y : TradingSignal) ys :
  (confidence y <= confidence x)%Z ->
  sort_insert by_confidence x (y :: ys) = x :: y :: ys.
Proof.
  intros Hge. simpl. replace (0 <? by_confidence x y)%Z with false; [reflexivity|].
  symmetry. apply Z.ltb_ge. unfold by_confidence. lia.
Qed.

Lemma Array_sort_perm l : Array_sort by_confidence l ≡ₚ l.
Proof.
  induction l as [|x l IH]; simpl; [reflexivity|].
  change (Array_sort by_confidence (x :: l)) with (sort_insert by_confidence x (Array_sort by_confidence l)).
  rewrite sort_insert_perm, IH. reflexivity.
Qed.

Lemma Array_sort_sorted l : Sorted confidence_ge (Array_sort by_confidence l).
Proof.
  induction l as [|x l IH]; [constructor|].
  change (Array_sort by_confidence (x :: l)) with (sort_insert by_confidence x (Array_sort by_confidence l)).
  apply sort_insert_sorted, IH.
Qed.

Lemma Array_sort_stable (c : Z) l :
  filter (fun s => confidence s = c) (Array_sort by_confidence l)
  = filter (fun s => confidence s = c) l.
Proof.
  induction l as [|x l IH]; [reflexivity|].
  change (Array_sort by_confidence (x :: l)) with (sort_insert by_confidence x (Array_sort by_confidence l)).
  rewrite sort_insert_stable, !filter_cons, IH. reflexivity.
Qed.

(** C5.  On the empty sequence the summary has all its counts at zero and
    no top signal.  On results with the confidences 90, 40, 70, 95 the top
    signals carry 95, 90, 70, in this order.  In general the top signals are
    the first three entries of the results sorted by confidence, descending;
    the sort is stable: results of equal confidence keep the order they had
    in the output of the fan-out. *)
Theorem summarize_top_three :
  summarize []
  = ({| totalAnalyzed := 0; highConfidence := 0; distribution_BUY := 0; distribution_SELL := 0;
        distribution_HOLD := 0; topSignals := [] |}, []) /\
  (forall l, map confidence l = [90; 40; 70; 95]%Z ->
             map top_confidence (topSignals (fst (summarize l))) = [95; 90; 70]%Z) /\
  (forall l,
     let sorted := Array_sort by_confidence l in
     topSignals (fst (summarize l)) = map top_of (take 3 sorted) /\
     sorted ≡ₚ l /\
     Sorted confidence_ge sorted /\
     forall c, filter (fun s => confidence s = c) sorted = filter (fun s => confidence s = c) l).
Proof.
  split; [reflexivity|]. split.
  - intros l Hl.
    destruct l as [|a [|b [|c [|d [|e l]]]]]; try discriminate Hl.
    injection Hl as Ha Hb Hc Hd.
    change (topSignals (fst (summarize [a; b; c; d])))
      with (map top_of (take 3 (Array_sort by_confidence [a; b; c; d]))).
    assert (Hsort : Array_sort by_confidence [a; b; c; d] = [d; a; c; b]).
    { unfold Array_sort. cbn [foldr].
      change (sort_insert by_confidence d []) with [d].
      rewrite (sort_insert_lt c d) by lia. change (sort_insert by_confidence c []) with [c].
      rewrite (sort_insert_lt b d), (sort_insert_lt b c) by lia.
      change (sort_insert by_confidence b []) with [b].
      rewrite (sort_insert_lt a d), (sort_insert_ge a c) by lia. reflexivity. }
    rewrite Hsort. simpl. rewrite Ha, Hc, Hd. reflexivity.
  - intros l sorted. split; [reflexivity|]. split; [apply Array_sort_perm|].
    split; [apply Array_sort_sorted | intros c; apply Array_sort_stable].
Qed.

Lemma summarize_top_three_witness :
  map top_confidence
      (topSignals (fst (summarize [Demo.scored "A" 90; Demo.scored "B" 40; Demo.scored "C" 70;
                                   Demo.scored "D" 95])))
  = [95; 90; 70]%Z.
Proof.
  destruct summarize_top_three as (_ & H & _). apply H. reflexivity.
Defined.

(** C8: the code at a failing input.  The summary step sorts the array
    [tradingSignals] itself, not a copy: after the step its input holds the
    results in another order. *)
Theorem summarize_reorders_tradingSignals :
  let tradingSignals := [Demo.scored "A" 40; Demo.scored "B" 90] in
  snd (summarize tradingSignals) = [Demo.scored "B" 90; Demo.scored "A" 40] /\
  snd (summarize tradingSignals) <> tradingSignals /\
  (forall jobId w,
     fst (generate_summary Demo.env jobId tradingSignals w)
     = Ok (fst (summarize tradingSignals), [Demo.scored "B" 90; Demo.scored "A" 40])).
Proof.
  split; [reflexivity|]. split; [discriminate|].
  intros jobId w. unfold generate_summary. unfold_M.
  destruct (updateProgress_returns Demo.env jobId 6 "Generating Summary"
              "Creating analysis summary and preparing notifications..." "started" w)
    as ([] & w1 & Hup).
  rewrite Hup. reflexivity.
Qed.

(** ** Saving the results and completing the job *)

#[global] Instance job_kept_preorder jobId : PreOrder (job_kept jobId).
Proof. split; [intros w H; exact H | intros a b c Hab Hbc H; auto]. Qed.

Lemma quiet_job_kept jobId {A} (m : M A) : steps quiet m -> steps (job_kept jobId) m.
Proof.
  intros Hm w r w' H [row Hrow]. destruct (Hm w r w' H) as [Hjobs _].
  exists row. rewrite Hjobs. exact Hrow.
Qed.

#[global] Hint Extern 5 (steps (job_kept _) _) => apply quiet_job_kept : effects.

Section Saving.

Context (E : Capabilities).

Lemma updateProgress_job_kept id jobId k name message st :
  steps (job_kept id) (updateProgress E jobId k name message st).
Proof.
  intros w r w' H Hjob. unfold updateProgress, new_Date_toISOString, Date_now, analysis_jobs_update in H.
  unfold_M. simpl in H. unfold has_job in *.
  destruct (jobs_op E (n_jobs_ops w)); [destruct (analysis_jobs w !! jobId) eqn:Hrow| |];
    inversion H; subst; simpl; try exact Hjob.
  destruct (decide (jobId = id)) as [->|Hne].
  - rewrite lookup_insert_eq. eauto.
  - rewrite lookup_insert_ne by exact Hne. exact Hjob.
Qed.

Hint Resolve updateProgress_job_kept : effects.

Lemma save_loop_job_kept id jobId total i signals saveResults :
  steps (job_kept id) (save_loop E jobId total i signals saveResults).
Proof.
  revert i saveResults. induction signals as [|s rest IH]; intros i saveResults; simpl; walk.
Qed.

Lemma save_to_database_job_kept id jobId tradingSignals :
  steps (job_kept id) (save_to_database E jobId tradingSignals).
Proof. pose proof save_loop_job_kept. unfold save_to_database. walk. Qed.

Lemma generate_summary_job_kept id jobId tradingSignals :
  steps (job_kept id) (generate_summary E jobId tradingSignals).
Proof. unfold generate_summary. walk. Qed.

Lemma send_notifications_job_kept id jobId tradingSignals :
  steps (job_kept id) (send_notifications E jobId tradingSignals).
Proof.
  unfold send_notifications.
  destruct (0 <? length (filter (fun s => (70 <= confidence s)%Z) tradingSignals))%nat; [|walk].
  apply pre_bind; [tc_solve | walk | intros _].
  apply pre_bind; [tc_solve | | intros; walk].
  apply quiet_job_kept, pre_Promise_all; [tc_solve|].
  apply Forall_map, Forall_forall. intros s _. simpl. walk.
Qed.

Lemma send_notifications_returns jobId tradingSignals :
  returns (send_notifications E jobId tradingSignals).
Proof.
  unfold send_notifications.
  destruct (0 <? length (filter (fun s => (70 <= confidence s)%Z) tradingSignals))%nat;
    [|apply returns_mret].
  apply returns_bind; [apply updateProgress_returns | intros _].
  apply returns_bind; [|intros; apply returns_mret].
  apply returns_Promise_all, Forall_map, Forall_forall. intros s _. simpl.
  apply returns_try_catch. intros. apply returns_mret.
Qed.

(** One iteration of the save loop. *)
Lemma save_iteration jobId (total i : nat) s (saveResults : list SaveResult)
    (k : list SaveResult -> M (list SaveResult)) w :
  exists w1,
    (try_catch
       (error ← trading_signals_insert E s;
        match error with
        | Some e => throw e
        | None =>
            let pushed := saveResults ++ [{| save_symbol := sig_symbol s; save_success := true |}] in
            try_catch
              (updateProgress E jobId 5 "Saving Results"
                 ("Saved " ++ pretty (i + 1)%nat ++ "/" ++ pretty total ++ " signals to database...")%string
                 "started";;
               mret pushed)
              (fun _ => mret (pushed ++ [{| save_symbol := sig_symbol s; save_success := false |}]))
        end)
       (fun _ => mret (saveResults ++ [{| save_symbol := sig_symbol s; save_success := false |}]))
     ≫= k) w
    = k (saveResults ++ [{| save_symbol := sig_symbol s;
                            save_success := insert_succeeds E (n_signal_ops w) s |}]) w1 /\
    n_signal_ops w1 = S (n_signal_ops w).
Proof.
  unfold trading_signals_insert, insert_succeeds. unfold_M.
  destruct (signals_insert E (n_signal_ops w) s) as [|e|e].
  - match goal with
    | |- context [updateProgress E jobId 5 ?name ?msg "started" ?w0] =>
        destruct (updateProgress_returns E jobId 5 name msg "started" w0) as ([] & w1 & Hup);
          pose proof (updateProgress_jobs_only E _ _ _ _ _ _ _ _ Hup) as (_ & _ & _ & Hn & _);
          rewrite Hup
    end.
    exists w1. split; [reflexivity | exact Hn].
  - eexists. split; reflexivity.
  - eexists. split; reflexivity.
Qed.

Lemma save_loop_spec jobId total signals : forall i saveResults w,
  exists w',
    save_loop E jobId total i signals saveResults w
    = (Ok (saveResults ++ save_flags E (n_signal_ops w) signals), w').
Proof.
  induction signals as [|s rest IH]; intros i saveResults w; cbn [save_loop save_flags].
  - exists w. rewrite app_nil_r. reflexivity.
  - destruct (save_iteration jobId total i s saveResults
                (fun r => save_loop E jobId total (S i) rest r) w) as (w1 & Hstep & Hn).
    cbv beta zeta in Hstep. rewrite Hstep.
    destruct (IH (S i) (saveResults ++ [{| save_symbol := sig_symbol s;
                                           save_success := insert_succeeds E (n_signal_ops w) s |}]) w1)
      as (w' & Hrest).
    exists w'. rewrite Hrest, Hn, <- app_assoc. reflexivity.
Qed.

Lemma save_to_database_spec jobId tradingSignals w :
  exists w',
    save_to_database E jobId tradingSignals w
    = (Ok (save_flags E (n_signal_ops w) tradingSignals), w').
Proof.
  unfold save_to_database. unfold_M.
  match goal with
  | |- context [updateProgress E jobId 5 ?name ?msg "started" w] =>
      destruct (updateProgress_returns E jobId 5 name msg "started" w) as ([] & w1 & Hup);
        pose proof (updateProgress_jobs_only E _ _ _ _ _ _ _ _ Hup) as (_ & _ & _ & Hn & _);
        rewrite Hup
  end.
  destruct (save_loop_spec jobId (length tradingSignals) tradingSignals 0 [] w1) as (w' & Hloop).
  exists w'. rewrite Hloop, Hn. reflexivity.
Qed.

Lemma complete_job_spec jobId startTime tradingSignals summary w :
  (forall n, jobs_op E n = DbOk) -> has_job jobId w ->
  exists w' row,
    complete_job E jobId startTime tradingSignals summary w = (Ok tt, w') /\
    analysis_jobs w' !! jobId = Some row /\
    status row = "completed" /\ progress_percentage row = 100%Z /\
    signals_generated row = Some (Z.of_nat (length tradingSignals)) /\
    alerts_generated row = Some (highConfidence summary).
Proof.
  intros Hdb [row0 Hrow].
  unfold complete_job, updateProgress, new_Date_toISOString, Date_now, analysis_jobs_update.
  unfold_M. simpl. rewrite Hdb, Hrow. simpl. rewrite Hdb. simpl. rewrite lookup_insert_eq.
  eexists _, _. split; [reflexivity|]. simpl. rewrite lookup_insert_eq.
  split; [reflexivity|]. repeat split.
Qed.

Lemma persist_and_complete_spec jobId startTime tradingSignals w :
  (forall n, jobs_op E n = DbOk) -> has_job jobId w ->
  exists w' row,
    persist_and_complete E jobId startTime tradingSignals w
    = (Ok (save_flags E (n_signal_ops w) tradingSignals,
           fst (summarize tradingSignals), snd (summarize tradingSignals)), w') /\
    analysis_jobs w' !! jobId = Some row /\
    status row = "completed" /\ progress_percentage row = 100%Z /\
    signals_generated row = Some (Z.of_nat (length tradingSignals)).
Proof.
  intros Hdb Hjob. unfold persist_and_complete.
  destruct (save_to_database_spec jobId tradingSignals w) as (w1 & Hsave).
  pose proof (save_to_database_job_kept jobId jobId tradingSignals w _ _ Hsave Hjob) as Hjob1.
  unfold mbind at 1. unfold M_bind at 1. rewrite Hsave.
  assert (Hsum : exists w2, generate_summary E jobId tradingSignals w1
                            = (Ok (summarize tradingSignals), w2)).
  { unfold generate_summary. unfold_M.
    destruct (updateProgress_returns E jobId 6 "Generating Summary"
                "Creating analysis summary and preparing notifications..." "started" w1)
      as ([] & w2 & Hup).
    rewrite Hup. exists w2. reflexivity. }
  destruct Hsum as (w2 & Hsum).
  pose proof (generate_summary_job_kept jobId jobId tradingSignals w1 _ _ Hsum Hjob1) as Hjob2.
  unfold mbind at 1. unfold M_bind at 1. rewrite Hsum.
  destruct (summarize tradingSignals) as [summary sorted] eqn:Hsummarize.
  destruct (send_notifications_returns jobId sorted w2) as ([] & w3 & Hsend).
  pose proof (send_notifications_job_kept jobId jobId sorted w2 _ _ Hsend Hjob2) as Hjob3.
  unfold mbind at 1. unfold M_bind at 1. rewrite Hsend.
  destruct (complete_job_spec jobId startTime sorted summary w3 Hdb Hjob3)
    as (w4 & row & Hdone & Hrow & Hst & Hpct & Hgen & _).
  unfold mbind at 1. unfold M_bind at 1. rewrite Hdone.
  exists w4, row. split; [reflexivity|]. split; [exact Hrow|]. split; [exact Hst|].
  split; [exact Hpct|]. rewrite Hgen. do 2 f_equal.
  assert (Hperm : sorted ≡ₚ tradingSignals).
  { unfold summarize in Hsummarize. injection Hsummarize as _ <-. apply Array_sort_perm. }
  rewrite Hperm. reflexivity.
Qed.

End Saving.

(** C1, as the code has it.  In a run with three scored results in which
    the second insert into [trading_signals] fails and the other two
    succeed, with the job's row in place and the job table answering, the
    save step reports success, failure, success; the job reaches the status
    [completed]; and [signals_generated] is 3, the number of scored results,
    whatever was persisted. *)
Theorem signals_generated_counts_scored (E : Capabilities) (jobId : string) (startTime : Z)
    (s1 s2 s3 : TradingSignal) (w : World) :
  (forall n, jobs_op E n = DbOk) ->
  has_job jobId w ->
  signals_insert E (n_signal_ops w) s1 = DbOk ->
  signals_insert E (S (n_signal_ops w)) s2 <> DbOk ->
  signals_insert E (S (S (n_signal_ops w))) s3 = DbOk ->
  exists summary sorted w' row,
    persist_and_complete E jobId startTime [s1; s2; s3] w
    = (Ok ([ {| save_symbol := sig_symbol s1; save_success := true |};
             {| save_symbol := sig_symbol s2; save_success := false |};
             {| save_symbol := sig_symbol s3; save_success := true |} ],
           summary, sorted), w') /\
    analysis_jobs w' !! jobId = Some row /\
    status row = "completed" /\
    signals_generated row = Some 3%Z.
Proof.
  intros Hdb Hjob H1 H2 H3.
  destruct (persist_and_complete_spec E jobId startTime [s1; s2; s3] w Hdb Hjob)
    as (w' & row & Hrun & Hrow & Hst & _ & Hgen).
  exists (fst (summarize [s1; s2; s3])), (snd (summarize [s1; s2; s3])), w', row.
  split; [|auto].
  rewrite Hrun. cbn [save_flags]. unfold insert_succeeds. rewrite H1, H3.
  destruct (signals_insert E (S (n_signal_ops w)) s2); [contradiction | reflexivity | reflexivity].
Qed.

Lemma signals_generated_counts_scored_witness :
  exists summary sorted w' row,
    persist_and_complete Demo.env "job_1" 1000
      [Demo.scored "BTC" 90; Demo.scored "ETH" 80; Demo.scored "SOL" 75]
      (Demo.world_with Demo.running_job)
    = (Ok ([ {| save_symbol := "BTC"; save_success := true |};
             {| save_symbol := "ETH"; save_success := false |};
             {| save_symbol := "SOL"; save_success := true |} ],
           summary, sorted), w') /\
    analysis_jobs w' !! "job_1" = Some row /\
    status row = "completed" /\
    signals_generated row = Some 3%Z.
Proof.
  apply (signals_generated_counts_scored Demo.env "job_1" 1000
           (Demo.scored "BTC" 90) (Demo.scored "ETH" 80) (Demo.scored "SOL" 75)
           (Demo.world_with Demo.running_job)).
  - intros n. reflexivity.
  - exists Demo.running_job. vm_compute. reflexivity.
  - reflexivity.
  - discriminate.
  - reflexivity.
Defined.

(** C1, as stated, fails: with three scored results of which two are
    persisted, the completed job carries [signals_generated] = 3, not 2. *)
Lemma signals_generated_is_not_persisted_count :
  let run :=
    persist_and_complete Demo.env "job_1" 1000
      [Demo.scored "BTC" 90; Demo.scored "ETH" 80; Demo.scored "SOL" 75]
      (Demo.world_with Demo.running_job) in
  (fun out => map save_success (fst (fst out))) <$> value_of (fst run) = Some [true; false; true] /\
  length (trading_signals (snd run)) = 2%nat /\
  status <$> analysis_jobs (snd run) !! "job_1" = Some "completed" /\
  signals_generated <$> analysis_jobs (snd run) !! "job_1" = Some (Some 3%Z) /\
  signals_generated <$> analysis_jobs (snd run) !! "job_1" <> Some (Some 2%Z).
Proof. vm_compute. repeat split. discriminate. Qed.

(** * Further properties of the code *)

(** ** The scoring capability, continued *)

Lemma fallback_rule_confidence m s : fallback_rule m s -> (0 <= confidence s <= 100)%Z.
Proof.
  unfold fallback_rule. intros (Hn & Hbuy & Hsell & Hhold).
  destruct (Z_le_gt_dec 3 (positiveSignals m)) as [H3|H3].
  - destruct (Hbuy H3) as [_ ->]. lia.
  - destruct (Z_le_gt_dec (positiveSignals m) 1) as [H1|H1].
    + destruct (Hsell H1) as [_ ->]. lia.
    + destruct Hhold as [_ ->]; lia.
Qed.

(** X1.  Whatever the model answers, the signal [generateTradingSignal]
    returns has a confidence between 0 and 100: a parsed confidence is
    clamped, and the fallback rule yields 50, 60, 90 or 100. *)
Theorem generateTradingSignal_confidence_range (E : Capabilities) (symbol : string)
    (currentMetrics : SocialMetrics) (historicalMetrics : option (list SocialMetrics))
    (w : World) :
  exists s w',
    generateTradingSignal E symbol currentMetrics historicalMetrics w = (Ok s, w') /\
    (0 <= confidence s <= 100)%Z.
Proof.
  unfold generateTradingSignal, getGeminiClient.
  assert (Hfall : forall w1, exists s w',
            createFallbackSignal E symbol currentMetrics w1 = (Ok s, w') /\
            (0 <= confidence s <= 100)%Z).
  { intros w1. destruct (createFallbackSignal_spec E symbol currentMetrics w1)
      as (s & w' & Hs & _ & _ & Hrule). exists s, w'. split; [exact Hs|].
    eapply fallback_rule_confidence, Hrule. }
  destruct (GOOGLE_GEMINI_API_KEY E) as [[|c key]|] eqn:Hkey.
  - unfold_M. simpl. apply Hfall.
  - unfold_M. simpl. unfold model_generateContent.
    destruct (generateContent E (n_gemini_calls w) _) as [e|text|] eqn:Hcall.
    + apply Hfall.
    + unfold parseSignalResponse, new_Date_toISOString, Date_now. unfold_M. simpl.
      eexists _, _. split; [reflexivity|]. simpl. lia.
    + unfold parseSignalResponse. unfold_M. simpl.
      destruct (Hfall (set_n_gemini_calls (S (n_gemini_calls w)) w)) as (s & w' & Hrun & ?).
      rewrite Hrun. exists s, w'. auto.
  - unfold_M. simpl. apply Hfall.
Qed.

(** ** The summary, continued *)

Lemma distribution_total (l : list TradingSignal) :
  (length (filter (fun s => signal s = BUY) l) + length (filter (fun s => signal s = SELL) l)
   + length (filter (fun s => signal s = HOLD) l))%nat = length l.
Proof.
  induction l as [|x l IH]; [reflexivity|].
  rewrite !filter_cons. destruct (signal x) eqn:Hs; simpl;
    repeat match goal with
           | |- context [decide (?a = ?b)] => destruct (decide (a = b)); try discriminate; try congruence
           end; simpl; lia.
Qed.

Lemma StronglySorted_app_dominates {A} (R : A -> A -> Prop) (l1 l2 : list A) :
  StronglySorted R (l1 ++ l2) -> Forall (fun x => Forall (R x) l2) l1.
Proof.
  induction l1 as [|x l1 IH]; simpl; intros H; [constructor|].
  inversion H as [|? ? Hs Hall]; subst. constructor; [|apply IH, Hs].
  apply Forall_app in Hall. apply Hall.
Qed.

Lemma confidence_ge_transitive : Relations_1.Transitive confidence_ge.
Proof. intros a b c. unfold confidence_ge. lia. Qed.

Lemma summarize_facts (l : list TradingSignal) :
  let s := fst (summarize l) in
  totalAnalyzed s = Z.of_nat (length l) /\
  (distribution_BUY s + distribution_SELL s + distribution_HOLD s)%Z = totalAnalyzed s /\
  (0 <= highConfidence s <= totalAnalyzed s)%Z /\
  length (topSignals s) = Nat.min 3 (length l) /\
  snd (summarize l) ≡ₚ l /\
  (forall t x, t ∈ topSignals s -> x ∈ drop 3 (snd (summarize l)) ->
               (confidence x <= top_confidence t)%Z).
Proof.
  cbn zeta. unfold summarize. cbn [fst snd totalAnalyzed distribution_BUY distribution_SELL
                                   distribution_HOLD highConfidence topSignals].
  split; [reflexivity|]. split; [rewrite <- !Nat2Z.inj_add, distribution_total; reflexivity|].
  split.
  { pose proof (length_filter (fun s => (70 <= confidence s)%Z) l). lia. }
  change (Array_sort (fun a b => (confidence b - confidence a)%Z) l) with (Array_sort by_confidence l).
  split.
  { rewrite length_map, length_take, (Permutation_length (Array_sort_perm l)). reflexivity. }
  split; [apply Array_sort_perm|].
  intros t x Ht Hx. apply list_elem_of_fmap in Ht. destruct Ht as (y & -> & Hy). simpl.
  pose proof (Sorted_StronglySorted confidence_ge_transitive (Array_sort_sorted l)) as Hss.
  rewrite <- (take_drop 3 (Array_sort by_confidence l)) in Hss.
  pose proof (StronglySorted_app_dominates _ _ _ Hss) as Hdom.
  rewrite Forall_forall in Hdom. specialize (Hdom y Hy).
  rewrite Forall_forall in Hdom. exact (Hdom x Hx).
Qed.

(** X2.  The summary is consistent with the results it is built from: the
    total is their number, the three classes add up to the total, the
    high-confidence count is at most the total, there are min(3, total) top
    signals, every result left out of the top has a confidence no higher
    than any top signal, and the array the step leaves behind holds the same
    results. *)
Theorem summarize_consistent (l : list TradingSignal) :
  let s := fst (summarize l) in
  totalAnalyzed s = Z.of_nat (length l) /\
  (distribution_BUY s + distribution_SELL s + distribution_HOLD s)%Z = totalAnalyzed s /\
  (0 <= highConfidence s <= totalAnalyzed s)%Z /\
  length (topSignals s) = Nat.min 3 (length l) /\
  snd (summarize l) ≡ₚ l /\
  (forall t x, t ∈ topSignals s -> x ∈ drop 3 (snd (summarize l)) ->
               (confidence x <= top_confidence t)%Z).
Proof. apply summarize_facts. Qed.

(** ** Saving the results, continued *)

Section SavingRows.

Context (E : Capabilities).

Lemma save_iteration_rows jobId (total i : nat) s (saveResults : list SaveResult)
    (k : list SaveResult -> M (list SaveResult)) w :
  exists w1,
    (try_catch
       (error ← trading_signals_insert E s;
        match error with
        | Some e => throw e
        | None =>
            let pushed := saveResults ++ [{| save_symbol := sig_symbol s; save_success := true |}] in
            try_catch
              (updateProgress E jobId 5 "Saving Results"
                 ("Saved " ++ pretty (i + 1)%nat ++ "/" ++ pretty total ++ " signals to database...")%string
                 "started";;
               mret pushed)
              (fun _ => mret (pushed ++ [{| save_symbol := sig_symbol s; save_success := false |}]))
        end)
       (fun _ => mret (saveResults ++ [{| save_symbol := sig_symbol s; save_success := false |}]))
     ≫= k) w
    = k (saveResults ++ [{| save_symbol := sig_symbol s;
                            save_success := insert_succeeds E (n_signal_ops w) s |}]) w1 /\
    n_signal_ops w1 = S (n_signal_ops w) /\
    trading_signals w1
    = trading_signals w ++ (if insert_succeeds E (n_signal_ops w) s then [s] else []).
Proof.
  unfold trading_signals_insert, insert_succeeds. unfold_M.
  destruct (signals_insert E (n_signal_ops w) s) as [|e|e].
  - match goal with
    | |- context [updateProgress E jobId 5 ?name ?msg "started" ?w0] =>
        destruct (updateProgress_returns E jobId 5 name msg "started" w0) as ([] & w1 & Hup);
          pose proof (updateProgress_jobs_only E _ _ _ _ _ _ _ _ Hup) as (Hts & _ & _ & Hn & _);
          rewrite Hup
    end.
    exists w1. split; [reflexivity|]. split; [exact Hn | exact Hts].
  - eexists. split; [reflexivity|]. split; [reflexivity|]. simpl. rewrite app_nil_r. reflexivity.
  - eexists. split; [reflexivity|]. split; [reflexivity|]. simpl. rewrite app_nil_r. reflexivity.
Qed.

Lemma save_loop_rows jobId total signals : forall i saveResults w,
  exists w',
    save_loop E jobId total i signals saveResults w
    = (Ok (saveResults ++ save_flags E (n_signal_ops w) signals), w') /\
    n_signal_ops w' = (n_signal_ops w + length signals)%nat /\
    trading_signals w' = trading_signals w ++ stored_signals E (n_signal_ops w) signals.
Proof.
  induction signals as [|s rest IH]; intros i saveResults w;
    cbn [save_loop save_flags stored_signals length].
  - exists w. rewrite !app_nil_r, Nat.add_0_r. auto.
  - destruct (save_iteration_rows jobId total i s saveResults
                (fun r => save_loop E jobId total (S i) rest r) w) as (w1 & Hstep & Hn & Hrows).
    cbv beta zeta in Hstep. rewrite Hstep.
    destruct (IH (S i) (saveResults ++ [{| save_symbol := sig_symbol s;
                                           save_success := insert_succeeds E (n_signal_ops w) s |}]) w1)
      as (w' & Hrest & Hn' & Hrows').
    exists w'. rewrite Hrest, Hn', Hrows', Hrows, Hn, <- !app_assoc.
    split; [reflexivity|]. split; [lia | reflexivity].
Qed.

Lemma save_flags_facts n signals :
  length (save_flags E n signals) = length signals /\
  map save_symbol (save_flags E n signals) = map sig_symbol signals /\
  length (stored_signals E n signals)
  = length (filter (fun r => save_success r = true) (save_flags E n signals)).
Proof.
  revert n. induction signals as [|s rest IH]; intros n; cbn [save_flags stored_signals]; [auto|].
  destruct (IH (S n)) as (Hlen & Hsym & Hstored).
  split; [simpl; rewrite Hlen; reflexivity|]. split; [simpl; rewrite Hsym; reflexivity|].
  rewrite filter_cons, length_app, Hstored. simpl save_success.
  destruct (insert_succeeds E n s).
  - destruct (decide (true = true)); [reflexivity | congruence].
  - destruct (decide (false = true)); [discriminate | reflexivity].
Qed.

End SavingRows.

(** X3.  The save step never throws and reports one flag per signal, in
    the order of the signals and under their symbols.  What it appends to
    [trading_signals] is exactly the signals whose insert succeeded, in
    order; their number is the number of flags that say success.  Every
    signal costs one insert, failed or not: nothing is retried. *)
Theorem save_to_database_reports_each_signal (E : Capabilities) (jobId : string)
    (tradingSignals : list TradingSignal) (w : World) :
  exists flags w',
    save_to_database E jobId tradingSignals w = (Ok flags, w') /\
    length flags = length tradingSignals /\
    map save_symbol flags = map sig_symbol tradingSignals /\
    trading_signals w'
    = trading_signals w ++ stored_signals E (n_signal_ops w) tradingSignals /\
    length (stored_signals E (n_signal_ops w) tradingSignals)
    = length (filter (fun r => save_success r = true) flags) /\
    n_signal_ops w' = (n_signal_ops w + length tradingSignals)%nat.
Proof.
  unfold save_to_database. unfold_M.
  match goal with
  | |- context [updateProgress E jobId 5 ?name ?msg "started" w] =>
      destruct (updateProgress_returns E jobId 5 name msg "started" w) as ([] & w1 & Hup);
        pose proof (updateProgress_jobs_only E _ _ _ _ _ _ _ _ Hup) as (Hts & _ & _ & Hn & _);
        rewrite Hup
  end.
  destruct (save_loop_rows E jobId (length tradingSignals) tradingSignals 0 [] w1)
    as (w' & Hloop & Hn' & Hrows).
  destruct (save_flags_facts E (n_signal_ops w) tradingSignals) as (Hlen & Hsym & Hstored).
  exists (save_flags E (n_signal_ops w) tradingSignals), w'.
  rewrite Hloop, Hn. split; [reflexivity|]. repeat split; try assumption.
  - rewrite Hrows, Hts, Hn. reflexivity.
  - rewrite Hn', Hn. reflexivity.
Qed.

(** ** Notifications *)

Section Notifications.

Context (E : Capabilities).

Lemma sendSignalAlert_spec s w :
  exists sent w',
    sendSignalAlert E s w = (Ok sent, w') /\
    n_telegram w' = (n_telegram w + (if telegram_configured E then 1 else 0))%nat /\
    trading_signals w' = trading_signals w /\
    (telegram_configured E = false -> sent = false /\ w' = w).
Proof.
  unfold sendSignalAlert, sendTelegramMessage.
  destruct (telegram_configured E).
  - destruct (telegram_fetch E (n_telegram w) _); eexists _, _;
      (split; [reflexivity|]); simpl; (split; [lia|]); (split; [reflexivity|]); discriminate.
  - eexists _, _. split; [reflexivity|]. split; [lia|]. auto.
Qed.

Lemma alerts_all_settled (signals : list TradingSignal) : forall w,
  exists results w',
    Promise_all
      (map (fun s => try_catch (sent ← sendSignalAlert E s; mret (Some sent)) (fun _ => mret None))
           signals) w
    = (Ok results, w') /\
    n_telegram w'
    = (n_telegram w + (if telegram_configured E then length signals else 0))%nat /\
    trading_signals w' = trading_signals w.
Proof.
  induction signals as [|s rest IH]; intros w; cbn [map Promise_all length].
  - exists [], w. split; [reflexivity|]. split; [destruct (telegram_configured E); lia | reflexivity].
  - destruct (sendSignalAlert_spec s w) as (sent & w1 & Hs & Hn & Hts & _).
    unfold_M. rewrite Hs.
    destruct (IH w1) as (results & w' & Hrest & Hn' & Hts').
    unfold_M. rewrite Hrest. eexists _, w'. split; [reflexivity|].
    split; [rewrite Hn', Hn; destruct (telegram_configured E); lia | congruence].
Qed.

End Notifications.

(** X4.  The notification step never throws.  It calls the messenger once
    for each signal whose confidence is at least 70 when the bot is
    configured, and not at all when it is not; it stores no signal.  When no
    signal has a confidence of 70 or more, the step does nothing at all: it
    writes no progress update either. *)
Theorem send_notifications_only_high_confidence (E : Capabilities) (jobId : string)
    (tradingSignals : list TradingSignal) (w : World) :
  let high := filter (fun s => (70 <= confidence s)%Z) tradingSignals in
  exists w',
    send_notifications E jobId tradingSignals w = (Ok tt, w') /\
    n_telegram w' = (n_telegram w + (if telegram_configured E then length high else 0))%nat /\
    trading_signals w' = trading_signals w /\
    (high = [] -> w' = w).
Proof.
  cbn zeta. unfold send_notifications.
  destruct (filter (fun s => (70 <= confidence s)%Z) tradingSignals) as [|h high] eqn:Hhigh.
  - exists w. simpl. split; [reflexivity|].
    split; [destruct (telegram_configured E); lia | auto].
  - change (0 <? length (h :: high))%nat with true. cbv iota. unfold_M.
    match goal with
    | |- context [updateProgress E jobId 6 ?name ?msg "started" w] =>
        destruct (updateProgress_returns E jobId 6 name msg "started" w) as ([] & w1 & Hup);
          pose proof (updateProgress_jobs_only E _ _ _ _ _ _ _ _ Hup) as (Hts & _ & _ & _ & Hn);
          rewrite Hup
    end.
    destruct (alerts_all_settled E (h :: high) w1) as (results & w' & Hall & Hn' & Hts').
    unfold_M. rewrite Hall. exists w'. split; [reflexivity|].
    split; [rewrite Hn', Hn; reflexivity|]. split; [congruence | discriminate].
Qed.

Lemma send_notifications_only_high_confidence_witness :
  send_notifications Demo.env "job_1" [Demo.scored "A" 40; Demo.scored "B" 69] Demo.empty_world
  = (Ok tt, Demo.empty_world).
Proof.
  destruct (send_notifications_only_high_confidence Demo.env "job_1"
              [Demo.scored "A" 40; Demo.scored "B" 69] Demo.empty_world)
    as (w' & Hrun & _ & _ & Hsame).
  rewrite Hrun, (Hsame eq_refl). reflexivity.
Defined.

(** ** Runs of the workflow *)

Lemma bind_Ok_inv {A B} (m : M A) (k : A -> M B) w b w' :
  (m ≫= k) w = (Ok b, w') -> exists a w1, m w = (Ok a, w1) /\ k a w1 = (Ok b, w').
Proof.
  unfold_M. destruct (m w) as [[a|e] w1]; intros H; [eauto | discriminate].
Qed.

Lemma bind_Throw_inv {A B} (m : M A) (k : A -> M B) w e w' :
  (m ≫= k) w = (Throw e, w') ->
  m w = (Throw e, w') \/ exists a w1, m w = (Ok a, w1) /\ k a w1 = (Throw e, w').
Proof.
  unfold_M. destruct (m w) as [[a|e0] w1]; intros H; [right; eauto | left; inversion H; reflexivity].
Qed.

#[global] Instance nothing_scored_preorder : PreOrder nothing_scored.
Proof.
  split.
  - intros w. unfold nothing_scored. auto.
  - intros a b c (?&?&?&?) (?&?&?&?). unfold nothing_scored. repeat split; congruence.
Qed.

#[global] Instance row_untouched_preorder id : PreOrder (row_untouched id).
Proof.
  split; [intros w; reflexivity|]. intros a b c Hab Hbc. unfold row_untouched in *. congruence.
Qed.

#[global] Instance signals_appended_preorder : PreOrder signals_appended.
Proof. unfold signals_appended. split; [intros w; reflexivity|]. intros a b c. apply transitivity. Qed.

Lemma jobs_only_nothing_scored {A} (m : M A) : steps jobs_only m -> steps nothing_scored m.
Proof.
  intros Hm w r w' H. destruct (Hm w r w' H) as (?&?&?&?&?). repeat split; assumption.
Qed.

Lemma jobs_only_signals_appended {A} (m : M A) : steps jobs_only m -> steps signals_appended m.
Proof.
  intros Hm w r w' H. destruct (Hm w r w' H) as (Hts&_). unfold signals_appended. rewrite Hts.
  reflexivity.
Qed.

Lemma quiet_row_untouched id {A} (m : M A) : steps quiet m -> steps (row_untouched id) m.
Proof. intros Hm w r w' H. destruct (Hm w r w' H) as [Hjobs _]. unfold row_untouched. congruence. Qed.

Section Frames.

Context (E : Capabilities).

Lemma analysis_jobs_insert_jobs_only row : steps jobs_only (analysis_jobs_insert E row).
Proof.
  intros w r w' H. unfold analysis_jobs_insert in H.
  destruct (jobs_op E (n_jobs_ops w)); [destruct (analysis_jobs w !! job_id row)| |];
    inversion H; subst; repeat split.
Qed.

Lemma initialize_job_jobs_only ev jobId : steps jobs_only (initialize_job E ev jobId).
Proof. pose proof analysis_jobs_insert_jobs_only. unfold initialize_job. walk. Qed.

Lemma count_request_nothing_scored : steps nothing_scored count_request.
Proof. intros w r w' H. inversion H; subst. repeat split. Qed.

Lemma Date_now_nothing_scored : steps nothing_scored (Date_now E).
Proof. apply jobs_only_nothing_scored, Date_now_jobs_only. Qed.

Lemma getSocialMetrics_nothing_scored coin : steps nothing_scored (getSocialMetrics E coin).
Proof.
  pose proof count_request_nothing_scored. pose proof Date_now_nothing_scored.
  assert (Hreq : forall endpoint, steps nothing_scored (makeRequest E endpoint)).
  { intros endpoint. unfold makeRequest, getApiKey.
    apply pre_bind; [tc_solve | walk | intros n].
    apply pre_try_catch; [tc_solve | | intros; walk].
    apply pre_bind; [tc_solve | walk | intros apiKey].
    destruct (fetch E n _) as [e|response]; [walk|].
    destruct (negb (response_ok response)); walk. }
  unfold getSocialMetrics, fetchTopicData. walk.
Qed.

Lemma updateProgress_nothing_scored jobId k name message st :
  steps nothing_scored (updateProgress E jobId k name message st).
Proof. apply jobs_only_nothing_scored, updateProgress_jobs_only. Qed.

Lemma select_loop_nothing_scored jobId coins results :
  steps nothing_scored (select_loop E jobId coins results).
Proof.
  pose proof getSocialMetrics_nothing_scored. pose proof updateProgress_nothing_scored.
  revert results. induction coins as [|coin rest IH]; intros results; simpl.
  - walk.
  - destruct (3 <=? length results)%nat; walk.
Qed.

Lemma select_and_fetch_data_nothing_scored ev jobId :
  steps nothing_scored (select_and_fetch_data E ev jobId).
Proof.
  pose proof select_loop_nothing_scored. pose proof updateProgress_nothing_scored.
  unfold select_and_fetch_data.
  apply pre_bind; [tc_solve | walk | intros _].
  destruct (length (default [] (ev_topCoins ev)) =? 0)%nat; [walk|].
  apply pre_bind; [tc_solve | walk | intros results].
  destruct (length results =? 0)%nat; walk.
Qed.

End Frames.

Section SelectionInvariant.

Context (E : Capabilities).

Lemma getSocialMetrics_carries coin w :
  exists m w',
    getSocialMetrics E coin w = (Ok m, w') /\
    sm_symbol m = coin_symbol coin /\
    altRank m = coin_altRank coin /\
    galaxyScore m = coin_galaxyScore coin.
Proof.
  unfold getSocialMetrics, fetchTopicData, makeRequest, getApiKey, count_request, Date_now.
  unfold_M. simpl.
  destruct (LUNARCRUSH_API_KEY E) as [[|c key]|]; simpl;
    try (eexists _, _; (split; [reflexivity|]); simpl; repeat split; fail).
  destruct (fetch E (n_topic_requests w) _) as [e|response]; simpl;
    [eexists _, _; (split; [reflexivity|]); simpl; repeat split|].
  destruct (response_ok response); simpl.
  - destruct (http_json response) as [e|[data|]]; simpl;
      eexists _, _; (split; [reflexivity|]); simpl; repeat split.
  - destruct (http_status response =? 401)%Z; [|destruct (http_status response =? 429)%Z;
      [|destruct (500 <=? http_status response)%Z]]; simpl;
      eexists _, _; (split; [reflexivity|]); simpl; repeat split.
Qed.

Lemma select_iteration_selected all jobId coin (results : list Selected)
    (k : list Selected -> M (list Selected)) w :
  coin ∈ all -> Forall (selected_from all) results ->
  exists results1 w1,
    (try_catch
       (updateProgress E jobId 2 "Testing Coin Data"
          ("Checking " ++ coin_symbol coin ++ " (" ++ pretty (length results + 1)%nat ++ "/3 found)...")%string
          "started";;
        metrics ← getSocialMetrics E coin;
        if has_real_data metrics
        then mret (results ++ [{| sel_symbol := coin_symbol coin; sel_metrics := metrics; sel_success := true |}])
        else mret results)
       (fun _ => mret results) ≫= k) w = k results1 w1 /\
    Forall (selected_from all) results1.
Proof.
  intros Hin Hall. unfold_M.
  destruct (updateProgress_returns E jobId 2 "Testing Coin Data"
              ("Checking " ++ coin_symbol coin ++ " (" ++ pretty (length results + 1)%nat ++ "/3 found)...")%string
              "started" w) as ([] & w0 & Hup).
  rewrite Hup.
  destruct (getSocialMetrics_carries coin w0) as (m & w1 & Hget & Hsym & Hrank & Hscore).
  rewrite Hget. destruct (has_real_data m) eqn:Hreal.
  - eexists _, w1. split; [reflexivity|]. apply Forall_app. split; [exact Hall|].
    constructor; [|constructor]. unfold selected_from. simpl.
    split; [reflexivity|]. split; [exact Hreal|]. split; [exact Hsym|].
    exists coin. auto.
  - eexists _, w1. split; [reflexivity | exact Hall].
Qed.

Lemma select_loop_selected all jobId coins : forall results w r w',
  coins ⊆ all -> Forall (selected_from all) results ->
  select_loop E jobId coins results w = (r, w') ->
  exists results', r = Ok results' /\ Forall (selected_from all) results'.
Proof.
  induction coins as [|coin rest IH]; intros results w r w' Hsub Hall Hrun;
    cbn [select_loop] in Hrun.
  - inversion Hrun; subst. eauto.
  - destruct (3 <=? length results)%nat.
    + inversion Hrun; subst. eauto.
    + destruct (select_iteration_selected all jobId coin results
                  (fun r => select_loop E jobId rest r) w) as (results1 & w1 & Hstep & Hall1);
        [apply Hsub; left | exact Hall|].
      cbv beta in Hstep. rewrite Hstep in Hrun.
      apply (IH results1 w1 r w'); [|exact Hall1 | exact Hrun].
      intros x Hx. apply Hsub. right. exact Hx.
Qed.

Lemma select_and_fetch_data_Ok_inv ev jobId w results w' :
  select_and_fetch_data E ev jobId w = (Ok results, w') ->
  exists coins,
    ev_topCoins ev = Some coins /\ coins <> [] /\
    (1 <= length results <= 3)%nat /\
    Forall (selected_from coins) results.
Proof.
  intros Hrun.
  destruct (ev_topCoins ev) as [[|coin rest]|] eqn:Hcoins.
  - exfalso. unfold select_and_fetch_data in Hrun. rewrite Hcoins in Hrun.
    apply bind_Ok_inv in Hrun. destruct Hrun as (? & ? & _ & Hthrow). discriminate Hthrow.
  - exists (coin :: rest). split; [reflexivity|]. split; [discriminate|].
    destruct (select_and_fetch_data_spec E ev jobId (coin :: rest) w Hcoins ltac:(discriminate))
      as (results0 & r & w0 & k & Hrun0 & Hr & _ & _ & _ & Htake & _).
    rewrite Hrun in Hrun0. injection Hrun0 as <- <-.
    destruct (length results0 =? 0)%nat eqn:Hlen; [discriminate Hr|].
    injection Hr as <-. apply Nat.eqb_neq in Hlen.
    split.
    + split; [lia|]. rewrite <- (length_map observed results), Htake, length_take. lia.
    + unfold select_and_fetch_data in Hrun. rewrite Hcoins in Hrun.
      apply bind_Ok_inv in Hrun. destruct Hrun as ([] & w1 & _ & Hrun).
      change (length (default [] (Some (coin :: rest))) =? 0)%nat with false in Hrun. cbv iota in Hrun.
      apply bind_Ok_inv in Hrun. destruct Hrun as (found & w2 & Hloop & Hrest).
      destruct (select_loop_selected (coin :: rest) jobId (coin :: rest) [] w1 _ _
                  ltac:(intros x Hx; exact Hx) ltac:(constructor) Hloop)
        as (found' & Hfound & Hsel).
      injection Hfound as <-.
      destruct (length found =? 0)%nat; [discriminate Hrest|].
      apply bind_Ok_inv in Hrest. destruct Hrest as ([] & w3 & _ & Hret).
      inversion Hret; subst. exact Hsel.
  - exfalso. unfold select_and_fetch_data in Hrun. rewrite Hcoins in Hrun.
    apply bind_Ok_inv in Hrun. destruct Hrun as (? & ? & _ & Hthrow). discriminate Hthrow.
Qed.

End SelectionInvariant.

(** X5.  Whenever the selection step returns, it returns between 1 and 3
    items, and each of them was built from one of the candidates of the
    event: it is flagged as a success, its metrics pass the completeness
    test, and it carries the symbol, the AltRank and the Galaxy Score of
    that candidate. *)
Theorem select_returns_candidates_with_data (E : Capabilities) (ev : EventData) (jobId : string)
    (w : World) (results : list Selected) (w' : World) :
  select_and_fetch_data E ev jobId w = (Ok results, w') ->
  exists coins,
    ev_topCoins ev = Some coins /\ coins <> [] /\
    (1 <= length results <= 3)%nat /\
    Forall (selected_from coins) results.
Proof. apply select_and_fetch_data_Ok_inv. Qed.

Lemma select_returns_candidates_with_data_witness :
  exists results coins,
    fst (select_and_fetch_data Demo.env (Demo.event [Demo.coin "DOGE"; Demo.coin "ETH"]) "job_1"
           Demo.empty_world) = Ok results /\
    ev_topCoins (Demo.event [Demo.coin "DOGE"; Demo.coin "ETH"]) = Some coins /\
    Forall (selected_from coins) results.
Proof.
  destruct (select_and_fetch_data Demo.env (Demo.event [Demo.coin "DOGE"; Demo.coin "ETH"]) "job_1"
              Demo.empty_world) as [r w'] eqn:Hrun.
  assert (Hok : exists results, r = Ok results).
  { vm_compute in Hrun. injection Hrun as <- _. eexists. reflexivity. }
  destruct Hok as (results & ->).
  destruct (select_returns_candidates_with_data Demo.env _ _ _ _ _ Hrun)
    as (coins & Hcoins & _ & _ & Hsel).
  exists results, coins. auto.
Defined.

Section WorkflowValues.

Context (E : Capabilities).

Hint Resolve updateProgress_job_kept : effects.

Lemma generate_ai_signals_value jobId socialMetrics w :
  exists signals w',
    generate_ai_signals E jobId socialMetrics w = (Ok signals, w') /\
    length signals = length (filter (fun result => sel_success result = true) socialMetrics).
Proof.
  unfold generate_ai_signals. unfold_M.
  destruct (updateProgress_returns E jobId 4 "AI Signal Generation"
              "Google Gemini analyzing all coins in parallel..." "started" w) as ([] & w1 & Hup).
  rewrite Hup.
  match goal with
  | |- context [fan_out ?f ?items w1] =>
      destruct (fan_out_spec f items w1) as (w2 & Hfan); rewrite Hfan;
        pose proof (omap_value_length (settled f items w1)) as Hlen;
        rewrite (settled_returns f items w1) in Hlen;
        [|intros item; apply generateTradingSignal_returns];
        assert (Hn : length (settled f items w1) = length items)
  end.
  { generalize w1. clear.
    induction (filter (fun result => sel_success result = true) socialMetrics) as [|item rest IH];
      intros w; simpl; [reflexivity|].
    destruct (generateTradingSignal E (sel_symbol item) (sel_metrics item) None w) as [r w2].
    simpl. rewrite IH. reflexivity. }
  match goal with
  | |- context [updateProgress E jobId 4 ?name ?msg "started" w2] =>
      destruct (updateProgress_returns E jobId 4 name msg "started" w2) as ([] & w3 & Hup2);
        rewrite Hup2
  end.
  eexists _, _. split; [reflexivity | lia].
Qed.

Lemma complete_job_returns jobId startTime tradingSignals summary :
  returns (complete_job E jobId startTime tradingSignals summary).
Proof. unfold complete_job. walk_returns. Qed.

Lemma persist_and_complete_value jobId startTime tradingSignals w :
  exists w',
    persist_and_complete E jobId startTime tradingSignals w
    = (Ok (save_flags E (n_signal_ops w) tradingSignals,
           fst (summarize tradingSignals), snd (summarize tradingSignals)), w').
Proof.
  unfold persist_and_complete.
  destruct (save_to_database_spec E jobId tradingSignals w) as (w1 & Hsave).
  unfold mbind at 1. unfold M_bind at 1. rewrite Hsave.
  unfold generate_summary.
  destruct (updateProgress_returns E jobId 6 "Generating Summary"
              "Creating analysis summary and preparing notifications..." "started" w1)
    as ([] & w2 & Hup).
  unfold_M. rewrite Hup.
  destruct (summarize tradingSignals) as [summary sorted].
  destruct (send_notifications_returns E jobId sorted w2) as ([] & w3 & Hsend).
  rewrite Hsend.
  destruct (complete_job_returns jobId startTime sorted summary w3) as ([] & w4 & Hdone).
  rewrite Hdone. exists w4. reflexivity.
Qed.

Lemma initialize_job_inv ev jobId w r w' :
  initialize_job E ev jobId w = (r, w') ->
  (r = Ok jobId /\ has_job jobId w') \/
  (exists e, r = Throw e /\ analysis_jobs w' = analysis_jobs w /\ job_history w' = job_history w).
Proof.
  unfold initialize_job, new_Date_toISOString, Date_now, analysis_jobs_insert. unfold_M. simpl.
  destruct (jobs_op E (n_jobs_ops w)); [destruct (analysis_jobs w !! jobId)| |];
    intros H; inversion H; subst; simpl; try (right; eexists; repeat split; fail).
  left. split; [reflexivity|]. unfold has_job. simpl. rewrite lookup_insert_eq. eauto.
Qed.

Lemma select_loop_job_kept id jobId coins results :
  steps (job_kept id) (select_loop E jobId coins results).
Proof.
  revert results. induction coins as [|coin rest IH]; intros results; simpl.
  - walk.
  - destruct (3 <=? length results)%nat; walk.
Qed.

Lemma select_and_fetch_data_job_kept id ev jobId :
  steps (job_kept id) (select_and_fetch_data E ev jobId).
Proof.
  pose proof select_loop_job_kept. unfold select_and_fetch_data.
  apply pre_bind; [tc_solve | walk | intros _].
  destruct (length (default [] (ev_topCoins ev)) =? 0)%nat; [walk|].
  apply pre_bind; [tc_solve | walk | intros results].
  destruct (length results =? 0)%nat; walk.
Qed.

Lemma generate_ai_signals_job_kept id jobId socialMetrics :
  steps (job_kept id) (generate_ai_signals E jobId socialMetrics).
Proof.
  unfold generate_ai_signals. apply pre_bind; [tc_solve | walk | intros _].
  apply pre_bind; [tc_solve | | intros; walk].
  apply quiet_job_kept, fan_out_quiet. intros item. walk.
Qed.

Lemma analysis_jobs_update_job_kept id patch jobId :
  steps (job_kept id) (analysis_jobs_update E patch jobId).
Proof.
  intros w r w' H Hjob. unfold analysis_jobs_update in H. unfold has_job in *.
  destruct (jobs_op E (n_jobs_ops w)); [destruct (analysis_jobs w !! jobId) eqn:Hrow| |];
    inversion H; subst; simpl; try exact Hjob.
  destruct (decide (jobId = id)) as [->|Hne].
  - rewrite lookup_insert_eq. eauto.
  - rewrite lookup_insert_ne by exact Hne. exact Hjob.
Qed.

Lemma complete_job_job_kept id jobId startTime tradingSignals summary :
  steps (job_kept id) (complete_job E jobId startTime tradingSignals summary).
Proof. pose proof analysis_jobs_update_job_kept. unfold complete_job. walk. Qed.

Lemma persist_and_complete_job_kept id jobId startTime tradingSignals :
  steps (job_kept id) (persist_and_complete E jobId startTime tradingSignals).
Proof.
  pose proof save_to_database_job_kept. pose proof generate_summary_job_kept.
  pose proof send_notifications_job_kept. pose proof complete_job_job_kept.
  unfold persist_and_complete. walk.
Qed.

End WorkflowValues.

Lemma filter_all_success coins (results : list Selected) :
  Forall (selected_from coins) results ->
  filter (fun result => sel_success result = true) results = results.
Proof.
  induction 1 as [|r rs (Hs & _) _ IH]; [reflexivity|].
  rewrite filter_cons, IH. destruct (decide (sel_success r = true)); [reflexivity | contradiction].
Qed.

(** X6.  Whenever the workflow returns, its result says success for the
    job id of the event, which is not empty; between 1 and 3 symbols were
    analyzed; the summary counts exactly the analyzed symbols and lists all
    of them as top signals; and the job has its row in [analysis_jobs]. *)
Theorem workflow_result_on_success (E : Capabilities) (ev : EventData) (w : World)
    (res : WorkflowResult) (w' : World) :
  signalAnalysisWorkflow E ev w = (Ok res, w') ->
  res_success res = true /\
  ev_jobId ev = Some (res_jobId res) /\
  res_jobId res <> "" /\
  (1 <= res_symbolsAnalyzed res <= 3)%Z /\
  totalAnalyzed (res_summary res) = res_symbolsAnalyzed res /\
  Z.of_nat (length (topSignals (res_summary res))) = res_symbolsAnalyzed res /\
  has_job (res_jobId res) w'.
Proof.
  intros Hrun. unfold signalAnalysisWorkflow in Hrun.
  apply bind_Ok_inv in Hrun. destruct Hrun as (startTime & w0 & Hnow & Hrun).
  destruct (ev_jobId ev) as [[|c jobId]|]; try discriminate Hrun.
  apply bind_Ok_inv in Hrun. destruct Hrun as (j & w1 & Hinit & Hrun).
  apply bind_Ok_inv in Hrun. destruct Hrun as (selected & w2 & Hsel & Hrun).
  apply bind_Ok_inv in Hrun. destruct Hrun as (signals & w3 & Hai & Hrun).
  apply bind_Ok_inv in Hrun. destruct Hrun as ([[saved summary] sorted] & w4 & Hpersist & Hrun).
  apply bind_Ok_inv in Hrun. destruct Hrun as (now & w5 & Hnow' & Hret).
  inversion Hret; subst res w5. clear Hret. cbn [res_success res_jobId res_symbolsAnalyzed res_summary].
  destruct (select_and_fetch_data_Ok_inv E ev _ _ _ _ Hsel) as (coins & _ & _ & Hlen & Hall).
  destruct (generate_ai_signals_value E (String c jobId) selected w2) as (signals' & w3' & Hai' & Hn).
  rewrite Hai in Hai'. injection Hai' as <- <-.
  rewrite (filter_all_success coins selected Hall) in Hn.
  destruct (persist_and_complete_value E (String c jobId) startTime signals w3) as (w4' & Hpersist').
  pose proof (summarize_facts signals) as (Htotal & _ & _ & Htop & Hperm & _).
  cbn zeta in Htotal, Htop.
  assert (Hsorted : length (snd (summarize signals)) = length signals).
  { apply Permutation_length, Hperm. }
  remember (summarize signals) as sm eqn:Hsm. clear Hsm.
  rewrite Hpersist in Hpersist'. injection Hpersist' as _ -> -> <-.
  split; [reflexivity|]. split; [reflexivity|]. split; [discriminate|].
  split; [rewrite Hsorted; lia|]. split; [rewrite Htotal, Hsorted; reflexivity|].
  split; [rewrite Htop, Hsorted; lia|].
  destruct (initialize_job_inv E ev _ _ _ _ Hinit) as [[_ Hjob]|(e & He & _)]; [|discriminate He].
  pose proof (select_and_fetch_data_job_kept E (String c jobId) ev _ _ _ _ Hsel Hjob) as Hjob2.
  pose proof (generate_ai_signals_job_kept E (String c jobId) _ _ _ _ _ Hai Hjob2) as Hjob3.
  pose proof (persist_and_complete_job_kept E (String c jobId) _ _ _ _ _ _ Hpersist Hjob3) as Hjob4.
  unfold has_job in *. inversion Hnow'; subst. exact Hjob4.
Qed.

Lemma workflow_result_on_success_witness :
  exists res,
    fst (signalAnalysisWorkflow Demo.env (Demo.event [Demo.coin "BTC"; Demo.coin "DOGE"])
           Demo.empty_world) = Ok res /\
    res_jobId res = "job_1" /\ res_symbolsAnalyzed res = 1%Z.
Proof.
  destruct (signalAnalysisWorkflow Demo.env (Demo.event [Demo.coin "BTC"; Demo.coin "DOGE"])
              Demo.empty_world) as [r w'] eqn:Hrun.
  assert (Hok : exists res, r = Ok res /\ res_symbolsAnalyzed res = 1%Z).
  { vm_compute in Hrun. injection Hrun as <- _. eexists. split; reflexivity. }
  destruct Hok as (res & -> & Hn).
  destruct (workflow_result_on_success Demo.env _ _ _ _ Hrun) as (_ & Hid & _).
  exists res. split; [reflexivity|]. split; [|exact Hn].
  simpl in Hid. injection Hid as <-. reflexivity.
Defined.

Lemma in_phase_started lo hi ws :
  in_phase lo hi ws -> Forall (fun jw => written_status jw = Some "started") ws.
Proof.
  intros [_ Hf]. eapply Forall_impl; [exact Hf|]. intros jw (p & k & _ & _ & _ & _ & Hs). exact Hs.
Qed.

Lemma select_and_fetch_data_Throw_inv (E : Capabilities) ev jobId w e w' :
  select_and_fetch_data E ev jobId w = (Throw e, w') ->
  (e = "No candidate coins provided" /\ (ev_topCoins ev = None \/ ev_topCoins ev = Some [])) \/
  e = "No coins with complete social data found in top 10".
Proof.
  intros Hrun. unfold select_and_fetch_data in Hrun.
  apply bind_Throw_inv in Hrun. destruct Hrun as [Hup|([] & w1 & _ & Hrun)].
  { destruct (updateProgress_returns E jobId 2 "Selecting Best Coins"
                "Testing top 10 candidates for complete social data..." "started" w)
      as (? & ? & Hret). rewrite Hret in Hup. discriminate Hup. }
  destruct (ev_topCoins ev) as [[|coin rest]|] eqn:Hcoins.
  - inversion Hrun. left. auto.
  - change (default [] (Some (coin :: rest))) with (coin :: rest) in Hrun.
    change (length (coin :: rest) =? 0)%nat with false in Hrun. cbv iota in Hrun.
    right. apply bind_Throw_inv in Hrun. destruct Hrun as [Hloop|(found & w2 & _ & Hrun)].
    { destruct (select_loop_spec E jobId (coin :: rest) [] w1) as (? & ? & ? & Hret & _).
      rewrite Hret in Hloop. discriminate Hloop. }
    destruct (length found =? 0)%nat; [inversion Hrun; reflexivity|].
    apply bind_Throw_inv in Hrun. destruct Hrun as [Hup|([] & w3 & _ & Hret)]; [|discriminate Hret].
    match type of Hup with
    | updateProgress E jobId 3 ?name ?msg "started" w2 = _ =>
        destruct (updateProgress_returns E jobId 3 name msg "started" w2) as (? & ? & Hret)
    end.
    rewrite Hret in Hup. discriminate Hup.
  - inversion Hrun. left. auto.
Qed.

(** X7.  The workflow throws in four cases only: the event has no job id;
    the job record cannot be created (then the table is left as it was and
    no candidate is fetched); the list of candidates is missing or empty; no
    candidate has complete data.  In every one of them nothing was scored,
    stored or notified, and every status written for the job is [started]:
    no step marks the job as failed. *)
Theorem workflow_failure_modes (E : Capabilities) (ev : EventData) (w : World)
    (e : string) (w' : World) :
  signalAnalysisWorkflow E ev w = (Throw e, w') ->
  nothing_scored w w' /\
  (exists ws, job_history w' = job_history w ++ ws /\
              Forall (fun jw => written_status jw = Some "started") ws) /\
  ((e = "No job ID provided in event data" /\ (ev_jobId ev = None \/ ev_jobId ev = Some "") /\
    job_history w' = job_history w) \/
   (exists jobId, ev_jobId ev = Some jobId /\ analysis_jobs w' = analysis_jobs w /\
                  job_history w' = job_history w /\ n_topic_requests w' = n_topic_requests w) \/
   (e = "No candidate coins provided" /\ (ev_topCoins ev = None \/ ev_topCoins ev = Some [])) \/
   e = "No coins with complete social data found in top 10").
Proof.
  intros Hrun. unfold signalAnalysisWorkflow in Hrun.
  apply bind_Throw_inv in Hrun. destruct Hrun as [Hnow|(startTime & w0 & Hnow & Hrun)];
    [discriminate Hnow|].
  pose proof (Date_now_nothing_scored E _ _ _ Hnow) as Hs0.
  pose proof (Date_now_quiet E _ _ _ Hnow) as [Hj0 Hh0].
  assert (Hn0 : n_topic_requests w0 = n_topic_requests w) by (inversion Hnow; reflexivity).
  assert (Hnone : (e = "No job ID provided in event data" /\ w' = w0) ->
                  (ev_jobId ev = None \/ ev_jobId ev = Some "") ->
                  nothing_scored w w' /\
                  (exists ws, job_history w' = job_history w ++ ws /\
                              Forall (fun jw => written_status jw = Some "started") ws) /\
                  ((e = "No job ID provided in event data" /\
                    (ev_jobId ev = None \/ ev_jobId ev = Some "") /\
                    job_history w' = job_history w) \/
                   (exists jobId, ev_jobId ev = Some jobId /\ analysis_jobs w' = analysis_jobs w /\
                                  job_history w' = job_history w /\
                                  n_topic_requests w' = n_topic_requests w) \/
                   (e = "No candidate coins provided" /\
                    (ev_topCoins ev = None \/ ev_topCoins ev = Some [])) \/
                   e = "No coins with complete social data found in top 10")).
  { intros [-> ->] Hid. split; [exact Hs0|]. split.
    - exists []. rewrite app_nil_r. split; [exact Hh0 | constructor].
    - left. auto. }
  destruct (ev_jobId ev) as [[|c jobId]|] eqn:Hid.
  - apply Hnone; [inversion Hrun; auto | auto].
  - apply bind_Throw_inv in Hrun. destruct Hrun as [Hinit|(j & w1 & Hinit & Hrun)].
    + pose proof (jobs_only_nothing_scored _ (initialize_job_jobs_only E ev _) _ _ _ Hinit) as Hs1.
      pose proof (initialize_job_jobs_only E ev _ _ _ _ Hinit) as (_ & Hn1 & _).
      destruct (initialize_job_inv E ev _ _ _ _ Hinit) as [[Hok _]|(e0 & _ & Hj1 & Hh1)];
        [discriminate Hok|].
      split; [etransitivity; eassumption|]. split.
      * exists []. rewrite app_nil_r. split; [congruence | constructor].
      * right. left. exists (String c jobId). repeat split; congruence.
    + pose proof (jobs_only_nothing_scored _ (initialize_job_jobs_only E ev _) _ _ _ Hinit) as Hs1.
      destruct (initialize_job_phase E ev _ _ _ _ Hinit) as (ws1 & Hw1 & Hp1).
      apply bind_Throw_inv in Hrun. destruct Hrun as [Hsel|(selected & w2 & Hsel & Hrun)].
      * pose proof (select_and_fetch_data_nothing_scored E ev _ _ _ _ Hsel) as Hs2.
        destruct (select_and_fetch_data_phase E ev _ _ _ _ Hsel) as (ws2 & Hw2 & Hp2).
        split; [etransitivity; [exact Hs0 | etransitivity; eassumption]|]. split.
        -- exists (ws1 ++ ws2). split; [rewrite Hw2, Hw1, Hh0, app_assoc; reflexivity|].
           apply Forall_app. split; eapply in_phase_started; eassumption.
        -- right. right. apply (select_and_fetch_data_Throw_inv E ev _ _ _ _ Hsel).
      * exfalso. apply bind_Throw_inv in Hrun.
        destruct (generate_ai_signals_value E (String c jobId) selected w2)
          as (signals' & w3' & Hai' & _).
        destruct Hrun as [Hai|(signals & w3 & Hai & Hrun)]; [rewrite Hai' in Hai; discriminate Hai|].
        apply bind_Throw_inv in Hrun.
        destruct (persist_and_complete_value E (String c jobId) startTime signals w3)
          as (w4' & Hpersist').
        destruct Hrun as [Hpersist|([[saved summary] sorted] & w4 & Hpersist & Hrun)];
          [rewrite Hpersist' in Hpersist; discriminate Hpersist|].
        apply bind_Throw_inv in Hrun.
        destruct Hrun as [Hnow'|(now & w5 & _ & Hret)]; [discriminate Hnow' | discriminate Hret].
  - apply Hnone; [inversion Hrun; auto | auto].
Qed.

Lemma workflow_failure_modes_witness :
  exists e,
    fst (signalAnalysisWorkflow Demo.env (Demo.event []) Demo.empty_world) = Throw e /\
    e = "No candidate coins provided" /\
    trading_signals (snd (signalAnalysisWorkflow Demo.env (Demo.event []) Demo.empty_world)) = [].
Proof.
  destruct (signalAnalysisWorkflow Demo.env (Demo.event []) Demo.empty_world) as [r w'] eqn:Hrun.
  assert (Hthrow : r = Throw "No candidate coins provided").
  { vm_compute in Hrun. injection Hrun as <- _. reflexivity. }
  subst r. destruct (workflow_failure_modes Demo.env _ _ _ _ Hrun) as ((Hts & _) & _ & _).
  eexists. split; [reflexivity|]. split; [reflexivity | exact Hts].
Defined.

(** ** What a run leaves alone *)

Section OwnJob.

Context (E : Capabilities) (id jobId : string) (Hother : jobId <> id).

Lemma analysis_jobs_update_row_untouched patch :
  steps (row_untouched id) (analysis_jobs_update E patch jobId).
Proof.
  intros w r w' H. unfold analysis_jobs_update in H. unfold row_untouched.
  destruct (jobs_op E (n_jobs_ops w)); [destruct (analysis_jobs w !! jobId)| |];
    inversion H; subst; simpl; try reflexivity.
  apply lookup_insert_ne, Hother.
Qed.

Lemma initialize_job_row_untouched ev : steps (row_untouched id) (initialize_job E ev jobId).
Proof.
  intros w r w' H. unfold initialize_job, new_Date_toISOString, Date_now, analysis_jobs_insert in H.
  unfold_M. simpl in H. unfold row_untouched.
  destruct (jobs_op E (n_jobs_ops w)); [destruct (analysis_jobs w !! jobId)| |];
    inversion H; subst; simpl; try reflexivity.
  apply lookup_insert_ne, Hother.
Qed.

Local Hint Extern 5 (steps (row_untouched _) _) => apply quiet_row_untouched : effects.
Local Hint Resolve analysis_jobs_update_row_untouched initialize_job_row_untouched : effects.

Lemma updateProgress_row_untouched k name message st :
  steps (row_untouched id) (updateProgress E jobId k name message st).
Proof. unfold updateProgress. walk. Qed.

Local Hint Resolve updateProgress_row_untouched : effects.

Lemma select_loop_row_untouched coins results :
  steps (row_untouched id) (select_loop E jobId coins results).
Proof.
  revert results. induction coins as [|coin rest IH]; intros results; simpl.
  - walk.
  - destruct (3 <=? length results)%nat; walk.
Qed.

Lemma save_loop_row_untouched total i signals saveResults :
  steps (row_untouched id) (save_loop E jobId total i signals saveResults).
Proof.
  revert i saveResults. induction signals as [|s rest IH]; intros i saveResults; simpl; walk.
Qed.

Local Hint Resolve select_loop_row_untouched save_loop_row_untouched : effects.

Lemma workflow_steps_row_untouched ev startTime :
  steps (row_untouched id)
    (initialize_job E ev jobId;;
     socialMetrics ← select_and_fetch_data E ev jobId;
     tradingSignals ← generate_ai_signals E jobId socialMetrics;
     '(savedSignals, summary, tradingSignals) ← persist_and_complete E jobId startTime tradingSignals;
     now ← Date_now E;
     mret {| res_success := true;
             res_jobId := jobId;
             res_duration := (now - startTime)%Z;
             res_symbolsAnalyzed := Z.of_nat (length tradingSignals);
             res_summary := summary |}).
Proof.
  apply pre_bind; [tc_solve | walk | intros _].
  apply pre_bind; [tc_solve | | intros selected].
  { unfold select_and_fetch_data. apply pre_bind; [tc_solve | walk | intros _].
    destruct (length (default [] (ev_topCoins ev)) =? 0)%nat; [walk|].
    apply pre_bind; [tc_solve | walk | intros results].
    destruct (length results =? 0)%nat; walk. }
  apply pre_bind; [tc_solve | | intros signals].
  { unfold generate_ai_signals. apply pre_bind; [tc_solve | walk | intros _].
    apply pre_bind; [tc_solve | | intros; walk].
    apply quiet_row_untouched, fan_out_quiet. intros item. walk. }
  apply pre_bind; [tc_solve | | intros [[saved summary] sorted]; walk].
  unfold persist_and_complete.
  apply pre_bind; [tc_solve | unfold save_to_database; walk | intros saved].
  apply pre_bind; [tc_solve | unfold generate_summary; walk | intros [summary sorted]].
  apply pre_bind; [tc_solve | | intros _].
  { unfold send_notifications.
    destruct (0 <? length (filter (fun s => (70 <= confidence s)%Z) sorted))%nat; [|walk].
    apply pre_bind; [tc_solve | walk | intros _].
    apply pre_bind; [tc_solve | | intros; walk].
    apply quiet_row_untouched, pre_Promise_all; [tc_solve|].
    apply Forall_map, Forall_forall. intros s _. simpl. walk. }
  apply pre_bind; [tc_solve | unfold complete_job; walk | intros; walk].
Qed.

End OwnJob.

Section Appended.

Context (E : Capabilities).

Lemma trading_signals_insert_appended s : steps signals_appended (trading_signals_insert E s).
Proof.
  intros w r w' H. unfold trading_signals_insert in H. unfold signals_appended.
  destruct (signals_insert E (n_signal_ops w) s); inversion H; subst; simpl;
    [apply prefix_app_r | |]; reflexivity.
Qed.

Lemma count_request_appended : steps signals_appended count_request.
Proof. intros w r w' H. inversion H; subst. unfold signals_appended. reflexivity. Qed.

Lemma model_generateContent_appended prompt : steps signals_appended (model_generateContent E prompt).
Proof.
  intros w r w' H. unfold model_generateContent in H. unfold signals_appended.
  destruct (generateContent E (n_gemini_calls w) prompt); inversion H; subst; reflexivity.
Qed.

Lemma sendTelegramMessage_appended text : steps signals_appended (sendTelegramMessage E text).
Proof.
  intros w r w' H. unfold sendTelegramMessage in H. unfold signals_appended.
  destruct (telegram_configured E); [destruct (telegram_fetch E (n_telegram w) text)|];
    inversion H; subst; reflexivity.
Qed.

Local Hint Extern 5 (steps signals_appended _) => apply jobs_only_signals_appended : effects.
Local Hint Resolve trading_signals_insert_appended count_request_appended
  model_generateContent_appended sendTelegramMessage_appended initialize_job_jobs_only : effects.

Lemma getSocialMetrics_appended coin : steps signals_appended (getSocialMetrics E coin).
Proof.
  assert (Hreq : forall endpoint, steps signals_appended (makeRequest E endpoint)).
  { intros endpoint. unfold makeRequest, getApiKey.
    apply pre_bind; [tc_solve | walk | intros n].
    apply pre_try_catch; [tc_solve | | intros; walk].
    apply pre_bind; [tc_solve | walk | intros apiKey].
    destruct (fetch E n _) as [e|response]; [walk|].
    destruct (negb (response_ok response)); walk. }
  unfold getSocialMetrics, fetchTopicData. walk.
Qed.

Lemma createFallbackSignal_appended symbol m : steps signals_appended (createFallbackSignal E symbol m).
Proof.
  unfold createFallbackSignal.
  destruct (3 <=? positiveSignals m)%Z; [|destruct (positiveSignals m <=? 1)%Z];
    unfold new_Date_toISOString; walk.
Qed.

Lemma generateTradingSignal_appended symbol m historical :
  steps signals_appended (generateTradingSignal E symbol m historical).
Proof.
  pose proof createFallbackSignal_appended.
  unfold generateTradingSignal, getGeminiClient, parseSignalResponse, new_Date_toISOString. walk.
Qed.

Local Hint Resolve getSocialMetrics_appended generateTradingSignal_appended : effects.

Lemma select_loop_appended jobId coins results :
  steps signals_appended (select_loop E jobId coins results).
Proof.
  revert results. induction coins as [|coin rest IH]; intros results; simpl.
  - walk.
  - destruct (3 <=? length results)%nat; walk.
Qed.

Lemma save_loop_appended jobId total i signals saveResults :
  steps signals_appended (save_loop E jobId total i signals saveResults).
Proof.
  revert i saveResults. induction signals as [|s rest IH]; intros i saveResults; simpl; walk.
Qed.

Local Hint Resolve select_loop_appended save_loop_appended : effects.

Lemma signalAnalysisWorkflow_appended ev : steps signals_appended (signalAnalysisWorkflow E ev).
Proof.
  unfold signalAnalysisWorkflow.
  apply pre_bind; [tc_solve | walk | intros startTime].
  destruct (ev_jobId ev) as [[|c jobId]|]; [walk | | walk].
  apply pre_bind; [tc_solve | walk | intros _].
  apply pre_bind; [tc_solve | | intros selected].
  { unfold select_and_fetch_data. apply pre_bind; [tc_solve | walk | intros _].
    destruct (length (default [] (ev_topCoins ev)) =? 0)%nat; [walk|].
    apply pre_bind; [tc_solve | walk | intros results].
    destruct (length results =? 0)%nat; walk. }
  apply pre_bind; [tc_solve | | intros signals].
  { unfold generate_ai_signals. apply pre_bind; [tc_solve | walk | intros _].
    apply pre_bind; [tc_solve | | intros; walk].
    unfold fan_out. apply pre_bind; [tc_solve | | intros; walk].
    apply pre_Promise_all; [tc_solve|]. apply Forall_map, Forall_forall. intros s _. simpl. walk. }
  apply pre_bind; [tc_solve | | intros [[saved summary] sorted]; walk].
  unfold persist_and_complete.
  apply pre_bind; [tc_solve | unfold save_to_database; walk | intros saved].
  apply pre_bind; [tc_solve | unfold generate_summary; walk | intros [summary sorted]].
  apply pre_bind; [tc_solve | | intros _].
  { unfold send_notifications.
    destruct (0 <? length (filter (fun s => (70 <= confidence s)%Z) sorted))%nat; [|walk].
    apply pre_bind; [tc_solve | walk | intros _].
    apply pre_bind; [tc_solve | | intros; walk].
    apply pre_Promise_all; [tc_solve|].
    apply Forall_map, Forall_forall. intros s _. simpl. unfold sendSignalAlert. walk. }
  apply pre_bind; [tc_solve | unfold complete_job; walk | intros; walk].
Qed.

End Appended.

(** X8.  A run of the workflow leaves the rows of all other jobs as they
    were, whatever the services answer, and it never removes or changes a
    stored signal: what [trading_signals] held before the run is a prefix of
    what it holds after. *)
Theorem workflow_touches_own_job_only (E : Capabilities) (ev : EventData) (w : World)
    (id : string) :
  ev_jobId ev <> Some id ->
  analysis_jobs (snd (signalAnalysisWorkflow E ev w)) !! id = analysis_jobs w !! id /\
  trading_signals w `prefix_of` trading_signals (snd (signalAnalysisWorkflow E ev w)).
Proof.
  intros Hid. destruct (signalAnalysisWorkflow E ev w) as [r w'] eqn:Hrun. simpl.
  split; [|exact (signalAnalysisWorkflow_appended E ev _ _ _ Hrun)].
  unfold signalAnalysisWorkflow in Hrun. unfold mbind at 1 in Hrun. unfold M_bind at 1 in Hrun.
  change (Date_now E w) with (Ok (clock E (n_clock w)), set_n_clock (S (n_clock w)) w) in Hrun.
  cbv iota beta in Hrun.
  destruct (ev_jobId ev) as [[|c jobId]|]; try (inversion Hrun; subst; reflexivity).
  assert (Hother : String c jobId <> id) by congruence.
  exact (workflow_steps_row_untouched E id (String c jobId) Hother ev _ _ _ _ Hrun).
Qed.

Lemma workflow_touches_own_job_only_witness :
  analysis_jobs
    (snd (signalAnalysisWorkflow Demo.env (Demo.event [Demo.coin "BTC"])
            (Demo.world_with
               {| job_id := "job_0"; status := "completed"; current_step := "Analysis Complete";
                  step_message := ""; progress_percentage := 100; event_data := Demo.event [];
                  started_at := "T0"; updated_at := "T1"; signals_generated := Some 3%Z;
                  alerts_generated := Some 3%Z; duration_ms := Some 26%Z;
                  completed_at := Some "T2" |}))) !! "job_0"
  = Some {| job_id := "job_0"; status := "completed"; current_step := "Analysis Complete";
            step_message := ""; progress_percentage := 100; event_data := Demo.event [];
            started_at := "T0"; updated_at := "T1"; signals_generated := Some 3%Z;
            alerts_generated := Some 3%Z; duration_ms := Some 26%Z;
            completed_at := Some "T2" |}.
Proof.
  match goal with
  | |- analysis_jobs (snd (signalAnalysisWorkflow ?E ?ev ?w)) !! ?id = _ =>
      destruct (workflow_touches_own_job_only E ev w id) as [H _]; [discriminate|];
        rewrite H
  end.
  vm_compute. reflexivity.
Defined.

(** ** Progress reporting does not steer the run *)

Lemma outside_jobs_refl w : outside_jobs w w.
Proof. unfold outside_jobs. repeat split. Qed.

Lemma alike_mret {A} (a : A) : alike (mret a) (mret a).
Proof. intros w1 w2 H. split; [reflexivity | exact H]. Qed.

Lemma alike_throw {A} (e : string) : alike (@throw A e) (@throw A e).
Proof. intros w1 w2 H. split; [reflexivity | exact H]. Qed.

Lemma alike_bind {A B} (m1 m2 : M A) (k1 k2 : A -> M B) :
  alike m1 m2 -> (forall a, alike (k1 a) (k2 a)) -> alike (m1 ≫= k1) (m2 ≫= k2).
Proof.
  intros Hm Hk w1 w2 H. unfold_M. destruct (Hm w1 w2 H) as [Hr Hw].
  destruct (m1 w1) as [r1 w1'], (m2 w2) as [r2 w2']. simpl in Hr, Hw. subst r2.
  destruct r1 as [a|e]; [apply Hk, Hw | split; [reflexivity | exact Hw]].
Qed.

Lemma alike_try_catch {A} (b1 b2 : M A) (h1 h2 : string -> M A) :
  alike b1 b2 -> (forall e, alike (h1 e) (h2 e)) -> alike (try_catch b1 h1) (try_catch b2 h2).
Proof.
  intros Hb Hh w1 w2 H. unfold_M. destruct (Hb w1 w2 H) as [Hr Hw].
  destruct (b1 w1) as [r1 w1'], (b2 w2) as [r2 w2']. simpl in Hr, Hw. subst r2.
  destruct r1 as [a|e]; [split; [reflexivity | exact Hw] | apply Hh, Hw].
Qed.

Lemma alike_Promise_all_map {A B} (f1 f2 : A -> M B) (l : list A) :
  (forall x, alike (f1 x) (f2 x)) -> alike (Promise_all (map f1 l)) (Promise_all (map f2 l)).
Proof.
  intros Hf. induction l as [|x l IH]; intros w1 w2 H; simpl.
  - split; [reflexivity | exact H].
  - destruct (Hf x w1 w2 H) as [Hr Hw].
    destruct (f1 x w1) as [r1 w1'], (f2 x w2) as [r2 w2']. simpl in Hr, Hw. subst r2.
    destruct (IH w1' w2' Hw) as [Hrs Hws].
    destruct (Promise_all (map f1 l) w1') as [rs1 w1''], (Promise_all (map f2 l) w2') as [rs2 w2''].
    simpl in Hrs, Hws. subst rs2. split; [reflexivity | exact Hws].
Qed.

Create HintDb alike_db.

Ltac walk_alike :=
  repeat first
    [ solve [eauto with alike_db]
    | apply alike_mret
    | apply alike_throw
    | apply alike_bind; [| intros]
    | apply alike_try_catch; [| intros]
    | match goal with
      | |- alike (match ?x with _ => _ end) _ => destruct x
      | |- alike (let '(_, _) := ?x in _) _ => destruct x
      end ].

Section Alike.

Context (E : Capabilities).

Lemma Date_now_alike : alike (Date_now E) (Date_now E).
Proof.
  intros w1 w2 (?&Hc&?&?&?&?&?). unfold Date_now. simpl. rewrite Hc.
  split; [reflexivity|]. unfold outside_jobs. simpl. repeat split; congruence.
Qed.

Lemma count_request_alike : alike count_request count_request.
Proof.
  intros w1 w2 (?&?&Hn&?&?&?&?). unfold count_request. simpl. rewrite Hn.
  split; [reflexivity|]. unfold outside_jobs. simpl. repeat split; congruence.
Qed.

Lemma model_generateContent_alike prompt :
  alike (model_generateContent E prompt) (model_generateContent E prompt).
Proof.
  intros w1 w2 (?&?&?&Hn&?&?&?). unfold model_generateContent. rewrite Hn.
  destruct (generateContent E (n_gemini_calls w2) prompt); simpl;
    (split; [reflexivity|]); unfold outside_jobs; simpl; repeat split; congruence.
Qed.

Lemma sendTelegramMessage_alike text :
  alike (sendTelegramMessage E text) (sendTelegramMessage E text).
Proof.
  intros w1 w2 (?&?&?&?&?&?&Hn). unfold sendTelegramMessage. rewrite Hn.
  destruct (telegram_configured E); [destruct (telegram_fetch E (n_telegram w2) text)|]; simpl;
    (split; [reflexivity|]); unfold outside_jobs; simpl; repeat split; congruence.
Qed.

Lemma trading_signals_insert_alike s :
  alike (trading_signals_insert E s) (trading_signals_insert E s).
Proof.
  intros w1 w2 (?&?&?&?&?&Hn&?). unfold trading_signals_insert. rewrite Hn.
  destruct (signals_insert E (n_signal_ops w2) s); simpl;
    (split; [reflexivity|]); unfold outside_jobs; simpl; repeat split; congruence.
Qed.

Hint Resolve Date_now_alike count_request_alike model_generateContent_alike
  sendTelegramMessage_alike trading_signals_insert_alike : alike_db.

Lemma new_Date_toISOString_alike : alike (new_Date_toISOString E) (new_Date_toISOString E).
Proof. unfold new_Date_toISOString. walk_alike. Qed.

Hint Resolve new_Date_toISOString_alike : alike_db.

Lemma getSocialMetrics_alike coin : alike (getSocialMetrics E coin) (getSocialMetrics E coin).
Proof.
  assert (Hreq : forall endpoint, alike (makeRequest E endpoint) (makeRequest E endpoint)).
  { intros endpoint. unfold makeRequest, getApiKey.
    apply alike_bind; [walk_alike | intros n].
    apply alike_try_catch; [| intros; walk_alike].
    apply alike_bind; [walk_alike | intros apiKey].
    destruct (fetch E n _) as [e|response]; [walk_alike|].
    destruct (negb (response_ok response)); walk_alike. }
  unfold getSocialMetrics, fetchTopicData. walk_alike.
Qed.

Lemma createFallbackSignal_alike symbol m :
  alike (createFallbackSignal E symbol m) (createFallbackSignal E symbol m).
Proof.
  unfold createFallbackSignal.
  destruct (3 <=? positiveSignals m)%Z; [|destruct (positiveSignals m <=? 1)%Z]; walk_alike.
Qed.

Lemma generateTradingSignal_alike symbol m historical :
  alike (generateTradingSignal E symbol m historical) (generateTradingSignal E symbol m historical).
Proof.
  pose proof createFallbackSignal_alike.
  unfold generateTradingSignal, getGeminiClient, parseSignalResponse. walk_alike.
Qed.

Lemma sendSignalAlert_alike s : alike (sendSignalAlert E s) (sendSignalAlert E s).
Proof. unfold sendSignalAlert. walk_alike. Qed.

End Alike.

#[global] Hint Resolve Date_now_alike count_request_alike new_Date_toISOString_alike
  getSocialMetrics_alike generateTradingSignal_alike sendSignalAlert_alike
  trading_signals_insert_alike : alike_db.

Lemma signalAnalysisWorkflow_unfold (E : Capabilities) ev w :
  signalAnalysisWorkflow E ev w
  = match ev_jobId ev with
    | None | Some EmptyString =>
        (Throw "No job ID provided in event data", set_n_clock (S (n_clock w)) w)
    | Some jobId =>
        match initialize_job E ev jobId (set_n_clock (S (n_clock w)) w) with
        | (Ok _, w1) => after_initialization E ev jobId (clock E (n_clock w)) w1
        | (Throw e, w1) => (Throw e, w1)
        end
    end.
Proof.
  unfold signalAnalysisWorkflow, after_initialization. unfold mbind at 1. unfold M_bind at 1.
  change (Date_now E w) with (Ok (clock E (n_clock w)), set_n_clock (S (n_clock w)) w).
  cbv iota beta. destruct (ev_jobId ev) as [[|c jobId]|]; reflexivity.
Qed.

Section OtherAnswers.

Context (E : Capabilities) (answers : nat -> DbOutcome).

Local Abbreviation E' := (with_jobs_op answers E).

Ltac same_services :=
  try change (Date_now (with_jobs_op answers E)) with (Date_now E);
  try change (new_Date_toISOString (with_jobs_op answers E)) with (new_Date_toISOString E);
  try change (getSocialMetrics (with_jobs_op answers E)) with (getSocialMetrics E);
  try change (generateTradingSignal (with_jobs_op answers E)) with (generateTradingSignal E);
  try change (sendSignalAlert (with_jobs_op answers E)) with (sendSignalAlert E);
  try change (trading_signals_insert (with_jobs_op answers E)) with (trading_signals_insert E).

Lemma swallowed_update_alike (p1 p2 : JobPatch) jobId :
  alike (try_catch (error ← analysis_jobs_update E' p1 jobId; mret tt) (fun _ => mret tt))
        (try_catch (error ← analysis_jobs_update E p2 jobId; mret tt) (fun _ => mret tt)).
Proof.
  intros w1 w2 (?&?&?&?&Hn&?&?). unfold analysis_jobs_update. unfold_M. simpl.
  destruct (answers (n_jobs_ops w1)); [destruct (analysis_jobs w1 !! jobId)| |];
    (destruct (jobs_op E (n_jobs_ops w2)); [destruct (analysis_jobs w2 !! jobId)| |]);
    simpl; (split; [reflexivity|]); unfold outside_jobs; simpl; repeat split; congruence.
Qed.

Lemma updateProgress_alike jobId k name message st :
  alike (updateProgress E' jobId k name message st) (updateProgress E jobId k name message st).
Proof.
  unfold updateProgress. same_services.
  apply alike_bind; [walk_alike | intros updated]. apply swallowed_update_alike.
Qed.

Hint Resolve updateProgress_alike : alike_db.

Lemma select_loop_alike jobId coins : forall results,
  alike (select_loop E' jobId coins results) (select_loop E jobId coins results).
Proof.
  induction coins as [|coin rest IH]; intros results; cbn [select_loop].
  - walk_alike.
  - destruct (3 <=? length results)%nat; [walk_alike|].
    apply alike_bind; [|intros; apply IH].
    apply alike_try_catch; [|intros; walk_alike].
    apply alike_bind; [walk_alike | intros _]. same_services.
    apply alike_bind; [walk_alike | intros m]. destruct (has_real_data m); walk_alike.
Qed.

Lemma select_and_fetch_data_alike ev jobId :
  alike (select_and_fetch_data E' ev jobId) (select_and_fetch_data E ev jobId).
Proof.
  unfold select_and_fetch_data. apply alike_bind; [walk_alike | intros _].
  destruct (length (default [] (ev_topCoins ev)) =? 0)%nat; [walk_alike|].
  apply alike_bind; [apply select_loop_alike | intros results].
  destruct (length results =? 0)%nat; walk_alike.
Qed.

Lemma generate_ai_signals_alike jobId socialMetrics :
  alike (generate_ai_signals E' jobId socialMetrics) (generate_ai_signals E jobId socialMetrics).
Proof.
  unfold generate_ai_signals. apply alike_bind; [walk_alike | intros _]. same_services.
  apply alike_bind; [|intros; walk_alike].
  unfold fan_out. apply alike_bind; [|intros; walk_alike].
  apply alike_Promise_all_map. intros item. walk_alike.
Qed.

Lemma save_loop_alike jobId total signals : forall i saveResults,
  alike (save_loop E' jobId total i signals saveResults)
        (save_loop E jobId total i signals saveResults).
Proof.
  induction signals as [|s rest IH]; intros i saveResults; cbn [save_loop].
  - walk_alike.
  - apply alike_bind; [|intros; apply IH]. same_services.
    apply alike_try_catch; [|intros; walk_alike].
    apply alike_bind; [walk_alike | intros [e|]]; walk_alike.
Qed.

Lemma persist_and_complete_alike jobId startTime tradingSignals :
  alike (persist_and_complete E' jobId startTime tradingSignals)
        (persist_and_complete E jobId startTime tradingSignals).
Proof.
  unfold persist_and_complete.
  apply alike_bind; [|intros saved].
  { unfold save_to_database. apply alike_bind; [walk_alike | intros _]. apply save_loop_alike. }
  apply alike_bind; [unfold generate_summary; walk_alike | intros [summary sorted]].
  apply alike_bind; [|intros _].
  { unfold send_notifications.
    destruct (0 <? length (filter (fun s => (70 <= confidence s)%Z) sorted))%nat; [|walk_alike].
    apply alike_bind; [walk_alike | intros _]. same_services.
    apply alike_bind; [|intros; walk_alike].
    apply alike_Promise_all_map. intros s. walk_alike. }
  apply alike_bind; [|intros; walk_alike].
  unfold complete_job. same_services.
  apply alike_bind; [walk_alike | intros now].
  apply alike_bind; [apply updateProgress_alike | intros _].
  intros w1 w2 H. unfold new_Date_toISOString, Date_now. unfold_M. simpl.
  match goal with
  | |- context [analysis_jobs_update (with_jobs_op answers E) ?p1 jobId] =>
      match goal with
      | |- context [analysis_jobs_update E ?p2 jobId] =>
          pose proof (swallowed_update_alike p1 p2 jobId
                        (set_n_clock (S (n_clock w1)) w1) (set_n_clock (S (n_clock w2)) w2)) as Hsw
      end
  end.
  unfold_M. apply Hsw. destruct H as (?&?&?&?&?&?&?).
  unfold outside_jobs. simpl. repeat split; congruence.
Qed.

Lemma initialize_job_same ev jobId w :
  answers (n_jobs_ops w) = jobs_op E (n_jobs_ops w) ->
  initialize_job E' ev jobId w = initialize_job E ev jobId w.
Proof.
  intros Hsame. unfold initialize_job, new_Date_toISOString, Date_now, analysis_jobs_insert.
  unfold_M. simpl. rewrite Hsame. reflexivity.
Qed.

Lemma after_initialization_alike ev jobId startTime :
  alike (after_initialization E' ev jobId startTime) (after_initialization E ev jobId startTime).
Proof.
  unfold after_initialization.
  apply alike_bind; [apply select_and_fetch_data_alike | intros selected].
  apply alike_bind; [apply generate_ai_signals_alike | intros signals].
  apply alike_bind; [apply persist_and_complete_alike | intros [[saved summary] sorted]].
  same_services. walk_alike.
Qed.

Lemma signalAnalysisWorkflow_same ev w :
  answers (n_jobs_ops w) = jobs_op E (n_jobs_ops w) ->
  fst (signalAnalysisWorkflow E' ev w) = fst (signalAnalysisWorkflow E ev w) /\
  outside_jobs (snd (signalAnalysisWorkflow E' ev w)) (snd (signalAnalysisWorkflow E ev w)).
Proof.
  intros Hsame. rewrite !signalAnalysisWorkflow_unfold.
  change (clock E' (n_clock w)) with (clock E (n_clock w)).
  destruct (ev_jobId ev) as [[|c jobId]|];
    try (split; [reflexivity | apply outside_jobs_refl]).
  rewrite (initialize_job_same ev (String c jobId) (set_n_clock (S (n_clock w)) w) Hsame).
  destruct (initialize_job E ev (String c jobId) (set_n_clock (S (n_clock w)) w)) as [[j|e] w1];
    [|split; [reflexivity | apply outside_jobs_refl]].
  apply after_initialization_alike, outside_jobs_refl.
Qed.

End OtherAnswers.

(** X9.  Progress reporting does not steer a run.  Take the same services
    with any other answers of the job table, alike only on the insert that
    creates the job record: the workflow returns the same result or throws
    the same error, stores the same signals and makes the same calls to the
    data provider, the model and the messenger.  A progress update or a
    final statistics update that fails changes nothing but the job's row. *)
Theorem progress_failures_do_not_steer (E : Capabilities) (answers : nat -> DbOutcome)
    (ev : EventData) (w : World) :
  answers (n_jobs_ops w) = jobs_op E (n_jobs_ops w) ->
  fst (signalAnalysisWorkflow (with_jobs_op answers E) ev w) = fst (signalAnalysisWorkflow E ev w) /\
  outside_jobs (snd (signalAnalysisWorkflow (with_jobs_op answers E) ev w))
               (snd (signalAnalysisWorkflow E ev w)).
Proof. apply signalAnalysisWorkflow_same. Qed.

Lemma progress_failures_do_not_steer_witness :
  let answers n := match n with O => DbOk | _ => DbThrows "connection lost" end in
  let coins := [Demo.coin "BTC"; Demo.coin "ETH"] in
  fst (signalAnalysisWorkflow (with_jobs_op answers Demo.env) (Demo.event coins) Demo.empty_world)
  = fst (signalAnalysisWorkflow Demo.env (Demo.event coins) Demo.empty_world).
Proof.
  intros answers coins.
  apply (progress_failures_do_not_steer Demo.env answers (Demo.event coins) Demo.empty_world).
  reflexivity.
Defined.

(** ** The coin list *)

Lemma makeRequest_as_topic (E : Capabilities) (endpoint : string) :
  makeRequest E endpoint = makeRequest_as E (fun _ _ response => http_json response) endpoint.
Proof. reflexivity. Qed.

(** The outcome of a request, read off the services. *)
Lemma makeRequest_as_run {T} (E : Capabilities) (json : nat -> string -> HttpResponse -> string + T)
    (endpoint : string) (w : World) :
  let n := n_topic_requests w in
  let url := (BASE_URL ++ endpoint)%string in
  snd (makeRequest_as E json endpoint w) = set_n_topic_requests (S n) w /\
  forall body,
    fst (makeRequest_as E json endpoint w) = Ok body <->
    (exists key, LUNARCRUSH_API_KEY E = Some key /\ key <> "") /\
    exists response,
      fetch E n url = FetchReturns response /\ response_ok response = true /\
      json n url response = inr body.
Proof.
  cbn zeta. unfold makeRequest_as, count_request, getApiKey. unfold_M. cbn beta iota.
  destruct (LUNARCRUSH_API_KEY E) as [[|c key]|] eqn:Hkey; cbn.
  1,3: split; [reflexivity|]; intros body; split;
       [discriminate | intros [(k & Hk & Hne) _]; congruence].
  destruct (fetch E (n_topic_requests w) (BASE_URL ++ endpoint)%string) as [e|response] eqn:Hfetch.
  { split; [reflexivity|]. intros body; split; [discriminate|].
    intros (_ & r & Hr & _). discriminate. }
  destruct (response_ok response) eqn:Hok; cbn.
  - destruct (json (n_topic_requests w) (BASE_URL ++ endpoint)%string response) as [e|body0] eqn:Hjson; cbn.
    + split; [reflexivity|]. intros body; split; [discriminate|].
      intros (_ & r & Hr & _ & Hj). congruence.
    + split; [reflexivity|]. intros body; split.
      * intros [= <-]. split; [exists (String c key); split; [reflexivity | discriminate]|].
        exists response. auto.
      * intros (_ & r & Hr & _ & Hj). congruence.
  - destruct (http_status response =? 401)%Z; [|destruct (http_status response =? 429)%Z;
      [|destruct (500 <=? http_status response)%Z]]; cbn;
      (split; [reflexivity|]; intros body; split; [discriminate|];
       intros (_ & r & Hr & Hr' & _); injection Hr as <-; congruence).
Qed.

Lemma getTopCoinsByAltRank_run (E : Capabilities) (S : Services) (limit : Z)
    (w : World) :
  let n := n_topic_requests w in
  let url := (BASE_URL ++ "/coins/list/v1?limit=" ++ pretty limit ++ "&sort=alt_rank")%string in
  let run := getTopCoinsByAltRank E S limit w in
  snd run = set_n_topic_requests (Datatypes.S n) w /\
  ((exists coins, fst run = Ok coins) <->
   (exists key, LUNARCRUSH_API_KEY E = Some key /\ key <> "") /\
   exists response rows,
     fetch E n url = FetchReturns response /\ response_ok response = true /\
     coins_json S n url = inr (Some rows)) /\
  (forall coins rows,
     fst run = Ok coins -> coins_json S n url = inr (Some rows) ->
     length coins = length rows /\
     map coin_symbol coins = map (fun row => toUpperCase S (row_symbol row)) rows /\
     map coin_altRank coins = map row_alt_rank rows /\
     map coin_galaxyScore coins = map row_galaxy_score rows).
Proof.
  cbn zeta. unfold getTopCoinsByAltRank.
  set (endpoint := ("/coins/list/v1?limit=" ++ pretty limit ++ "&sort=alt_rank")%string).
  destruct (makeRequest_as_run E (fun n url _ => coins_json S n url) endpoint w) as [Hw Hbody].
  cbn zeta in Hbody. unfold_M.
  destruct (makeRequest_as E (fun n url _ => coins_json S n url) endpoint w) as [[body|e] w1] eqn:Hrun.
  - cbn [fst snd] in *. destruct (proj1 (Hbody body) eq_refl) as (Hkey & response & Hf & Hok & Hj).
    destruct body as [rows|]; cbn.
    + split; [exact Hw|]. split.
      * split; [intros _; split; [exact Hkey | exists response, rows; auto] | intros _; eexists; reflexivity].
      * intros coins rows' [= <-] Hrows. rewrite Hj in Hrows. injection Hrows as <-.
        rewrite length_map, !map_map. auto.
    + split; [exact Hw|]. split.
      * split; [intros [coins [=]]|]. intros (_ & r & rows & Hr & _ & Hrows). congruence.
      * intros coins rows [=].
  - cbn [fst snd] in *. split; [exact Hw|]. split.
    + split; [intros [coins [=]]|]. intros (Hkey & r & rows & Hr & Hok & Hrows).
      assert (Ho : @Throw (option (list CoinRow)) e = Ok (Some rows)); [|discriminate].
      apply Hbody. split; [exact Hkey | eauto].
    + intros coins rows [=].
Qed.


(** ** What a run stores *)

#[global] Instance rows_kept_preorder : PreOrder rows_kept.
Proof.
  split.
  - intros w. reflexivity.
  - intros a b c H1 H2. unfold rows_kept in *. congruence.
Qed.

Lemma jobs_only_rows_kept {A} (m : M A) : steps jobs_only m -> steps rows_kept m.
Proof. intros H w r w' Hrun. apply (H w r w' Hrun). Qed.

Lemma nothing_scored_rows_kept {A} (m : M A) : steps nothing_scored m -> steps rows_kept m.
Proof. intros H w r w' Hrun. apply (H w r w' Hrun). Qed.

Section Scored.

Context (E : Capabilities).

Lemma createFallbackSignal_scored symbol m w s w' :
  createFallbackSignal E symbol m w = (Ok s, w') -> scored_for symbol m s /\ rows_kept w w'.
Proof.
  intros Hrun.
  destruct (createFallbackSignal_spec E symbol m w) as (s0 & w0 & Hs & Hsym & Hm & Hrule).
  rewrite Hrun in Hs. injection Hs as <- <-.
  split; [split; [exact Hsym|]; split; [exact Hm|]; split;
          [eapply fallback_rule_confidence, Hrule|]|].
  - revert Hrun. unfold createFallbackSignal.
    destruct (3 <=? positiveSignals m)%Z; [|destruct (positiveSignals m <=? 1)%Z];
      unfold new_Date_toISOString, Date_now; unfold_M; simpl;
      intros [= <- _]; eexists; reflexivity.
  - revert Hrun. unfold createFallbackSignal.
    destruct (3 <=? positiveSignals m)%Z; [|destruct (positiveSignals m <=? 1)%Z];
      unfold new_Date_toISOString, Date_now; unfold_M; simpl;
      intros [= _ <-]; reflexivity.
Qed.

Lemma generateTradingSignal_scored symbol m historical w s w' :
  generateTradingSignal E symbol m historical w = (Ok s, w') ->
  scored_for symbol m s /\ rows_kept w w'.
Proof.
  unfold generateTradingSignal, getGeminiClient.
  destruct (GOOGLE_GEMINI_API_KEY E) as [[|c key]|] eqn:Hkey.
  - unfold_M. simpl. apply createFallbackSignal_scored.
  - unfold_M. simpl. unfold model_generateContent.
    destruct (generateContent E (n_gemini_calls w) _) as [e|text|] eqn:Hcall.
    + intros H. apply createFallbackSignal_scored in H. exact H.
    + unfold parseSignalResponse, new_Date_toISOString, Date_now. unfold_M. simpl.
      intros [= <- <-]. split; [|reflexivity].
      split; [reflexivity|]. split; [reflexivity|]. split; [simpl; lia|].
      eexists; reflexivity.
    + unfold parseSignalResponse. unfold_M. simpl.
      destruct (createFallbackSignal_spec E symbol m (set_n_gemini_calls (S (n_gemini_calls w)) w))
        as (s0 & w0 & Hs & _).
      rewrite Hs. intros [= <- <-]. apply createFallbackSignal_scored in Hs. exact Hs.
  - unfold_M. simpl. apply createFallbackSignal_scored.
Qed.

(** The signals of the fan-out over [generateTradingSignal]. *)
Lemma settled_scored items : forall w,
  Forall (fun s => exists r, r ∈ items /\ scored_for (sel_symbol r) (sel_metrics r) s)
         (omap value_of
            (settled (fun result => generateTradingSignal E (sel_symbol result) (sel_metrics result) None)
                     items w)).
Proof.
  induction items as [|item rest IH]; intros w; cbn [settled]; [constructor|].
  destruct (generateTradingSignal E (sel_symbol item) (sel_metrics item) None w) as [[s|e] w1] eqn:Hrun;
    csimpl.
  - constructor.
    + exists item. split; [left|]. eapply generateTradingSignal_scored, Hrun.
    + eapply Forall_impl; [apply IH|]. intros s0 (r & Hr & Hs). exists r. split; [right; exact Hr | exact Hs].
  - eapply Forall_impl; [apply IH|]. intros s0 (r & Hr & Hs). exists r. split; [right; exact Hr | exact Hs].
Qed.

Lemma generateTradingSignal_rows_kept symbol m historical :
  steps rows_kept (generateTradingSignal E symbol m historical).
Proof.
  intros w [s|e] w' Hrun; [eapply generateTradingSignal_scored, Hrun|].
  destruct (generateTradingSignal_returns E symbol m historical w) as (s & w1 & Hs). congruence.
Qed.

Lemma updateProgress_rows_kept jobId k name message st :
  steps rows_kept (updateProgress E jobId k name message st).
Proof. apply jobs_only_rows_kept, updateProgress_jobs_only. Qed.

Lemma sendTelegramMessage_rows_kept text : steps rows_kept (sendTelegramMessage E text).
Proof.
  intros w r w' H. unfold sendTelegramMessage in H.
  destruct (telegram_configured E); [destruct (telegram_fetch E (n_telegram w) text)|];
    inversion H; subst; reflexivity.
Qed.

Local Hint Extern 5 (steps rows_kept _) => apply jobs_only_rows_kept : effects.
Local Hint Resolve generateTradingSignal_rows_kept updateProgress_rows_kept
  sendTelegramMessage_rows_kept : effects.

Lemma generate_ai_signals_rows_kept jobId socialMetrics :
  steps rows_kept (generate_ai_signals E jobId socialMetrics).
Proof.
  unfold generate_ai_signals. apply pre_bind; [tc_solve | walk | intros _].
  apply pre_bind; [tc_solve | | intros; walk].
  unfold fan_out. apply pre_bind; [tc_solve | | intros; walk].
  apply pre_Promise_all; [tc_solve|]. apply Forall_map, Forall_forall. intros s _. simpl. walk.
Qed.

Lemma send_notifications_rows_kept jobId tradingSignals :
  steps rows_kept (send_notifications E jobId tradingSignals).
Proof.
  unfold send_notifications.
  destruct (0 <? length (filter (fun s => (70 <= confidence s)%Z) tradingSignals))%nat; [|walk].
  apply pre_bind; [tc_solve | walk | intros _].
  apply pre_bind; [tc_solve | | intros; walk].
  apply pre_Promise_all; [tc_solve|].
  apply Forall_map, Forall_forall. intros s _. simpl. unfold sendSignalAlert. walk.
Qed.

Lemma complete_job_rows_kept jobId startTime tradingSignals summary :
  steps rows_kept (complete_job E jobId startTime tradingSignals summary).
Proof. unfold complete_job. walk. Qed.

Lemma save_to_database_rows jobId tradingSignals w r w' :
  save_to_database E jobId tradingSignals w = (r, w') ->
  trading_signals w' = trading_signals w ++ stored_signals E (n_signal_ops w) tradingSignals.
Proof.
  unfold save_to_database. unfold_M.
  match goal with
  | |- context [updateProgress E jobId 5 ?name ?msg "started" w] =>
      destruct (updateProgress_returns E jobId 5 name msg "started" w) as ([] & w1 & Hup);
        pose proof (updateProgress_jobs_only E _ _ _ _ _ _ _ _ Hup) as (Hts & _ & _ & Hn & _);
        rewrite Hup
  end.
  destruct (save_loop_rows E jobId (length tradingSignals) tradingSignals 0 [] w1)
    as (w2 & Hloop & _ & Hrows).
  rewrite Hloop. intros [= _ <-]. rewrite Hrows, Hts, Hn. reflexivity.
Qed.

Lemma persist_and_complete_rows jobId startTime tradingSignals w r w' :
  persist_and_complete E jobId startTime tradingSignals w = (r, w') ->
  trading_signals w' = trading_signals w ++ stored_signals E (n_signal_ops w) tradingSignals.
Proof.
  unfold persist_and_complete. intros Hrun.
  assert (Hk : forall saved : list SaveResult, steps rows_kept
            ('(summary, tradingSignals) ← generate_summary E jobId tradingSignals;
             send_notifications E jobId tradingSignals;;
             complete_job E jobId startTime tradingSignals summary;;
             mret (saved, summary, tradingSignals))).
  { intros saved. apply pre_bind; [tc_solve | unfold generate_summary; walk | intros [summary sorted]].
    apply pre_bind; [tc_solve | apply send_notifications_rows_kept | intros _].
    apply pre_bind; [tc_solve | apply complete_job_rows_kept | intros; walk]. }
  revert Hrun. unfold mbind at 1. unfold M_bind at 1.
  destruct (save_to_database E jobId tradingSignals w) as [[saved|e] w1] eqn:Hsave;
    pose proof (save_to_database_rows _ _ _ _ _ Hsave) as Hrows.
  - intros Hrest. rewrite <- Hrows. exact (Hk saved _ _ _ Hrest).
  - intros [= _ <-]. exact Hrows.
Qed.

End Scored.

Lemma stored_signals_sublist (E : Capabilities) (P : TradingSignal -> Prop) signals : forall n,
  Forall P signals ->
  Forall P (stored_signals E n signals) /\
  (length (stored_signals E n signals) <= length signals)%nat.
Proof.
  induction signals as [|s rest IH]; intros n Hall; cbn [stored_signals]; [auto|].
  inversion Hall as [|? ? Hs Hrest]; subst. destruct (IH (S n) Hrest) as [Hall' Hlen].
  destruct (insert_succeeds E n s); cbn [app length]; split; auto; lia.
Qed.

Lemma signalAnalysisWorkflow_scored (E : Capabilities) (ev : EventData) (w : World)
    (res : WorkflowResult) (w' : World) :
  signalAnalysisWorkflow E ev w = (Ok res, w') ->
  exists coins new,
    ev_topCoins ev = Some coins /\
    trading_signals w' = trading_signals w ++ new /\
    (length new <= 3)%nat /\
    Forall (scored_candidate coins) new /\
    Forall (fun t => exists s, scored_candidate coins s /\ t = top_of s)
           (topSignals (res_summary res)).
Proof.
  intros Hrun. unfold signalAnalysisWorkflow in Hrun.
  apply bind_Ok_inv in Hrun. destruct Hrun as (startTime & w0 & Hnow & Hrun).
  destruct (ev_jobId ev) as [[|c jobId]|]; try discriminate Hrun.
  apply bind_Ok_inv in Hrun. destruct Hrun as (j & w1 & Hinit & Hrun).
  apply bind_Ok_inv in Hrun. destruct Hrun as (selected & w2 & Hsel & Hrun).
  apply bind_Ok_inv in Hrun. destruct Hrun as (signals & w3 & Hai & Hrun).
  apply bind_Ok_inv in Hrun. destruct Hrun as ([[saved summary] sorted] & w4 & Hpersist & Hrun).
  apply bind_Ok_inv in Hrun. destruct Hrun as (now & w5 & Hnow' & Hret).
  inversion Hret; subst res w5. clear Hret. cbn [res_summary].
  destruct (select_and_fetch_data_Ok_inv E ev _ _ _ _ Hsel) as (coins & Hcoins & _ & Hlen & Hall).
  (* the signals of step 4 *)
  assert (Hscored : Forall (scored_candidate coins) signals /\ (length signals <= 3)%nat).
  { destruct (generate_ai_signals_value E (String c jobId) selected w2) as (signals' & w3' & Hai' & Hn).
    rewrite Hai in Hai'. injection Hai' as <- <-.
    rewrite (filter_all_success coins selected Hall) in Hn. split; [|lia].
    revert Hai. unfold generate_ai_signals. intros Hai.
    apply bind_Ok_inv in Hai. destruct Hai as ([] & wa & _ & Hai).
    apply bind_Ok_inv in Hai. destruct Hai as (signals0 & wb & Hfan & Hai).
    apply bind_Ok_inv in Hai. destruct Hai as ([] & wc & _ & Hai).
    inversion Hai; subst signals0 wc.
    rewrite (filter_all_success coins selected Hall) in Hfan.
    match type of Hfan with
    | fan_out ?f ?items ?w0 = _ => destruct (fan_out_spec f items w0) as (wd & Hspec)
    end.
    rewrite Hfan in Hspec. injection Hspec as -> _.
    eapply Forall_impl; [apply settled_scored|].
    intros s (r & Hr & Hs). exists r. split; [|exact Hs].
    rewrite Forall_forall in Hall. apply Hall, Hr. }
  destruct Hscored as [Hscored Hlen3].
  (* the rows *)
  assert (Hrows : trading_signals w4 = trading_signals w ++ stored_signals E (n_signal_ops w3) signals).
  { rewrite (persist_and_complete_rows E _ _ _ _ _ _ Hpersist). f_equal.
    rewrite (generate_ai_signals_rows_kept E _ _ _ _ _ Hai).
    destruct (select_and_fetch_data_nothing_scored E ev _ _ _ _ Hsel) as [-> _].
    destruct (initialize_job_jobs_only E ev _ _ _ _ Hinit) as [-> _].
    inversion Hnow; subst. reflexivity. }
  destruct (stored_signals_sublist E (scored_candidate coins) signals (n_signal_ops w3) Hscored)
    as [Hnew Hnewlen].
  exists coins, (stored_signals E (n_signal_ops w3) signals).
  split; [exact Hcoins|]. split; [inversion Hnow'; subst; exact Hrows|].
  split; [lia|]. split; [exact Hnew|].
  destruct (persist_and_complete_value E (String c jobId) startTime signals w3) as (w4' & Hpersist').
  pose proof (summarize_facts signals) as (_ & _ & _ & _ & Hperm & _).
  assert (Htop : topSignals (fst (summarize signals)) = map top_of (take 3 (snd (summarize signals)))).
  { reflexivity. }
  remember (summarize signals) as sm eqn:Hsm. clear Hsm.
  rewrite Hpersist in Hpersist'. injection Hpersist' as _ -> -> <-.
  rewrite Htop. apply Forall_map, Forall_take. rewrite Hperm.
  eapply Forall_impl; [exact Hscored|]. intros s Hs. exists s. auto.
Qed.

(** X11.  Whatever a successful run adds to [trading_signals], at most three
    rows, was scored for a candidate coin of the event whose metrics passed
    the completeness test: the row has the candidate's symbol, rank and
    score, a confidence from 0 to 100 and the id [symbol-<time>].  The top
    signals of the result are taken from signals of that kind. *)
Theorem workflow_stores_scored_candidates (E : Capabilities) (ev : EventData) (w : World)
    (res : WorkflowResult) (w' : World) :
  signalAnalysisWorkflow E ev w = (Ok res, w') ->
  exists coins new,
    ev_topCoins ev = Some coins /\
    trading_signals w' = trading_signals w ++ new /\
    (length new <= 3)%nat /\
    Forall (scored_candidate coins) new /\
    Forall (fun t => exists s, scored_candidate coins s /\ t = top_of s)
           (topSignals (res_summary res)).
Proof. apply signalAnalysisWorkflow_scored. Qed.

Lemma workflow_stores_scored_candidates_witness :
  let coins := [Demo.coin "BTC"; Demo.coin "DOGE"] in
  Forall (scored_candidate coins)
         (trading_signals (snd (signalAnalysisWorkflow Demo.env (Demo.event coins) Demo.empty_world))).
Proof.
  intros coins.
  destruct (signalAnalysisWorkflow Demo.env (Demo.event coins) Demo.empty_world) as [r w'] eqn:Hrun.
  assert (Hok : exists res, r = Ok res).
  { vm_compute in Hrun. injection Hrun as <- _. eexists. reflexivity. }
  destruct Hok as (res & ->).
  destruct (workflow_stores_scored_candidates Demo.env _ _ _ _ Hrun)
    as (coins' & new & Hcoins & Hrows & _ & Hnew & _).
  injection Hcoins as <-. cbn [snd]. rewrite Hrows. exact Hnew.
Defined.

(** ** The trigger route *)

Lemma getTopCoinsByAltRank_world (E : Capabilities) (S : Services) limit w r w' :
  getTopCoinsByAltRank E S limit w = (r, w') ->
  w' = set_n_topic_requests (Datatypes.S (n_topic_requests w)) w.
Proof.
  intros Hrun. destruct (getTopCoinsByAltRank_run E S limit w) as [Hw _].
  cbn zeta in Hw. rewrite Hrun in Hw. exact Hw.
Qed.

Lemma POST_run (E : Capabilities) (S : Services) (w : World) :
  exists response queued w',
    TriggerRoute.POST E S w = (Ok (response, queued), w') /\
    analysis_jobs w' = analysis_jobs w /\ job_history w' = job_history w /\
    trading_signals w' = trading_signals w /\
    (n_topic_requests w' <= Datatypes.S (n_topic_requests w))%nat /\
    match queued with
    | Some ev =>
        TriggerRoute.res_status response = 200 /\
        exists jobId eventId coins message tail,
          TriggerRoute.res_body response
          = TriggerRoute.Queued jobId eventId (map coin_symbol coins) message /\
          ev_jobId ev = Some jobId /\ jobId = ("job_" ++ tail)%string /\
          ev_topCoins ev = Some coins /\ ev_triggerType ev = "manual" /\
          inngest_send S ev = inr eventId
    | None =>
        TriggerRoute.res_status response = 500 /\ TriggerRoute.success response = false
    end.
Proof.
  unfold TriggerRoute.POST, Date_now. unfold_M. cbn beta iota.
  destruct (request_json S) as [e|]; cbn beta iota.
  { eexists _, _, _. split; [reflexivity|]. cbn. repeat split; lia. }
  match goal with
  | |- context [getTopCoinsByAltRank E S 10 ?w0] =>
      destruct (getTopCoinsByAltRank E S 10 w0) as [[coins|e] w1] eqn:Hcoins;
        apply getTopCoinsByAltRank_world in Hcoins; subst w1
  end; cbn beta iota.
  2: { eexists _, _, _. split; [reflexivity|]. cbn. repeat split; lia. }
  match goal with
  | |- context [inngest_send S ?ev] => destruct (inngest_send S ev) as [e|eventId] eqn:Hsend
  end; cbn beta iota.
  { eexists _, _, _. split; [reflexivity|]. cbn. repeat split; lia. }
  eexists _, _, _. split; [reflexivity|]. cbn. repeat split; try lia.
  eexists _, eventId, coins, _, _. split; [reflexivity|]. split; [reflexivity|].
  split; [reflexivity|]. split; [reflexivity|]. split; [reflexivity|]. exact Hsend.
Qed.

(** X12.  The trigger route never throws and writes to neither table; it
    makes at most one request to the data provider.  It answers 200 exactly
    when it has queued an event, and 500 with [success: false] otherwise.
    The response of a queued job names the job id of the event, which
    starts with [job_], and lists the symbols of the very coins the event
    carries. *)
Theorem POST_answers_200_iff_queued (E : Capabilities) (S : Services) (w : World) :
  exists response queued w',
    TriggerRoute.POST E S w = (Ok (response, queued), w') /\
    analysis_jobs w' = analysis_jobs w /\ job_history w' = job_history w /\
    trading_signals w' = trading_signals w /\
    (n_topic_requests w' <= Datatypes.S (n_topic_requests w))%nat /\
    match queued with
    | Some ev =>
        TriggerRoute.res_status response = 200 /\
        exists jobId eventId coins message tail,
          TriggerRoute.res_body response
          = TriggerRoute.Queued jobId eventId (map coin_symbol coins) message /\
          ev_jobId ev = Some jobId /\ jobId = ("job_" ++ tail)%string /\
          ev_topCoins ev = Some coins /\ ev_triggerType ev = "manual" /\
          inngest_send S ev = inr eventId
    | None =>
        TriggerRoute.res_status response = 500 /\ TriggerRoute.success response = false
    end.
Proof. apply POST_run. Qed.

Lemma after_initialization_job_kept (E : Capabilities) id ev jobId startTime :
  steps (job_kept id) (after_initialization E ev jobId startTime).
Proof.
  unfold after_initialization.
  apply pre_bind; [tc_solve | apply select_and_fetch_data_job_kept | intros selected].
  apply pre_bind; [tc_solve | apply generate_ai_signals_job_kept | intros signals].
  apply pre_bind; [tc_solve | apply persist_and_complete_job_kept | intros [[saved summary] sorted]].
  apply pre_bind; [tc_solve | apply quiet_job_kept, Date_now_quiet | intros now].
  apply pre_mret; tc_solve.
Qed.

Lemma initialize_job_creates (E : Capabilities) ev jobId w :
  jobs_op E (n_jobs_ops w) = DbOk -> analysis_jobs w !! jobId = None ->
  exists w', initialize_job E ev jobId w = (Ok jobId, w') /\ has_job jobId w'.
Proof.
  intros Hdb Hnone.
  unfold initialize_job, new_Date_toISOString, Date_now, analysis_jobs_insert. unfold_M. simpl.
  rewrite Hdb, Hnone. eexists. split; [reflexivity|].
  unfold has_job. simpl. rewrite lookup_insert_eq. eexists; reflexivity.
Qed.

Lemma signalAnalysisWorkflow_jobId (E : Capabilities) ev w res w' :
  signalAnalysisWorkflow E ev w = (Ok res, w') -> ev_jobId ev = Some (res_jobId res).
Proof.
  intros Hrun. unfold signalAnalysisWorkflow in Hrun.
  apply bind_Ok_inv in Hrun. destruct Hrun as (startTime & w0 & Hnow & Hrun).
  destruct (ev_jobId ev) as [[|c jobId]|]; try discriminate Hrun.
  apply bind_Ok_inv in Hrun. destruct Hrun as (j & w1 & Hinit & Hrun).
  apply bind_Ok_inv in Hrun. destruct Hrun as (selected & w2 & Hsel & Hrun).
  apply bind_Ok_inv in Hrun. destruct Hrun as (signals & w3 & Hai & Hrun).
  apply bind_Ok_inv in Hrun. destruct Hrun as ([[saved summary] sorted] & w4 & Hpersist & Hrun).
  apply bind_Ok_inv in Hrun. destruct Hrun as (now & w5 & Hnow' & Hret).
  inversion Hret; subst. reflexivity.
Qed.

(** X13.  The route and the workflow fit together.  A run of the workflow
    on the event the route queued never stops at the job-id guard: if the
    job table accepts the insert, the job the response names has its row
    when the run ends, however it ends.  If the run succeeds, its result
    names the job of the response, and every top signal is for a symbol the
    response listed. *)
Theorem queued_event_starts_the_job (E : Capabilities) (S : Services) (w : World)
    (response : TriggerRoute.NextResponse) (ev : EventData) (w' : World) :
  TriggerRoute.POST E S w = (Ok (response, Some ev), w') ->
  exists jobId eventId symbols message,
    TriggerRoute.res_body response = TriggerRoute.Queued jobId eventId symbols message /\
    forall (E2 : Capabilities) (w2 : World),
      let run := signalAnalysisWorkflow E2 ev w2 in
      (jobs_op E2 (n_jobs_ops w2) = DbOk -> analysis_jobs w2 !! jobId = None ->
       has_job jobId (snd run)) /\
      (forall res, fst run = Ok res ->
         res_jobId res = jobId /\
         Forall (fun t => top_symbol t ∈ symbols) (topSignals (res_summary res))).
Proof.
  intros Hpost.
  destruct (POST_run E S w) as (response0 & queued & w0 & Hrun & _ & _ & _ & _ & Hq).
  rewrite Hpost in Hrun. injection Hrun as <- <- <-.
  destruct Hq as (_ & jobId & eventId & coins & message & tail & Hbody & Hid & Htail & Hcoins & _).
  exists jobId, eventId, (map coin_symbol coins), message. split; [exact Hbody|].
  intros E2 w2 run. split.
  - intros Hdb Hnone. subst run. rewrite signalAnalysisWorkflow_unfold, Hid. subst jobId.
    change ("job_" ++ tail)%string with (String "j" (String "o" (String "b" (String "_" tail)))) in *.
    cbv beta iota.
    match goal with
    | |- context [initialize_job E2 ev ?id ?w0] =>
        destruct (initialize_job_creates E2 ev id w0 Hdb Hnone) as (w1 & Hinit & Hjob);
          rewrite Hinit
    end.
    match goal with
    | |- has_job ?id (snd (?m ?w0)) =>
        destruct (m w0) as [r w3] eqn:Hrest;
          exact (after_initialization_job_kept E2 id ev _ _ _ _ _ Hrest Hjob)
    end.
  - intros res Hres. subst run.
    destruct (signalAnalysisWorkflow E2 ev w2) as [r w3] eqn:Hrun. cbn [fst] in Hres. subst r.
    split.
    + apply signalAnalysisWorkflow_jobId in Hrun. congruence.
    + destruct (signalAnalysisWorkflow_scored E2 ev w2 res w3 Hrun)
        as (coins' & new & Hcoins' & _ & _ & _ & Htop).
      rewrite Hcoins in Hcoins'. injection Hcoins' as <-.
      eapply Forall_impl; [exact Htop|].
      intros t (s & (r & (_ & _ & _ & coin & Hin & Hsym & _) & (Hs & _)) & ->).
      cbn [top_of top_symbol]. rewrite Hs, Hsym. apply list_elem_of_fmap_2, Hin.
Qed.

Lemma queued_event_starts_the_job_witness :
  exists response ev jobId eventId message,
    fst (TriggerRoute.POST Demo.env DemoServices.services Demo.empty_world)
    = Ok (response, Some ev) /\
    TriggerRoute.res_body response = TriggerRoute.Queued jobId eventId ["BTC"; "DOGE"] message /\
    has_job jobId (snd (signalAnalysisWorkflow Demo.env ev Demo.empty_world)).
Proof.
  destruct (TriggerRoute.POST Demo.env DemoServices.services Demo.empty_world) as [r w'] eqn:Hpost.
  assert (Hok : exists response ev jobId eventId message,
            r = Ok (response, Some ev) /\
            TriggerRoute.res_body response
            = TriggerRoute.Queued jobId eventId ["BTC"; "DOGE"] message).
  { vm_compute in Hpost. injection Hpost as <- _. eexists _, _, _, _, _. split; reflexivity. }
  destruct Hok as (response & ev & jobId & eventId & message & -> & Hbody).
  destruct (queued_event_starts_the_job Demo.env DemoServices.services _ _ _ _ Hpost)
    as (jobId' & eventId' & symbols & message' & Hbody' & Hruns).
  rewrite Hbody in Hbody'. injection Hbody' as <- <- <- <-.
  exists response, ev, jobId, eventId, message. split; [reflexivity|]. split; [exact Hbody|].
  apply (Hruns Demo.env Demo.empty_world); [reflexivity | apply lookup_empty].
Defined.

(** ** The signal of one symbol *)

Lemma try_catch_rethrow {A} (body : M A) w :
  try_catch body (fun error => throw error) w = body w.
Proof. unfold try_catch, throw. destruct (body w) as [[a|e] w1]; reflexivity. Qed.

Section SignalGenerator.

Context (E : Capabilities) (S : Services).

Lemma getHistoricalMetrics_run symbol limit w :
  exists historical,
    getHistoricalMetrics S symbol limit w
    = (Ok historical, set_n_signal_ops (Datatypes.S (n_signal_ops w)) w) /\
    (forall rows,
       select_metrics S (n_signal_ops w) (toUpperCase S symbol) limit = SelectData (Some rows) ->
       historical = rows) /\
    ((forall rows,
        select_metrics S (n_signal_ops w) (toUpperCase S symbol) limit <> SelectData (Some rows)) ->
     historical = []).
Proof.
  unfold getHistoricalMetrics, trading_signals_select. unfold_M.
  destruct (select_metrics S (n_signal_ops w) (toUpperCase S symbol) limit) as [e|e|[rows|]];
    cbn; eexists; (split; [reflexivity|]); split; try congruence; try (intros; reflexivity).
  intros H. destruct (H rows). reflexivity.
Qed.

Lemma saveSignalToDatabase_run s w :
  exists w',
    saveSignalToDatabase E s w = (Ok tt, w') /\
    trading_signals w'
    = trading_signals w ++ (if insert_succeeds E (n_signal_ops w) s then [s] else []) /\
    n_signal_ops w' = Datatypes.S (n_signal_ops w) /\
    n_gemini_calls w' = n_gemini_calls w /\ n_topic_requests w' = n_topic_requests w /\
    quiet w w'.
Proof.
  unfold saveSignalToDatabase, trading_signals_insert, insert_succeeds, quiet. unfold_M.
  destruct (signals_insert E (n_signal_ops w) s) as [|e|e]; cbn;
    eexists; (split; [reflexivity|]); cbn; rewrite ?app_nil_r; auto 10.
Qed.

Lemma generateSignalForSymbol_inv symbol w r w' :
  generateSignalForSymbol E S symbol w = (r, w') ->
  let listed := fst (getTopCoinsByAltRank E S 100 w) in
  let wanted := fun c => String.eqb (coin_symbol c) (toUpperCase S symbol) in
  analysis_jobs w' = analysis_jobs w /\
  match r with
  | Ok s =>
      (exists coins coin, listed = Ok coins /\ List.find wanted coins = Some coin) /\
      sig_symbol s = symbol /\
      (exists t : Z, sig_id s = (symbol ++ "-" ++ pretty t)%string) /\
      sm_symbol (metrics s) = toUpperCase S symbol /\
      (0 <= confidence s <= 100)%Z /\
      (trading_signals w' = trading_signals w \/ trading_signals w' = trading_signals w ++ [s])
  | Throw e =>
      ~ (exists coins coin, listed = Ok coins /\ List.find wanted coins = Some coin) /\
      trading_signals w' = trading_signals w /\
      n_gemini_calls w' = n_gemini_calls w /\
      n_signal_ops w' = n_signal_ops w
  end.
Proof.
  cbn zeta. unfold generateSignalForSymbol. rewrite try_catch_rethrow.
  unfold mbind at 1. unfold M_bind at 1.
  destruct (getTopCoinsByAltRank E S 100 w) as [[coins|e] w1] eqn:Hcoins;
    pose proof (getTopCoinsByAltRank_world _ _ _ _ _ _ Hcoins) as Hw1; subst w1; cbn [fst snd].
  2: { intros [= <- <-]. split; [reflexivity|].
       split; [intros (cs & c & [=] & _) | repeat split]. }
  destruct (List.find _ coins) as [coin|] eqn:Hfind.
  2: { intros [= <- <-]. split; [reflexivity|].
       split; [intros (cs & c & [= <-] & Hc); congruence | repeat split]. }
  pose proof Hfind as Hfound.
  apply find_some in Hfind. destruct Hfind as [Hin Hsym]. apply String.eqb_eq in Hsym.
  unfold mbind at 1. unfold M_bind at 1.
  match goal with
  | |- context [getSocialMetrics E coin ?w0] =>
      destruct (getSocialMetrics_carries E coin w0) as (m & w2 & Hm & Hmsym & _);
        pose proof (getSocialMetrics_nothing_scored E coin _ _ _ Hm) as (Hrows2 & Hg2 & Hs2 & _);
        pose proof (getSocialMetrics_quiet E coin _ _ _ Hm) as (Hjobs2 & _);
        rewrite Hm
  end.
  unfold mbind at 1. unfold M_bind at 1.
  destruct (getHistoricalMetrics_run symbol 5 w2) as (historical & Hh & _). rewrite Hh.
  unfold mbind at 1. unfold M_bind at 1.
  match goal with
  | |- context [generateTradingSignal E symbol m ?h ?w0] =>
      destruct (generateTradingSignal_returns E symbol m h w0) as (s & w4 & Hs);
        pose proof (generateTradingSignal_scored E _ _ _ _ _ _ Hs) as ((Hssym & Hsm & Hconf & Hid) & Hrows4);
        pose proof (generateTradingSignal_quiet E _ _ _ _ _ _ Hs) as (Hjobs4 & _);
        rewrite Hs
  end.
  unfold mbind at 1. unfold M_bind at 1.
  destruct (saveSignalToDatabase_run s w4) as (w5 & Hsave & Hrows5 & _ & _ & _ & Hjobs5 & _).
  rewrite Hsave. cbn [fst snd mret M_ret]. intros [= <- <-].
  split; [rewrite Hjobs5, Hjobs4; cbn; rewrite Hjobs2; reflexivity|].
  split; [exists coins, coin; auto|].
  split; [exact Hssym|]. split; [exact Hid|]. split; [rewrite Hsm, Hmsym; exact Hsym|].
  split; [exact Hconf|].
  rewrite Hrows5. unfold rows_kept in Hrows4. rewrite Hrows4. cbn [trading_signals set_n_signal_ops].
  rewrite Hrows2. cbn [trading_signals set_n_topic_requests].
  destruct (insert_succeeds E (n_signal_ops w4) s); [right; reflexivity | left; apply app_nil_r].
Qed.

Lemma getLatestSignals_run limit w :
  exists latest,
    getLatestSignals S limit w = (Ok latest, set_n_signal_ops (Datatypes.S (n_signal_ops w)) w).
Proof.
  unfold getLatestSignals, trading_signals_select. unfold_M.
  destruct (select_latest S (n_signal_ops w) limit) as [e|e|[rows|]]; cbn; eexists; reflexivity.
Qed.

(** X15.  [testDataAggregation] never throws and leaves [analysis_jobs]
    alone.  It says [true] exactly when the list of 5 coins is fetched and
    not empty and [generateSignalForSymbol] returns for the symbol of its
    first coin: the read of the latest signals cannot fail the check.  The
    check is not free of effects: a [true] may leave one new row in
    [trading_signals]; a [false] leaves none. *)
Theorem testDataAggregation_outcome w :
  exists ok w',
    testDataAggregation E S w = (Ok ok, w') /\
    analysis_jobs w' = analysis_jobs w /\
    (ok = true <->
     exists testCoin rest w1 s w2,
       getTopCoinsByAltRank E S 5 w = (Ok (testCoin :: rest), w1) /\
       generateSignalForSymbol E S (coin_symbol testCoin) w1 = (Ok s, w2)) /\
    (ok = false -> trading_signals w' = trading_signals w) /\
    (exists new, trading_signals w' = trading_signals w ++ new /\ (length new <= 1)%nat).
Proof.
  unfold testDataAggregation. unfold try_catch at 1. unfold mbind at 1. unfold M_bind at 1.
  destruct (getTopCoinsByAltRank E S 5 w) as [[[|testCoin rest]|e] w1] eqn:Hcoins;
    pose proof (getTopCoinsByAltRank_world _ _ _ _ _ _ Hcoins) as Hw1; cbn.
  1,3: subst w1; eexists _, _; (split; [reflexivity|]); cbn; split; [reflexivity|];
       split; [split; [discriminate | intros (c & r & w0 & s & w2 & [=] & _)]|];
       split; [reflexivity|]; exists []; rewrite app_nil_r; split; [reflexivity | cbn; lia].
  unfold mbind at 1. unfold M_bind at 1.
  destruct (generateSignalForSymbol E S (coin_symbol testCoin) w1) as [[s|e] w2] eqn:Hgen;
    pose proof (generateSignalForSymbol_inv _ _ _ _ Hgen) as (Hjobs & Hinv); cbn zeta in Hinv.
  - destruct Hinv as (_ & _ & _ & _ & _ & Hrows).
    unfold mbind at 1. unfold M_bind at 1.
    destruct (getLatestSignals_run 5 w2) as (latest & Hlatest). rewrite Hlatest. cbn.
    eexists _, _. split; [reflexivity|]. cbn. subst w1. cbn in *.
    split; [exact Hjobs|]. split; [split; [intros _; eauto 10 | reflexivity]|].
    split; [discriminate|].
    destruct Hrows as [-> | ->]; [exists [] | exists [s]]; rewrite ?app_nil_r;
      (split; [reflexivity | cbn; lia]).
  - destruct Hinv as (_ & Hrows & _). cbn.
    eexists _, _. split; [reflexivity|]. subst w1. cbn in *.
    split; [exact Hjobs|].
    split; [split; [discriminate | intros (c & r & w0 & s & w3 & [= <- <- <-] & Hs); congruence]|].
    split; [intros _; exact Hrows|]. exists []. rewrite app_nil_r. split; [exact Hrows | cbn; lia].
Qed.

End SignalGenerator.

(** X14.  [generateSignalForSymbol] returns exactly when the coin list is
    fetched and holds the symbol in upper case; once the coin is found
    nothing can make it throw: a failed history read gives an empty
    history, a failed model call the fallback signal, a failed insert is
    swallowed.  The signal it returns is under the symbol as the caller
    spelled it, on metrics under the upper-case symbol, with a confidence
    from 0 to 100 and the id [symbol-<time>]; at most this one row is added
    to [trading_signals].  When
    it throws, nothing was stored and the model was not called. *)
Theorem generateSignalForSymbol_outcome (E : Capabilities) (S : Services) (symbol : string)
    (w : World) (r : Result TradingSignal) (w' : World) :
  generateSignalForSymbol E S symbol w = (r, w') ->
  let listed := fst (getTopCoinsByAltRank E S 100 w) in
  let wanted := fun c => String.eqb (coin_symbol c) (toUpperCase S symbol) in
  analysis_jobs w' = analysis_jobs w /\
  match r with
  | Ok s =>
      (exists coins coin, listed = Ok coins /\ List.find wanted coins = Some coin) /\
      sig_symbol s = symbol /\
      (exists t : Z, sig_id s = (symbol ++ "-" ++ pretty t)%string) /\
      sm_symbol (metrics s) = toUpperCase S symbol /\
      (0 <= confidence s <= 100)%Z /\
      (trading_signals w' = trading_signals w \/ trading_signals w' = trading_signals w ++ [s])
  | Throw e =>
      ~ (exists coins coin, listed = Ok coins /\ List.find wanted coins = Some coin) /\
      trading_signals w' = trading_signals w /\
      n_gemini_calls w' = n_gemini_calls w /\
      n_signal_ops w' = n_signal_ops w
  end.
Proof. apply generateSignalForSymbol_inv. Qed.

Lemma generateSignalForSymbol_outcome_witness :
  exists s,
    fst (generateSignalForSymbol Demo.env DemoServices.services "btc" Demo.empty_world) = Ok s /\
    sig_symbol s = "btc" /\ sm_symbol (metrics s) = "BTC".
Proof.
  destruct (generateSignalForSymbol Demo.env DemoServices.services "btc" Demo.empty_world)
    as [r w'] eqn:Hrun.
  assert (Hok : exists s, r = Ok s).
  { vm_compute in Hrun. injection Hrun as <- _. eexists; reflexivity. }
  destruct Hok as (s & ->).
  destruct (generateSignalForSymbol_outcome _ _ _ _ _ _ Hrun) as (_ & _ & Hsym & _ & Hm & _).
  exists s. split; [reflexivity|]. split; [exact Hsym | exact Hm].
Defined.

(** ** The health checks *)

Lemma includes_empty (searchString : string) :
  searchString <> "" -> includes searchString "" = false.
Proof. destruct searchString as [|c rest]; [congruence | reflexivity]. Qed.

(** The two keyword tests add nothing to the test of the length. *)
Lemma reply_test_length (text : string) :
  (includes "successful" text || includes "working" text || (0 <? String.length text)%nat)
  = negb (String.eqb text "").
Proof.
  destruct text as [|c rest]; [reflexivity|].
  change (0 <? String.length (String c rest))%nat with true.
  rewrite orb_true_r. reflexivity.
Qed.

(** X16.  [testGeminiConnection] never throws and writes to neither table.
    Without an API key it says [false] and calls nothing.  With a key it
    makes one model call; it says [false] when the call throws, and on a
    text reply it says [true] exactly when the text is not empty: the tests
    for the words [successful] and [working] change nothing. *)
Theorem testGeminiConnection_true_iff_reply (E : Capabilities) (w : World) :
  let reply := generateContent E (n_gemini_calls w) test_prompt in
  exists ok w',
    testGeminiConnection E w = (Ok ok, w') /\
    quiet w w' /\ trading_signals w' = trading_signals w /\
    match GOOGLE_GEMINI_API_KEY E with
    | None | Some EmptyString => ok = false /\ w' = w
    | Some _ =>
        n_gemini_calls w' = S (n_gemini_calls w) /\
        (forall e, reply = GeminiThrows e -> ok = false) /\
        (forall text, reply = GeminiText text -> (ok = true <-> text <> ""))
    end.
Proof.
  cbn zeta. unfold testGeminiConnection, getGeminiClient, model_generateContent, quiet.
  fold test_prompt. unfold_M.
  destruct (GOOGLE_GEMINI_API_KEY E) as [[|c key]|]; cbn beta iota.
  1,3: eexists _, _; (split; [reflexivity|]); auto.
  destruct (generateContent E (n_gemini_calls w) test_prompt) as [e|text|] eqn:Hreply;
    cbn beta iota; eexists _, _; (split; [reflexivity|]); cbn;
    (split; [auto|]); (split; [reflexivity|]); (split; [reflexivity|]);
    (split; [intros e0 [=]; reflexivity || discriminate | intros t [=]]).
  subst t. rewrite reply_test_length. destruct text as [|c0 rest]; cbn; split; congruence.
Qed.

(** X17.  [testLunarCrushIntegration] never throws, writes to neither
    table, calls neither the model nor the messenger, and makes at most two
    requests to the data provider.  It says [true] exactly when the list of
    5 coins is fetched and not empty, and its first coin has a positive rank
    and score and, in its topic data, positive mentions and interactions:
    a coin whose only positive counter is its creators passes the selection
    of the workflow, but not this check. *)
Theorem testLunarCrushIntegration_true_iff (E : Capabilities) (S : Services) (w : World) :
  exists ok w',
    testLunarCrushIntegration E S w = (Ok ok, w') /\
    quiet w w' /\ nothing_scored w w' /\
    (n_topic_requests w' <= 2 + n_topic_requests w)%nat /\
    (ok = true <->
     exists testCoin rest w1 m,
       getTopCoinsByAltRank E S 5 w = (Ok (testCoin :: rest), w1) /\
       getSocialMetrics E testCoin w1 = (Ok m, w') /\
       (0 < coin_altRank testCoin)%Z /\ (0 < coin_galaxyScore testCoin)%Z /\
       (0 < mentions m)%Z /\ (0 < interactions m)%Z).
Proof.
  unfold testLunarCrushIntegration. unfold try_catch at 1. unfold mbind at 1. unfold M_bind at 1.
  destruct (getTopCoinsByAltRank E S 5 w) as [[[|testCoin rest]|e] w1] eqn:Hcoins;
    pose proof (getTopCoinsByAltRank_world _ _ _ _ _ _ Hcoins) as Hw1; cbn.
  1,3: subst w1; eexists _, _; (split; [reflexivity|]); cbn;
       (split; [split; reflexivity|]); (split; [repeat split|]); (split; [lia|]);
       split; [discriminate | intros (c & r & w0 & m & [=] & _)].
  unfold mbind at 1. unfold M_bind at 1.
  destruct (getSocialMetrics_spec E testCoin w1) as (m & w2 & Hm & _ & _ & Hn).
  destruct (getSocialMetrics_carries E testCoin w1) as (m' & w2' & Hm' & _ & Hrank & Hscore).
  rewrite Hm in Hm'. injection Hm' as <- <-.
  pose proof (getSocialMetrics_quiet E testCoin _ _ _ Hm) as Hq.
  pose proof (getSocialMetrics_nothing_scored E testCoin _ _ _ Hm) as Hns.
  rewrite Hm.
  assert (Hbool : ((0 <? altRank m)%Z && (0 <? galaxyScore m)%Z && ((0 <? mentions m)%Z && (0 <? interactions m)%Z)
                   = true) <->
                  ((0 < coin_altRank testCoin)%Z /\ (0 < coin_galaxyScore testCoin)%Z /\
                   (0 < mentions m)%Z /\ (0 < interactions m)%Z)).
  { rewrite !andb_true_iff, !Z.ltb_lt, Hrank, Hscore. tauto. }
  destruct ((0 <? altRank m)%Z && (0 <? galaxyScore m)%Z && ((0 <? mentions m)%Z && (0 <? interactions m)%Z))
    eqn:Hb; cbn; eexists _, _; (split; [reflexivity|]); subst w1; cbn in *.
  - split; [exact Hq|]. split; [exact Hns|]. split; [lia|].
    split; [intros _|reflexivity]. eexists testCoin, rest, _, m.
    split; [reflexivity|]. split; [exact Hm|]. apply Hbool. reflexivity.
  - split; [exact Hq|]. split; [exact Hns|]. split; [lia|].
    split; [discriminate|]. intros (c & r & w0 & m0 & [= <- <- <-] & Hm0 & Hpos).
    rewrite Hm in Hm0. injection Hm0 as <-. apply Hbool in Hpos. discriminate.
Qed.

(** ** Reading a reply in the format of the prompt *)

Lemma parseInt_snoc (digits : string) (c : ascii) :
  parseInt (digits ++ String c "")%string = 10 * parseInt digits + digit_value c.
Proof.
  unfold parseInt.
  assert (Hl : list_ascii_of_string (digits ++ String c "")%string
               = list_ascii_of_string digits ++ [c]).
  { induction digits as [|d digits IH]; [reflexivity|]. cbn. rewrite <- IH. reflexivity. }
  rewrite Hl, fold_left_app. reflexivity.
Qed.

Lemma pretty_N_char_digit (x : N) :
  (x < 10)%N -> is_digit (pretty_N_char x) = true /\ digit_value (pretty_N_char x) = Z.of_N x.
Proof.
  intros Hx.
  assert (x = 0 \/ x = 1 \/ x = 2 \/ x = 3 \/ x = 4 \/ x = 5 \/ x = 6 \/ x = 7 \/ x = 8 \/ x = 9)%N
    as Hc by lia.
  repeat (destruct Hc as [->|Hc]; [split; reflexivity|]). subst x. split; reflexivity.
Qed.

(** The digits of a string, as far as they go. *)
Lemma take_digits_app (digits rest : string) :
  Forall (fun c => is_digit c = true) (list_ascii_of_string digits) -> no_digit_ahead rest ->
  take_digits (digits ++ rest)%string = digits.
Proof.
  intros Hd Hrest. induction digits as [|d digits IH].
  - change ("" ++ rest)%string with rest.
    destruct rest as [|c rest]; [reflexivity|]. cbn [take_digits no_digit_ahead] in *.
    rewrite Hrest. reflexivity.
  - change (String d digits ++ rest)%string with (String d (digits ++ rest)%string).
    change (list_ascii_of_string (String d digits)) with (d :: list_ascii_of_string digits) in Hd.
    inversion Hd as [|? ? Hc Hds]; subst. cbn [take_digits]. rewrite Hc, IH by exact Hds.
    reflexivity.
Qed.

Lemma string_append_assoc (a b c : string) : ((a ++ b) ++ c = a ++ (b ++ c))%string.
Proof.
  induction a as [|x a IH]; [reflexivity|].
  change (String x ((a ++ b) ++ c)%string = String x (a ++ (b ++ c))%string). rewrite IH. reflexivity.
Qed.

Lemma string_append_empty (a : string) : (a ++ "")%string = a.
Proof.
  induction a as [|x a IH]; [reflexivity|].
  change (String x (a ++ "")%string = String x a). rewrite IH. reflexivity.
Qed.

Lemma pretty_N_go_digits (x : N) : forall s,
  exists digits,
    pretty_N_go x s = (digits ++ s)%string /\
    Forall (fun c => is_digit c = true) (list_ascii_of_string digits) /\
    parseInt digits = Z.of_N x /\
    ((0 < x)%N -> digits <> "").
Proof.
  induction (N.lt_wf_0 x) as [x _ IH]. intros s.
  destruct (N.eq_dec x 0%N) as [->|Hx].
  - exists "". rewrite pretty_N_go_0. split; [reflexivity|]. split; [constructor|].
    split; [reflexivity | lia].
  - rewrite pretty_N_go_step by lia.
    destruct (IH (x `div` 10)%N) with (s := String (pretty_N_char (x `mod` 10)) s)
      as (digits & Hgo & Hall & Hval & _).
    { apply N.div_lt; lia. }
    destruct (pretty_N_char_digit (x `mod` 10)%N) as [Hdig Hdv].
    { apply N.mod_lt. lia. }
    exists (digits ++ String (pretty_N_char (x `mod` 10)) "")%string.
    split; [rewrite Hgo, string_append_assoc; reflexivity|].
    split.
    { clear - Hall Hdig. induction digits as [|d digits IH]; cbn in *.
      - constructor; [exact Hdig | constructor].
      - inversion Hall; subst. constructor; auto. }
    split.
    { rewrite parseInt_snoc, Hval, Hdv.
      rewrite (N.div_mod x 10) at 3 by lia. rewrite N2Z.inj_add, N2Z.inj_mul. reflexivity. }
    intros _. destruct digits; discriminate.
Qed.

Lemma pretty_Z_digits (c : Z) :
  (0 <= c)%Z ->
  exists d digits,
    pretty c = String d digits /\
    Forall (fun c => is_digit c = true) (list_ascii_of_string (String d digits)) /\
    parseInt (String d digits) = c.
Proof.
  intros Hc. destruct c as [|p|p]; [| |lia].
  - exists "0"%char, "". split; [reflexivity|]. split; [repeat constructor | reflexivity].
  - unfold pretty, pretty_Z, pretty, pretty_positive, pretty, pretty_N.
    destruct (decide (N.pos p = 0%N)) as [H|_]; [discriminate H|].
    destruct (pretty_N_go_digits (N.pos p) "") as (digits & Hgo & Hall & Hval & Hne).
    rewrite string_append_empty in Hgo. rewrite Hgo. destruct digits as [|d digits]; [destruct Hne; [lia | reflexivity]|].
    exists d, digits. split; [reflexivity|]. split; [exact Hall | exact Hval].
Qed.

Lemma strip_one_space_digit (c : ascii) (s : string) :
  is_digit c = true -> strip_one_space (String c s) = None.
Proof.
  intros Hc.
  destruct c as [[] [] [] [] [] [] [] []]; try discriminate Hc; reflexivity.
Qed.

Lemma skip_spaces_fuel_digit (fuel : nat) (c : ascii) (s : string) :
  is_digit c = true -> skip_spaces_fuel fuel (String c s) = String c s.
Proof.
  intros Hc. destruct fuel as [|fuel]; [reflexivity|].
  cbn [skip_spaces_fuel]. rewrite strip_one_space_digit by exact Hc. reflexivity.
Qed.

Lemma search_skip {A} (at_position : string -> option A) (c : ascii) (s : string) :
  at_position (String c s) = None -> search at_position (String c s) = search at_position s.
Proof. intros H. cbn [search]. rewrite H. reflexivity. Qed.

Lemma search_here {A} (at_position : string -> option A) (s : string) (r : A) :
  at_position s = Some r -> search at_position s = Some r.
Proof. intros H. destruct s; cbn [search]; rewrite H; reflexivity. Qed.

Lemma match_SIGNAL_formatted (s : SignalType) (c : Z) (rest : string) :
  match_SIGNAL (formatted_reply s c rest) = Some s.
Proof.
  unfold formatted_reply. generalize (pretty c ++ rest)%string. intros tail.
  destruct s; reflexivity.
Qed.

Lemma match_CONFIDENCE_formatted (s : SignalType) (c : Z) (rest : string) :
  (0 <= c)%Z -> no_digit_ahead rest ->
  match_CONFIDENCE (formatted_reply s c rest) = Some (pretty c).
Proof.
  intros Hc Hrest. unfold formatted_reply.
  destruct (pretty_Z_digits c Hc) as (d & digits & -> & Hall & _).
  pose proof (take_digits_app (String d digits) rest Hall Hrest) as Htake.
  inversion Hall as [|? ? Hd _]; subst.
  assert (Hat : forall fuel,
            take_digits (skip_spaces_fuel (S fuel) (String " " (String d digits ++ rest)%string))
            = String d digits).
  { intros fuel. cbn [skip_spaces_fuel].
    change (strip_one_space (String " " (String d digits ++ rest)%string))
      with (Some (String d digits ++ rest)%string).
    cbv beta iota.
    change (String d digits ++ rest)%string with (String d (digits ++ rest)%string) in *.
    rewrite skip_spaces_fuel_digit by exact Hd. exact Htake. }
  remember (String d digits ++ rest)%string as tail eqn:Htail. clear Htail Htake.
  assert (Hhere : (fun s : string =>
             match strip_prefix_ci "CONFIDENCE:" s with
             | Some r =>
                 match take_digits (skip_spaces r) with
                 | EmptyString => None
                 | digits => Some digits
                 end
             | None => None
             end) ("CONFIDENCE: " ++ tail)%string = Some (String d digits)).
  { change (match take_digits (skip_spaces (String " " tail)) with
            | EmptyString => None
            | digits => Some digits
            end = Some (String d digits)).
    unfold skip_spaces. cbn [String.length]. rewrite Hat. reflexivity. }
  unfold match_CONFIDENCE.
  destruct s; unfold SignalType_to_string, nl, String.append;
    repeat (rewrite search_skip by reflexivity); exact (search_here _ _ _ Hhere).
Qed.

Lemma parseSignalResponse_formatted (E : Capabilities) (symbol : string) (m : SocialMetrics)
    (s : SignalType) (c : Z) (rest : string) (w : World) :
  (0 <= c)%Z -> no_digit_ahead rest ->
  exists sig w',
    parseSignalResponse E (Some (formatted_reply s c rest)) symbol m w = (Ok sig, w') /\
    signal sig = s /\ confidence sig = Z.min 100 c.
Proof.
  intros Hc Hrest. unfold parseSignalResponse.
  rewrite match_SIGNAL_formatted, (match_CONFIDENCE_formatted s c rest Hc Hrest).
  destruct (pretty_Z_digits c Hc) as (d & digits & Hp & _ & Hval). rewrite Hp.
  cbn [default from_option id fmap option_fmap option_map]. rewrite Hval.
  unfold new_Date_toISOString, Date_now. unfold_M. cbn beta iota.
  eexists _, _. split; [reflexivity|]. cbn [signal confidence]. split; [reflexivity | lia].
Qed.

(** X18.  A reply in the format the prompt asks for is read as it says.
    When the key is set and the model answers with the two lines
    [SIGNAL: s] and [CONFIDENCE: c], with [c] a natural number in decimal
    digits, whatever follows the number (but no further digit),
    [generateTradingSignal] returns the signal [s] with the confidence [c],
    capped at 100. *)
Theorem generateTradingSignal_reads_the_format (E : Capabilities) (symbol : string)
    (currentMetrics : SocialMetrics) (historicalMetrics : option (list SocialMetrics))
    (s : SignalType) (c : Z) (rest : string) (w : World) :
  (exists key, GOOGLE_GEMINI_API_KEY E = Some key /\ key <> "") ->
  generateContent E (n_gemini_calls w) (createAnalysisPrompt E symbol currentMetrics historicalMetrics)
  = GeminiText (formatted_reply s c rest) ->
  (0 <= c)%Z -> no_digit_ahead rest ->
  exists sig w',
    generateTradingSignal E symbol currentMetrics historicalMetrics w = (Ok sig, w') /\
    signal sig = s /\ confidence sig = Z.min 100 c.
Proof.
  intros (key & Hkey & Hne) Hreply Hc Hrest.
  unfold generateTradingSignal, getGeminiClient, model_generateContent. rewrite Hkey.
  destruct key as [|k key]; [congruence|]. unfold_M. rewrite Hreply.
  match goal with
  | |- context [parseSignalResponse E _ symbol currentMetrics ?w0] =>
      destruct (parseSignalResponse_formatted E symbol currentMetrics s c rest w0 Hc Hrest)
        as (sig & w' & Hparse & Hs & Hconf)
  end.
  rewrite Hparse. exists sig, w'. auto.
Qed.

Lemma generateTradingSignal_reads_the_format_witness :
  exists sig w',
    generateTradingSignal Demo.env "BTC" Demo.some_metrics None Demo.empty_world = (Ok sig, w') /\
    signal sig = BUY /\ confidence sig = 90%Z.
Proof.
  apply (generateTradingSignal_reads_the_format Demo.env "BTC" Demo.some_metrics None BUY 90
           (nl ++ "REASONING: good")%string Demo.empty_world).
  - exists "key". split; [reflexivity | discriminate].
  - reflexivity.
  - lia.
  - reflexivity.
Defined.

(** ** Clearing the database *)

Lemma clear_database_run (E : Capabilities) (S : Services) (w : World) :
  let kept_signals := filter (fun s => sig_id s = "") (trading_signals w) in
  let kept_jobs := filter (fun row : string * JobRow => fst row = "") (analysis_jobs w) in
  exists response w',
    ClearDatabaseRoute.POST E S w = (Ok response, w') /\
    ((ClearDatabaseRoute.res_status response = 200 /\
      ClearDatabaseRoute.res_success response = true /\
      signals_delete S (n_signal_ops w) = DbOk /\ jobs_op E (n_jobs_ops w) = DbOk /\
      trading_signals w' = kept_signals /\ analysis_jobs w' = kept_jobs) \/
     (ClearDatabaseRoute.res_status response = 500 /\
      ClearDatabaseRoute.res_success response = false /\
      analysis_jobs w' = analysis_jobs w /\
      ((signals_delete S (n_signal_ops w) <> DbOk /\ trading_signals w' = trading_signals w /\
        n_jobs_ops w' = n_jobs_ops w) \/
       (signals_delete S (n_signal_ops w) = DbOk /\ jobs_op E (n_jobs_ops w) <> DbOk /\
        trading_signals w' = kept_signals)))).
Proof.
  cbn zeta. unfold ClearDatabaseRoute.POST, ClearDatabaseRoute.trading_signals_delete,
    ClearDatabaseRoute.analysis_jobs_delete. unfold_M.
  destruct (signals_delete S (n_signal_ops w)) as [|e|e] eqn:Hs; cbn.
  - destruct (jobs_op E (n_jobs_ops w)) as [|e|e] eqn:Hj; cbn;
      eexists _, _; (split; [reflexivity|]); cbn;
      [left; auto 10 | right | right];
      (split; [reflexivity|]); (split; [reflexivity|]); (split; [reflexivity|]);
      right; (split; [reflexivity|]); (split; [discriminate | reflexivity]).
  - eexists _, _. split; [reflexivity|]. cbn. right. do 3 (split; [reflexivity|]).
    left. split; [discriminate | auto].
  - eexists _, _. split; [reflexivity|]. cbn. right. do 3 (split; [reflexivity|]).
    left. split; [discriminate | auto].
Qed.

(** X19.  The clear-database route never throws; it answers 200 with
    [success: true] or 500 with [success: false].  It deletes the jobs only
    after the signals are deleted: on 200 both deletes were accepted; on 500
    the table [analysis_jobs] is as it was, and either the first delete
    failed and [trading_signals] is as it was too, with no call made for
    the jobs, or the signals are gone and the jobs are still there.  A
    delete removes the rows whose id is not the empty string. *)
Theorem clear_database_deletes_signals_first (E : Capabilities) (S : Services) (w : World) :
  let kept_signals := filter (fun s => sig_id s = "") (trading_signals w) in
  let kept_jobs := filter (fun row : string * JobRow => fst row = "") (analysis_jobs w) in
  exists response w',
    ClearDatabaseRoute.POST E S w = (Ok response, w') /\
    ((ClearDatabaseRoute.res_status response = 200 /\
      ClearDatabaseRoute.res_success response = true /\
      signals_delete S (n_signal_ops w) = DbOk /\ jobs_op E (n_jobs_ops w) = DbOk /\
      trading_signals w' = kept_signals /\ analysis_jobs w' = kept_jobs) \/
     (ClearDatabaseRoute.res_status response = 500 /\
      ClearDatabaseRoute.res_success response = false /\
      analysis_jobs w' = analysis_jobs w /\
      ((signals_delete S (n_signal_ops w) <> DbOk /\ trading_signals w' = trading_signals w /\
        n_jobs_ops w' = n_jobs_ops w) \/
       (signals_delete S (n_signal_ops w) = DbOk /\ jobs_op E (n_jobs_ops w) <> DbOk /\
        trading_signals w' = kept_signals)))).
Proof. apply clear_database_run. Qed.

(** ** The ids of the stored rows *)

Lemma symbol_time_id_not_empty (symbol : string) (t : Z) : (symbol ++ "-" ++ pretty t)%string <> "".
Proof. destruct symbol; discriminate. Qed.

Lemma scored_candidate_id (coins : list TopCoin) (s : TradingSignal) :
  scored_candidate coins s -> sig_id s <> "".
Proof.
  intros (r & _ & _ & _ & _ & t & ->). apply symbol_time_id_not_empty.
Qed.

Lemma signalAnalysisWorkflow_Throw_rows (E : Capabilities) ev w e w' :
  signalAnalysisWorkflow E ev w = (Throw e, w') -> trading_signals w' = trading_signals w.
Proof.
  intros Hrun. unfold signalAnalysisWorkflow in Hrun.
  apply bind_Throw_inv in Hrun. destruct Hrun as [Hnow|(startTime & w0 & Hnow & Hrun)];
    [discriminate Hnow|].
  assert (H0 : trading_signals w0 = trading_signals w) by (inversion Hnow; reflexivity).
  destruct (ev_jobId ev) as [[|c jobId]|]; try (inversion Hrun; subst; exact H0).
  apply bind_Throw_inv in Hrun. destruct Hrun as [Hinit|(j & w1 & Hinit & Hrun)].
  { destruct (initialize_job_jobs_only E ev _ _ _ _ Hinit) as [H1 _]. congruence. }
  destruct (initialize_job_jobs_only E ev _ _ _ _ Hinit) as [H1 _].
  apply bind_Throw_inv in Hrun. destruct Hrun as [Hsel|(selected & w2 & Hsel & Hrun)].
  { destruct (select_and_fetch_data_nothing_scored E ev _ _ _ _ Hsel) as [H2 _]. congruence. }
  exfalso. apply bind_Throw_inv in Hrun.
  destruct (generate_ai_signals_value E (String c jobId) selected w2) as (signals' & w3' & Hai' & _).
  destruct Hrun as [Hai|(signals & w3 & Hai & Hrun)]; [rewrite Hai' in Hai; discriminate Hai|].
  apply bind_Throw_inv in Hrun.
  destruct (persist_and_complete_value E (String c jobId) startTime signals w3) as (w4' & Hpersist').
  destruct Hrun as [Hpersist|([[saved summary] sorted] & w4 & Hpersist & Hrun)];
    [rewrite Hpersist' in Hpersist; discriminate Hpersist|].
  apply bind_Throw_inv in Hrun.
  destruct Hrun as [Hnow'|(now & w5 & _ & Hret)]; [discriminate Hnow' | discriminate Hret].
Qed.

Lemma signalAnalysisWorkflow_other_rows (E : Capabilities) ev w r w' id :
  ev_jobId ev <> Some id ->
  signalAnalysisWorkflow E ev w = (r, w') -> analysis_jobs w' !! id = analysis_jobs w !! id.
Proof.
  intros Hid Hrun.
  unfold signalAnalysisWorkflow in Hrun. unfold mbind at 1 in Hrun. unfold M_bind at 1 in Hrun.
  change (Date_now E w) with (Ok (clock E (n_clock w)), set_n_clock (S (n_clock w)) w) in Hrun.
  cbv iota beta in Hrun.
  destruct (ev_jobId ev) as [[|c jobId]|]; try (inversion Hrun; subst; reflexivity).
  assert (Hother : String c jobId <> id) by congruence.
  exact (workflow_steps_row_untouched E id (String c jobId) Hother ev _ _ _ _ Hrun).
Qed.

Lemma signalAnalysisWorkflow_ids (E : Capabilities) ev w :
  ids_not_empty w -> ids_not_empty (snd (signalAnalysisWorkflow E ev w)).
Proof.
  intros [Hrows Hjobs]. destruct (signalAnalysisWorkflow E ev w) as [r w'] eqn:Hrun. cbn [snd].
  split.
  - destruct r as [res|e].
    + destruct (signalAnalysisWorkflow_scored E ev w res w' Hrun)
        as (coins & new & _ & -> & _ & Hnew & _).
      apply Forall_app. split; [exact Hrows|].
      eapply Forall_impl; [exact Hnew|]. intros s. apply scored_candidate_id.
    + rewrite (signalAnalysisWorkflow_Throw_rows E ev w e w' Hrun). exact Hrows.
  - destruct (decide (ev_jobId ev = Some "")) as [Hid|Hid].
    + unfold signalAnalysisWorkflow in Hrun. unfold mbind at 1 in Hrun. unfold M_bind at 1 in Hrun.
      change (Date_now E w) with (Ok (clock E (n_clock w)), set_n_clock (S (n_clock w)) w) in Hrun.
      cbv iota beta in Hrun. rewrite Hid in Hrun. inversion Hrun; subst. exact Hjobs.
    + rewrite (signalAnalysisWorkflow_other_rows E ev w r w' "" Hid Hrun). exact Hjobs.
Qed.

Lemma generateSignalForSymbol_ids (E : Capabilities) (S : Services) symbol w :
  ids_not_empty w -> ids_not_empty (snd (generateSignalForSymbol E S symbol w)).
Proof.
  intros [Hrows Hjobs]. destruct (generateSignalForSymbol E S symbol w) as [r w'] eqn:Hrun.
  destruct (generateSignalForSymbol_inv E S symbol w r w' Hrun) as (Hj & Hr). cbn zeta in Hr.
  cbn [snd]. split; [|rewrite Hj; exact Hjobs].
  destruct r as [s|e].
  - destruct Hr as (_ & _ & (t & Hid) & _ & _ & [-> | ->]); [exact Hrows|].
    apply Forall_app. split; [exact Hrows|]. constructor; [|constructor].
    rewrite Hid. apply symbol_time_id_not_empty.
  - destruct Hr as (_ & -> & _). exact Hrows.
Qed.

Lemma clear_database_empties (E : Capabilities) (S : Services) w response w' :
  ids_not_empty w ->
  ClearDatabaseRoute.POST E S w = (Ok response, w') ->
  ClearDatabaseRoute.res_status response = 200 ->
  trading_signals w' = [] /\ analysis_jobs w' = ∅.
Proof.
  intros [Hrows Hjobs] Hrun Hstatus.
  destruct (clear_database_run E S w) as (response0 & w0 & Hrun0 & Hcases). cbn zeta in Hcases.
  rewrite Hrun in Hrun0. injection Hrun0 as <- <-.
  destruct Hcases as [(_ & _ & _ & _ & -> & ->)|(H500 & _)]; [|rewrite Hstatus in H500; discriminate].
  split.
  - clear - Hrows. induction Hrows as [|s rows Hs _ IH]; [reflexivity|].
    rewrite filter_cons. destruct (decide (sig_id s = "")); [contradiction | exact IH].
  - apply map_eq. intros id. rewrite lookup_empty. apply map_lookup_filter_None.
    destruct (decide (id = "")) as [->|Hne]; [left; exact Hjobs|].
    right. intros row _ Hid. apply Hne, Hid.
Qed.

(** X20.  No row the code stores has the empty string for its id: the
    workflow creates a job only under a job id that is not empty, and a
    signal has the id [symbol-<time>].  So if no stored row has an empty id,
    none has after a run of the workflow or after a call of
    [generateSignalForSymbol], however they end; and a clear-database call
    answered with 200, whose deletes skip the rows with an empty id, leaves
    both tables empty. *)
Theorem stored_ids_are_not_empty (w : World) :
  ids_not_empty w ->
  (forall E ev, ids_not_empty (snd (signalAnalysisWorkflow E ev w))) /\
  (forall E S symbol, ids_not_empty (snd (generateSignalForSymbol E S symbol w))) /\
  (forall E S response w',
     ClearDatabaseRoute.POST E S w = (Ok response, w') ->
     ClearDatabaseRoute.res_status response = 200 ->
     trading_signals w' = [] /\ analysis_jobs w' = ∅).
Proof.
  intros Hids. split; [intros E ev; apply signalAnalysisWorkflow_ids, Hids|].
  split; [intros E S symbol; apply generateSignalForSymbol_ids, Hids|].
  intros E S response w'. apply clear_database_empties, Hids.
Qed.

Lemma stored_ids_are_not_empty_witness :
  ids_not_empty
    (snd (signalAnalysisWorkflow Demo.env (Demo.event [Demo.coin "BTC"]) Demo.empty_world)).
Proof.
  assert (Hempty : ids_not_empty Demo.empty_world) by (split; [constructor | reflexivity]).
  exact (proj1 (stored_ids_are_not_empty Demo.empty_world Hempty) Demo.env
           (Demo.event [Demo.coin "BTC"])).
Defined.
